(** * ForgePad: provider fallback orchestration (services/ai.ts, services/storage.ts)

    A shallow embedding of the AI service of ForgePad: the error
    classifier [classifyError], the timeout guard [withTimeout], the runtime
    event bus ([subscribeRuntimeEvents], [emitRuntimeEvent]), the parts of the
    preference and secret store that [sendMessage] consults, and the fallback
    loop of [AIService.sendMessage] itself. The store is then embedded in
    full over the browser storage it lives in (module [Store]), and so are
    the three provider adapters, with the Gemini SDK as a parameter.

    Promises are embedded by their settled outcome: a computation either
    returns a value or throws one, and threads the state of the process (the
    effect trace, which holds the writes to the health store, the pending
    timers, the listener set). *)

From Stdlib Require Import List String Ascii Bool Arith NArith Lia DecimalString.
Import ListNotations.
Open Scope list_scope.
Open Scope string_scope.

Set Implicit Arguments.

(** ** Data model *)

(** [AIProvider] of storage.ts. *)
Inductive AIProvider := gemini | openai | anthropic.

Definition AIProvider_eqb (a b : AIProvider) : bool :=
  match a, b with
  | gemini, gemini | openai, openai | anthropic, anthropic => true
  | _, _ => false
  end.

(** The string a provider is in the source; template literals print it. *)
Definition providerName (p : AIProvider) : string :=
  match p with
  | gemini => "gemini"
  | openai => "openai"
  | anthropic => "anthropic"
  end.

(** [ErrorClass] of ai.ts. *)
Inductive ErrorClass := timeout | auth | rate_limit | network | provider | unknown.

Definition className (k : ErrorClass) : string :=
  match k with
  | timeout => "timeout"
  | auth => "auth"
  | rate_limit => "rate_limit"
  | network => "network"
  | provider => "provider"
  | unknown => "unknown"
  end.

Definition ERROR_CLASSES : list ErrorClass :=
  [timeout; auth; rate_limit; network; provider; unknown].

(** The health values of [ProviderHealthEvent]. *)
Inductive Health := healthy | degraded | error | unconfigured.

Inductive Role := user | assistant | system.

Record Message := { role : Role; content : string }.

(** The value of a [classification] property. The errors this module tags
    carry one of the six strings of [ErrorClass]; an object that comes from
    elsewhere (an adapter may reject with anything) can carry any value:
    [undefined] or [null], or a value that is none of the six strings, given
    as a template literal prints it. *)
Inductive Classification :=
| Kind (k : ErrorClass)
| Nullish
| Foreign (shown : string).

(** [classification === 'auth']. *)
Definition isAuth (c : Classification) : bool :=
  match c with
  | Kind auth => true
  | _ => false
  end.

(** [classification ?? 'provider'], as a template literal prints it. *)
Definition reasonOf (c : Classification) : string :=
  match c with
  | Kind k => className k
  | Nullish => "provider"
  | Foreign shown => shown
  end.

(** [ClassifiedError] as [classifyError] returns it and [sendMessage] reads
    it: an object with a [classification] property, and its [message], which
    an object that is not an [Error] need not have. *)
Record ClassifiedError := {
  message : option string;
  classification : Classification
}.

(** What a [catch (error)] clause can receive ([unknown] in the source),
    split along the tests [classifyError] performs on it: an object with a
    [classification] property, whatever its value, an [Error] without one,
    anything else. *)
Inductive Thrown :=
| Classified (e : ClassifiedError)
| PlainError (msg : string)
| NonError (shown : string).

Record ProviderSwitchEvent := {
  from : AIProvider;
  to : AIProvider;
  reason : string
}.

Record ProviderHealthEvent := {
  hprovider : AIProvider;
  health : Health;
  detail : option string
}.

Inductive ProviderRuntimeEvent :=
| provider_switch (e : ProviderSwitchEvent)
| provider_health (e : ProviderHealthEvent).

(** ** Strings *)

(** [String.prototype.includes]. *)
Fixpoint includes (needle hay : string) : bool :=
  prefix needle hay ||
  match hay with
  | EmptyString => false
  | String _ rest => includes needle rest
  end.

Definition lowerChar (c : ascii) : ascii :=
  let n := nat_of_ascii c in
  if ((65 <=? n) && (n <=? 90))%nat then ascii_of_nat (n + 32) else c.

(** [String.prototype.toLowerCase] on the code units below 256: the letters
    A to Z are mapped, every other unit is kept. *)
Fixpoint toLowerCase (s : string) : string :=
  match s with
  | EmptyString => EmptyString
  | String c rest => String (lowerChar c) (toLowerCase rest)
  end.

(** A non-negative integer as a template literal prints it. *)
Definition showNumber (n : N) : string :=
  NilZero.string_of_uint (N.to_uint n).

(** ** ErrorClassifier *)

Definition PROVIDER_ORDER : list AIProvider := [gemini; openai; anthropic].
Definition DEFAULT_TIMEOUT_MS : N := 20000%N.

(** The if-else chain of [classifyError] over the lower-cased message. *)
Definition classifyMessage (msg : string) : ErrorClass :=
  let message := toLowerCase msg in
  if includes "missing" message || includes "invalid key" message
     || includes "unauthorized" message || includes "401" message
  then auth
  else if includes "timeout" message then timeout
  else if includes "429" message || includes "rate" message then rate_limit
  else if includes "network" message || includes "fetch" message then network
  else if includes "provider" message then provider
  else unknown.

Definition classifyError (p : AIProvider) (error : Thrown) : ClassifiedError :=
  match error with
  | Classified e => e
  | PlainError msg =>
      {| message := Some msg; classification := Kind (classifyMessage msg) |}
  | NonError _ =>
      let msg := providerName p ++ " request failed" in
      {| message := Some msg; classification := Kind (classifyMessage msg) |}
  end.

(** The priority table as the specification words it: the kinds in order,
    each with the fragments that select it. *)
Definition CLASSIFICATION_RULES : list (ErrorClass * list string) :=
  [ (auth, ["missing"; "invalid key"; "unauthorized"; "401"]);
    (timeout, ["timeout"]);
    (rate_limit, ["429"; "rate"]);
    (network, ["network"; "fetch"]);
    (provider, ["provider"]) ].

Fixpoint firstMatch (rules : list (ErrorClass * list string)) (lowered : string)
  : ErrorClass :=
  match rules with
  | [] => unknown
  | (k, fragments) :: rest =>
      if existsb (fun f => includes f lowered) fragments then k
      else firstMatch rest lowered
  end.

Definition classifyBySpec (msg : string) : ErrorClass :=
  firstMatch CLASSIFICATION_RULES (toLowerCase msg).

(** ** Candidate list *)

Fixpoint indexOf (x : AIProvider) (arr : list AIProvider) : option nat :=
  match arr with
  | [] => None
  | y :: rest =>
      if AIProvider_eqb y x then Some 0
      else option_map S (indexOf x rest)
  end.

(** [arr.filter((x, index, arr) => keep x index arr)]. *)
Fixpoint filterFrom (keep : AIProvider -> nat -> bool) (index : nat)
  (l : list AIProvider) : list AIProvider :=
  match l with
  | [] => []
  | x :: rest =>
      if keep x index then x :: filterFrom keep (S index) rest
      else filterFrom keep (S index) rest
  end.

Definition option_nat_eqb (a : option nat) (n : nat) : bool :=
  match a with
  | Some m => (m =? n)%nat
  | None => false
  end.

Definition candidates (selectedProvider : AIProvider) : list AIProvider :=
  let arr :=
    selectedProvider ::
    filter (fun p => negb (AIProvider_eqb p selectedProvider)) PROVIDER_ORDER in
  filterFrom (fun p index => option_nat_eqb (indexOf p arr) index) 0 arr.

Definition arrayIncludes (arr : list AIProvider) (p : AIProvider) : bool :=
  existsb (AIProvider_eqb p) arr.

Definition providersToTry (configuredProviders : list AIProvider)
  (selectedProvider : AIProvider) : list AIProvider :=
  let cs := candidates selectedProvider in
  let healthyCandidates := filter (arrayIncludes configuredProviders) cs in
  if (0 <? List.length healthyCandidates)%nat then healthyCandidates else cs.

(** ** Computations: settled promises over the process state *)

(** How a call (or an awaited promise) ends. *)
Inductive Completion (A : Type) :=
| Returns (a : A)
| Throws (e : Thrown).

Arguments Returns {A} a.
Arguments Throws {A} e.

(** A runtime listener: a function (compared by identity in the [Set] that
    holds the listeners, here by [lid]) that returns or throws on an event. *)
Record Listener := {
  lid : nat;
  react : ProviderRuntimeEvent -> Completion unit
}.

(** What a call leaves behind that an observer can see, in order. *)
Inductive Effect :=
| ConsoleInfo (e : ProviderSwitchEvent)
| OnProviderSwitch (e : ProviderSwitchEvent)
| OnProviderEvent (line : string)
| OnProviderHealth (e : ProviderHealthEvent)
| Completing (p : AIProvider) (messages : list Message)
| SavedHealth (p : AIProvider) (h : Health)
| Emitted (e : ProviderRuntimeEvent)
| Delivered (listener : nat) (e : ProviderRuntimeEvent).

Record State := {
  trace : list Effect;
  nextTimer : nat;
  pendingTimers : list nat;
  runtimeListeners : list Listener
}.

Definition M (A : Type) : Type := State -> Completion A * State.

Definition ret {A} (a : A) : M A := fun s => (Returns a, s).

Definition throw {A} (e : Thrown) : M A := fun s => (Throws e, s).

Definition bind {A B} (c : M A) (k : A -> M B) : M B :=
  fun s =>
    match c s with
    | (Returns a, s') => k a s'
    | (Throws e, s') => (Throws e, s')
    end.

(** [try { body } catch (error) { handler error }]. *)
Definition tryCatch {A} (body : M A) (handler : Thrown -> M A) : M A :=
  fun s =>
    match body s with
    | (Returns a, s') => (Returns a, s')
    | (Throws e, s') => handler e s'
    end.

(** [try { body } finally { cleanup }], for a cleanup that does not throw. *)
Definition tryFinally {A} (body : M A) (cleanup : State -> State) : M A :=
  fun s => let (c, s') := body s in (c, cleanup s').

Definition settle {A} (c : Completion A) : M A := fun s => (c, s).

Declare Scope comp_scope.
Delimit Scope comp_scope with comp.
Notation "x <- c ;; k" := (bind c (fun x => k))
  (at level 61, c at next level, right associativity) : comp_scope.
Notation "c ;; k" := (bind c (fun _ => k))
  (at level 61, right associativity) : comp_scope.
Open Scope comp_scope.

Definition log (e : Effect) : M unit :=
  fun s =>
    (Returns tt,
     {| trace := trace s ++ [e];
        nextTimer := nextTimer s;
        pendingTimers := pendingTimers s;
        runtimeListeners := runtimeListeners s |}).

(** An optional callback of the options, [cb?.(e)]: called when present. *)
Definition callOptional {E} (cb : option (E -> Completion unit))
  (shown : E -> Effect) (e : E) : M unit :=
  match cb with
  | None => ret tt
  | Some f => log (shown e) ;; settle (f e)
  end.

(** ** The preference and secret store (storage.ts) *)

Record SecretPayload := {
  providerKeys : AIProvider -> option string;
  githubToken : option string
}.

(** The two preferences [sendMessage] reads. *)
Record StoragePreferences := {
  defaultProvider : AIProvider;
  providerFallbackEnabled : bool
}.

Record Storage := {
  readPrefs : StoragePreferences;
  readSecrets : SecretPayload;
  GEMINI_API_KEY : option string
}.

(** JavaScript truthiness of an optional string: present and not empty. *)
Definition truthy (v : option string) : bool :=
  match v with
  | Some (String _ _) => true
  | _ => false
  end.

Definition withProviderApiKey {A} (st : Storage) (p : AIProvider)
  (fn : string -> Completion A) : Completion A :=
  match providerKeys (readSecrets st) p with
  | Some (String c rest) => fn (String c rest)
  | _ => Throws (PlainError (providerName p ++ " API Key missing"))
  end.

Definition getConfiguredProviders (st : Storage) : list AIProvider :=
  filter
    (fun p =>
       if AIProvider_eqb p gemini && truthy (GEMINI_API_KEY st) then true
       else truthy (providerKeys (readSecrets st) p))
    [gemini; openai; anthropic].

(** Modelled from the spec: [storage.saveProviderHealth] is called by
    [sendMessage] and is not part of the sources at hand; it records the
    last-known health of the provider, overwriting the previous one, and
    returns. The write is traced, and [recordedHealth] reads the store off
    the trace. *)
Definition saveProviderHealth (p : AIProvider) (h : Health) : M unit :=
  log (SavedHealth p h).

Fixpoint recordedHealth (tr : list Effect) (p : AIProvider) : option Health :=
  match tr with
  | [] => None
  | e :: rest =>
      match recordedHealth rest p with
      | Some h => Some h
      | None =>
          match e with
          | SavedHealth q h => if AIProvider_eqb q p then Some h else None
          | _ => None
          end
      end
  end.

(** ** TimeoutGuard *)

(** The race of [Promise.race([promise, timeoutPromise])] as the event loop
    decides it: the operation settles first, with its own completion, or the
    deadline fires first. *)
Inductive Race (A : Type) :=
| OperationSettles (c : Completion A)
| DeadlineFires.

Arguments OperationSettles {A} c.
Arguments DeadlineFires {A}.

Definition removeTimer (id : nat) (timers : list nat) : list nat :=
  filter (fun t => negb (t =? id)%nat) timers.

(** [setTimeout]: a fresh timer becomes pending; its id is returned. *)
Definition setTimeout : M nat :=
  fun s =>
    (Returns (nextTimer s),
     {| trace := trace s;
        nextTimer := S (nextTimer s);
        pendingTimers := nextTimer s :: pendingTimers s;
        runtimeListeners := runtimeListeners s |}).

(** A timer that fires, and [clearTimeout], both end the timer's pending. *)
Definition clearTimeout (id : nat) (s : State) : State :=
  {| trace := trace s;
     nextTimer := nextTimer s;
     pendingTimers := removeTimer id (pendingTimers s);
     runtimeListeners := runtimeListeners s |}.

Definition timerFires (id : nat) : M unit :=
  fun s => (Returns tt, clearTimeout id s).

Definition timeoutError (p : AIProvider) (timeoutMs : N) : ClassifiedError :=
  {| message :=
       Some
         (providerName p ++ " request timed out after " ++ showNumber timeoutMs
            ++ "ms");
     classification := Kind timeout |}.

Definition withTimeout {A} (promise : Race A) (timeoutMs : N) (p : AIProvider)
  : M A :=
  timeoutId <- setTimeout ;;
  tryFinally
    (match promise with
     | OperationSettles c => settle c
     | DeadlineFires =>
         timerFires timeoutId ;; throw (Classified (timeoutError p timeoutMs))
     end)
    (clearTimeout timeoutId).

(** ** RuntimeEventBus *)

Definition hasListener (l : Listener) (ls : list Listener) : bool :=
  existsb (fun l' => (lid l' =? lid l)%nat) ls.

Definition withListeners (ls : list Listener) (s : State) : State :=
  {| trace := trace s;
     nextTimer := nextTimer s;
     pendingTimers := pendingTimers s;
     runtimeListeners := ls |}.

(** [this.runtimeListeners.add(listener)]: a [Set] keeps insertion order and
    ignores a member added again. *)
Definition subscribeRuntimeEvents (l : Listener) (s : State) : State :=
  if hasListener l (runtimeListeners s) then s
  else withListeners (runtimeListeners s ++ [l]) s.

(** The function [subscribeRuntimeEvents] returns. *)
Definition unsubscribe (l : Listener) (s : State) : State :=
  withListeners
    (filter (fun l' => negb (lid l' =? lid l)%nat) (runtimeListeners s)) s.

(** [listeners.forEach((listener) => listener(event))]. *)
Fixpoint forEachListener (ls : list Listener) (event : ProviderRuntimeEvent)
  : M unit :=
  match ls with
  | [] => ret tt
  | l :: rest =>
      log (Delivered (lid l) event) ;;
      settle (react l event) ;;
      forEachListener rest event
  end.

Definition emitRuntimeEvent (event : ProviderRuntimeEvent) : M unit :=
  log (Emitted event) ;;
  (fun s => forEachListener (runtimeListeners s) event s).

(** ** FallbackOrchestrator *)

(** [ProviderAdapter.complete], seen from [sendMessage]: given the merged
    conversation, how the request fares in the race against the deadline.
    What an adapter does with the token and tool callbacks stays inside it. *)
Definition Complete : Type := list Message -> Race string.

Record ProviderAdapter := {
  adapter_provider : AIProvider;
  complete : Complete
}.

(** [Map.prototype.set] and [Map.prototype.get] on the adapter registry. *)
Fixpoint mapSet (k : AIProvider) (v : ProviderAdapter)
  (m : list (AIProvider * ProviderAdapter)) : list (AIProvider * ProviderAdapter) :=
  match m with
  | [] => [(k, v)]
  | (k', v') :: rest =>
      if AIProvider_eqb k' k then (k, v) :: rest else (k', v') :: mapSet k v rest
  end.

Fixpoint mapGet (k : AIProvider) (m : list (AIProvider * ProviderAdapter))
  : option ProviderAdapter :=
  match m with
  | [] => None
  | (k', v) :: rest => if AIProvider_eqb k' k then Some v else mapGet k rest
  end.

(** The constructor of [AIService]: one adapter of each class is registered
    under its own [provider]. *)
Definition newAIService (geminiComplete openaiComplete anthropicComplete : Complete)
  : list (AIProvider * ProviderAdapter) :=
  fold_left
    (fun adapters adapter => mapSet (adapter_provider adapter) adapter adapters)
    [ {| adapter_provider := gemini; complete := geminiComplete |};
      {| adapter_provider := openai; complete := openaiComplete |};
      {| adapter_provider := anthropic; complete := anthropicComplete |} ]
    [].

Section SendMessage.

(** The type of the structured value. *)
Variable T : Type.

Record StructuredParser := {
  parse : string -> Completion T;
  validate : option (T -> Completion bool)
}.

Record SendMessageOptions := {
  option_provider : option AIProvider;
  systemPrompt : option string;
  timeoutMs : option N;
  enableFallback : option bool;
  onProviderSwitch : option (ProviderSwitchEvent -> Completion unit);
  onProviderEvent : option (string -> Completion unit);
  onProviderHealth : option (ProviderHealthEvent -> Completion unit);
  structured : option StructuredParser
}.

Record SendMessageResult := {
  text : string;
  result_provider : AIProvider;
  result_structured : option T;
  fallbackUsed : bool
}.

Variable adapters : list (AIProvider * ProviderAdapter).
Variable storage : Storage.
Variable messages : list Message.
Variable options : SendMessageOptions.

Definition selectedProvider : AIProvider :=
  match option_provider options with
  | Some p => p
  | None => defaultProvider (readPrefs storage)
  end.

Definition fallbackEnabled : bool :=
  match enableFallback options with
  | Some b => b
  | None => providerFallbackEnabled (readPrefs storage)
  end.

Definition effectiveTimeoutMs : N :=
  match timeoutMs options with
  | Some ms => ms
  | None => DEFAULT_TIMEOUT_MS
  end.

Definition mergedMessages : list Message :=
  if truthy (systemPrompt options) then
    match systemPrompt options with
    | Some prompt => {| role := system; content := prompt |} :: messages
    | None => messages
    end
  else messages.

Definition toTry : list AIProvider :=
  providersToTry (getConfiguredProviders storage) selectedProvider.

Definition switchReason (lastError : option ClassifiedError) : string :=
  match lastError with
  | Some e => reasonOf (classification e)
  | None => "provider"
  end.

(** The block under [if (i > 0)]. *)
Definition announceSwitch (previous p : AIProvider)
  (lastError : option ClassifiedError) : M unit :=
  let event :=
    {| from := previous; to := p; reason := switchReason lastError |} in
  log (ConsoleInfo event) ;;
  callOptional (onProviderSwitch options) OnProviderSwitch event ;;
  callOptional (onProviderEvent options) OnProviderEvent
    ("Switched from " ++ providerName previous ++ " to " ++ providerName p
       ++ " (" ++ reason event ++ ").") ;;
  emitRuntimeEvent (provider_switch event).

(** The part of the [try] block after the health has been reported. *)
Definition finishResult (i : nat) (p : AIProvider) (txt : string)
  : M SendMessageResult :=
  let result :=
    {| text := txt; result_provider := p; result_structured := None;
       fallbackUsed := (0 <? i)%nat |} in
  match structured options with
  | None => ret result
  | Some parser =>
      parsed <- settle (parse parser txt) ;;
      let filled :=
        {| text := txt; result_provider := p; result_structured := Some parsed;
           fallbackUsed := (0 <? i)%nat |} in
      match validate parser with
      | None => ret filled
      | Some check =>
          ok <- settle (check parsed) ;;
          if ok then ret filled
          else throw (PlainError "Structured output validation failed")
      end
  end.

(** The [try] block of one iteration. *)
Definition attempt (i : nat) (p : AIProvider) (adapter : ProviderAdapter)
  : M SendMessageResult :=
  log (Completing p mergedMessages) ;;
  txt <- withTimeout (complete adapter mergedMessages) effectiveTimeoutMs p ;;
  saveProviderHealth p healthy ;;
  callOptional (onProviderHealth options) OnProviderHealth
    {| hprovider := p; health := healthy; detail := None |} ;;
  emitRuntimeEvent
    (provider_health {| hprovider := p; health := healthy; detail := None |}) ;;
  finishResult i p txt.

Definition failureHealth (e : ClassifiedError) : Health :=
  if isAuth (classification e) then unconfigured else error.

(** The [catch] block up to the decision to fall back. *)
Definition recordFailure (p : AIProvider) (lastError : ClassifiedError)
  : M unit :=
  let h := failureHealth lastError in
  saveProviderHealth p h ;;
  callOptional (onProviderHealth options) OnProviderHealth
    {| hprovider := p; health := h; detail := message lastError |} ;;
  emitRuntimeEvent
    (provider_health
       {| hprovider := p; health := h; detail := message lastError |}).

(** The [for] loop from index [i] on, [rest] being the providers at the
    indices [i], [i + 1], ... of [all]. *)
Fixpoint attemptFrom (all : list AIProvider) (i : nat) (rest : list AIProvider)
  (lastError : option ClassifiedError) : M SendMessageResult :=
  match rest with
  | [] =>
      throw
        match lastError with
        | Some e => Classified e
        | None => PlainError "No providers available"
        end
  | p :: rest' =>
      match mapGet p adapters with
      | None => attemptFrom all (S i) rest' lastError
      | Some adapter =>
          (if (0 <? i)%nat
           then announceSwitch (nth (i - 1) all p) p lastError
           else ret tt) ;;
          tryCatch (attempt i p adapter)
            (fun caught =>
               let lastError' := classifyError p caught in
               recordFailure p lastError' ;;
               let canFallback :=
                 fallbackEnabled && (i <? List.length all - 1)%nat in
               if canFallback
               then attemptFrom all (S i) rest' (Some lastError')
               else throw (Classified lastError'))
      end
  end.

Definition sendMessage : M SendMessageResult :=
  attemptFrom toTry 0 toTry None.

End SendMessage.

Arguments sendMessage {T} adapters storage messages options.

(** ** Observations on a trace *)

(** The events handed to the runtime bus, in order. *)
Definition busEvents (tr : list Effect) : list ProviderRuntimeEvent :=
  flat_map (fun e => match e with Emitted ev => [ev] | _ => [] end) tr.

(** The events handed to [options.onProviderSwitch]. *)
Definition switchCalls (tr : list Effect) : list ProviderSwitchEvent :=
  flat_map (fun e => match e with OnProviderSwitch ev => [ev] | _ => [] end) tr.

(** The providers whose adapter was asked to complete the request. *)
Definition attempted (tr : list Effect) : list AIProvider :=
  flat_map (fun e => match e with Completing p _ => [p] | _ => [] end) tr.

Definition isSwitch (ev : ProviderRuntimeEvent) : bool :=
  match ev with provider_switch _ => true | provider_health _ => false end.

Definition isHealth (ev : ProviderRuntimeEvent) : bool :=
  match ev with provider_health _ => true | provider_switch _ => false end.

Definition countSwitch (evs : list ProviderRuntimeEvent) : nat :=
  List.length (filter isSwitch evs).

Definition countHealth (evs : list ProviderRuntimeEvent) : nat :=
  List.length (filter isHealth evs).

(** The listeners that received an event, in order of delivery. *)
Definition deliveredTo (tr : list Effect) : list nat :=
  flat_map (fun e => match e with Delivered l _ => [l] | _ => [] end) tr.

(** ** Observers that return *)

Definition quietCallback {E} (cb : option (E -> Completion unit)) : Prop :=
  match cb with
  | Some f => forall e, f e = Returns tt
  | None => True
  end.

Definition quietOptions {T} (options : SendMessageOptions T) : Prop :=
  quietCallback (onProviderSwitch options) /\
  quietCallback (onProviderEvent options) /\
  quietCallback (onProviderHealth options).

Definition quietListeners (ls : list Listener) : Prop :=
  Forall (fun l => forall ev, react l ev = Returns tt) ls.

(** What a call leaves in the trace when every observer returns. *)
Definition deliveries (ls : list Listener) (ev : ProviderRuntimeEvent)
  : list Effect :=
  map (fun l => Delivered (lid l) ev) ls.

Definition emitEffects (ls : list Listener) (ev : ProviderRuntimeEvent)
  : list Effect :=
  Emitted ev :: deliveries ls ev.

Definition callEffects {E} (cb : option (E -> Completion unit))
  (shown : E -> Effect) (e : E) : list Effect :=
  match cb with
  | Some _ => [shown e]
  | None => []
  end.

(** [steps c s out new]: from [s] the computation [c] ends with [out], adds
    exactly [new] to the trace and leaves the listener set as it was. *)
Definition steps {A} (c : M A) (s : State) (out : Completion A)
  (new : list Effect) : Prop :=
  exists s',
    c s = (out, s') /\
    trace s' = (trace s ++ new)%list /\
    runtimeListeners s' = runtimeListeners s.

(** The outcome of the race as [withTimeout] reports it. *)
Definition raceOutcome {A} (promise : Race A) (timeoutMs : N) (p : AIProvider)
  : Completion A :=
  match promise with
  | OperationSettles c => c
  | DeadlineFires => Throws (Classified (timeoutError p timeoutMs))
  end.

(** What the structured step of the [try] block makes of a text: the parsed
    value (none when no parser is given), or what is thrown. *)
Definition structuredOutcome {T} (options : SendMessageOptions T) (txt : string)
  : Completion (option T) :=
  match structured options with
  | None => Returns None
  | Some parser =>
      match parse parser txt with
      | Throws e => Throws e
      | Returns parsed =>
          match validate parser with
          | None => Returns (Some parsed)
          | Some check =>
              match check parsed with
              | Throws e => Throws e
              | Returns true => Returns (Some parsed)
              | Returns false =>
                  Throws (PlainError "Structured output validation failed")
              end
          end
      end
  end.

(** The adapter the service holds for a provider. *)
Definition completeOf (geminiComplete openaiComplete anthropicComplete : Complete)
  (p : AIProvider) : Complete :=
  match p with
  | gemini => geminiComplete
  | openai => openaiComplete
  | anthropic => anthropicComplete
  end.

Definition failureEvent (p : AIProvider) (e : ClassifiedError)
  : ProviderRuntimeEvent :=
  provider_health
    {| hprovider := p; health := failureHealth e; detail := message e |}.

Definition healthyEvent (p : AIProvider) : ProviderRuntimeEvent :=
  provider_health {| hprovider := p; health := healthy; detail := None |}.

Definition switchEvent (previous p : AIProvider)
  (lastError : option ClassifiedError) : ProviderSwitchEvent :=
  {| from := previous; to := p; reason := switchReason lastError |}.

(** The bus events of a run in which the request of every provider of [rest]
    (the providers at the indices [i], [i + 1], ... of [all]) is rejected,
    the one of [p] with [err p]. *)
Fixpoint failTrail (err : AIProvider -> Thrown) (all : list AIProvider) (i : nat)
  (rest : list AIProvider) (lastError : option ClassifiedError)
  : list ProviderRuntimeEvent :=
  match rest with
  | [] => []
  | p :: rest' =>
      (if (0 <? i)%nat
       then [provider_switch (switchEvent (nth (i - 1) all p) p lastError)]
       else [])
      ++ failureEvent p (classifyError p (err p))
      :: failTrail err all (S i) rest' (Some (classifyError p (err p)))
  end.

Definition initialState (ls : list Listener) : State :=
  {| trace := [];
     nextTimer := 0;
     pendingTimers := [];
     runtimeListeners := ls |}.

(** What the [try] block of one iteration comes to when every observer
    returns: the text and the structured value, or what is thrown. *)
Definition tryOutcome {T} (options : SendMessageOptions T) (promise : Race string)
  (ms : N) (p : AIProvider) : Completion (string * option T) :=
  match raceOutcome promise ms p with
  | Throws e => Throws e
  | Returns txt =>
      match structuredOutcome options txt with
      | Throws e => Throws e
      | Returns v => Returns (txt, v)
      end
  end.

(** The effects of the three blocks of an iteration when every observer
    returns, [ls] being the listeners subscribed. *)
Definition switchEffects {T} (options : SendMessageOptions T) (ls : list Listener)
  (previous p : AIProvider) (lastError : option ClassifiedError) : list Effect :=
  let event := switchEvent previous p lastError in
  ConsoleInfo event
  :: callEffects (onProviderSwitch options) OnProviderSwitch event
  ++ callEffects (onProviderEvent options) OnProviderEvent
       ("Switched from " ++ providerName previous ++ " to " ++ providerName p
          ++ " (" ++ reason event ++ ").")%string
  ++ emitEffects ls (provider_switch event).

Definition failureEffects {T} (options : SendMessageOptions T)
  (ls : list Listener) (p : AIProvider) (e : ClassifiedError) : list Effect :=
  SavedHealth p (failureHealth e)
  :: callEffects (onProviderHealth options) OnProviderHealth
       {| hprovider := p; health := failureHealth e; detail := message e |}
  ++ emitEffects ls (failureEvent p e).

Definition healthyEffects {T} (options : SendMessageOptions T)
  (ls : list Listener) (p : AIProvider) : list Effect :=
  SavedHealth p healthy
  :: callEffects (onProviderHealth options) OnProviderHealth
       {| hprovider := p; health := healthy; detail := None |}
  ++ emitEffects ls (healthyEvent p).

(** The announcement that opens the iteration at index [i]. *)
Definition openingEffects {T} (options : SendMessageOptions T)
  (ls : list Listener) (all : list AIProvider) (i : nat) (p : AIProvider)
  (lastError : option ClassifiedError) : list Effect :=
  if (0 <? i)%nat
  then switchEffects options ls (nth (i - 1) all p) p lastError
  else [].

(** An effect that asks no provider outside [X] to complete a request. *)
Definition touches (X : list AIProvider) (e : Effect) : Prop :=
  match e with
  | Completing q _ => In q X
  | _ => True
  end.

(** [confined X c]: whatever the observers do, [c] only adds to the trace,
    and asks no provider outside [X]. *)
Definition confined {A} (X : list AIProvider) (c : M A) : Prop :=
  forall s, exists new,
    trace (snd (c s)) = (trace s ++ new)%list /\ Forall (touches X) new.

(** [beginsWith e X c]: the first thing [c] adds to the trace is [e], and
    after it [c] stays confined to [X]. *)
Definition beginsWith {A} (e : Effect) (X : list AIProvider) (c : M A) : Prop :=
  forall s, exists more,
    trace (snd (c s)) = (trace s ++ e :: more)%list /\ Forall (touches X) more.

(** ** Sample collaborators *)

Module Sample.

(** A listener that throws and one that returns. *)
Definition thrower : Listener :=
  {| lid := 1; react := fun _ => Throws (PlainError "listener failed") |}.

Definition recorder : Listener :=
  {| lid := 2; react := fun _ => Returns tt |}.

(** Keys for every provider, for openai and anthropic only, for gemini
    and anthropic only. *)
Definition keysFor (configured : list AIProvider) : Storage :=
  {| readPrefs := {| defaultProvider := gemini; providerFallbackEnabled := true |};
     readSecrets :=
       {| providerKeys :=
            fun p => if arrayIncludes configured p then Some "sk-test" else None;
          githubToken := None |};
     GEMINI_API_KEY := None |}.

Definition allKeys : Storage := keysFor [gemini; openai; anthropic].

(** Options that select a provider and set the fallback flag, with
    callbacks that return. *)
Definition select (p : AIProvider) (fallback : bool) : SendMessageOptions string :=
  {| option_provider := Some p;
     systemPrompt := None;
     timeoutMs := None;
     enableFallback := Some fallback;
     onProviderSwitch := Some (fun _ => Returns tt);
     onProviderEvent := None;
     onProviderHealth := Some (fun _ => Returns tt);
     structured := None |}.

Definition rejects (msg : string) : Complete :=
  fun _ => OperationSettles (Throws (PlainError msg)).

Definition answers (txt : string) : Complete :=
  fun _ => OperationSettles (Returns txt).

Definition hangs : Complete := fun _ => DeadlineFires.

Definition hello : list Message := [{| role := user; content := "hello" |}].

Definition listening : State :=
  subscribeRuntimeEvents recorder (initialState []).

(** Options with a structured step: the length of the text, accepted when
    it exceeds three. *)
Definition measured : SendMessageOptions nat :=
  {| option_provider := Some gemini;
     systemPrompt := None;
     timeoutMs := None;
     enableFallback := Some true;
     onProviderSwitch := None;
     onProviderEvent := None;
     onProviderHealth := None;
     structured :=
       Some {| parse := fun txt => Returns (String.length txt);
               validate := Some (fun n => Returns (3 <? n)%nat) |} |}.

(** A state in which a timer of some other call is pending. *)
Definition waiting : State :=
  {| trace := [];
     nextTimer := 1;
     pendingTimers := [0];
     runtimeListeners := [recorder] |}.

(** Three failures that read as network trouble. *)
Definition networkDown (p : AIProvider) : string :=
  match p with
  | gemini => "Network unreachable"
  | openai => "Failed to fetch"
  | anthropic => "network error"
  end.

(** A call in which every provider is out of reach, and one in which the
    second provider tried answers after the first has refused the key. *)
Definition outage : M (SendMessageResult string) :=
  sendMessage
    (newAIService (rejects (networkDown gemini)) (rejects (networkDown openai))
       (rejects (networkDown anthropic)))
    allKeys hello (select gemini true).

Definition recovery : M (SendMessageResult string) :=
  sendMessage
    (newAIService (answers "from gemini") (rejects "HTTP 401 unauthorized")
       (answers "from anthropic"))
    (keysFor [openai; anthropic]) hello (select openai true).

End Sample.

(** ** What a call may do to the process *)

(** [respects R c]: the state [c] ends in is related by [R] to the state it
    starts from, whatever [c] returns or throws. *)
Definition respects {A} (R : State -> State -> Prop) (c : M A) : Prop :=
  forall s, R s (snd (c s)).

(** An effect a call on behalf of the providers [X] and with the conversation
    [conversation] may leave: requests go to providers of [X] with that
    conversation, health is saved for providers of [X] and is never
    [degraded], and events are delivered to subscribed listeners only. *)
Definition sound (X : list AIProvider) (conversation : list Message)
  (ls : list Listener) (e : Effect) : Prop :=
  match e with
  | Completing q m => In q X /\ m = conversation
  | SavedHealth q h => In q X /\ h <> degraded
  | Delivered l _ => In l (map lid ls)
  | _ => True
  end.

(** From [s] to [s']: the listener set is the same, the trace has grown by
    sound effects, and the only timers touched are timers set in between,
    none of which is left pending. *)
Definition orderly (X : list AIProvider) (conversation : list Message)
  (s s' : State) : Prop :=
  runtimeListeners s' = runtimeListeners s
  /\ (exists new,
        trace s' = (trace s ++ new)%list
        /\ Forall (sound X conversation (runtimeListeners s)) new)
  /\ nextTimer s <= nextTimer s'
  /\ (forall t, In t (pendingTimers s') -> In t (pendingTimers s))
  /\ (Forall (fun t => t < nextTimer s) (pendingTimers s) ->
      pendingTimers s' = pendingTimers s).

(** The health writes of a trace, in order. *)
Definition savedHealth (tr : list Effect) : list (AIProvider * Health) :=
  flat_map (fun e => match e with SavedHealth p h => [(p, h)] | _ => [] end) tr.

(** From [s] to [s'] the trace has grown by effects that satisfy [P]. *)
Definition grows (P : Effect -> Prop) (s s' : State) : Prop :=
  exists new, trace s' = (trace s ++ new)%list /\ Forall P new.

(** An effect that is neither a request to a provider nor part of the
    announcement of a switch. *)
Definition calm (e : Effect) : Prop :=
  match e with
  | Completing _ _ | ConsoleInfo _ | OnProviderSwitch _ | OnProviderEvent _
  | Emitted (provider_switch _) => False
  | _ => True
  end.

(** ** A call whose observers return, read as a function *)

(** The effects of the [try] block of an attempt whose request came to
    [req], up to the structured step. *)
Definition triedEffects {T} (options : SendMessageOptions T)
  (ls : list Listener) (conversation : list Message) (p : AIProvider)
  (req : Completion string) : list Effect :=
  Completing p conversation
  :: match req with
     | Returns _ => healthyEffects options ls p
     | Throws _ => []
     end.

(** What the loop comes to from index [i] on, and the effects it leaves,
    when the callbacks and the listeners [ls] return. *)
Fixpoint runFrom {T}
  (geminiComplete openaiComplete anthropicComplete : Complete)
  (storage : Storage) (messages : list Message) (options : SendMessageOptions T)
  (ls : list Listener) (all : list AIProvider) (i : nat)
  (rest : list AIProvider) (lastError : option ClassifiedError)
  : Completion (SendMessageResult T) * list Effect :=
  match rest with
  | [] =>
      (Throws
         match lastError with
         | Some e => Classified e
         | None => PlainError "No providers available"
         end,
       [])
  | p :: rest' =>
      let conversation := mergedMessages messages options in
      let promise :=
        completeOf geminiComplete openaiComplete anthropicComplete p conversation in
      let ms := effectiveTimeoutMs options in
      let opening := openingEffects options ls all i p lastError in
      let tried :=
        triedEffects options ls conversation p (raceOutcome promise ms p) in
      match tryOutcome options promise ms p with
      | Returns (txt, v) =>
          (Returns
             {| text := txt; result_provider := p; result_structured := v;
                fallbackUsed := (0 <? i)%nat |},
           (opening ++ tried)%list)
      | Throws caught =>
          let e := classifyError p caught in
          if fallbackEnabled storage options && (i <? List.length all - 1)%nat
          then
            let next :=
              runFrom geminiComplete openaiComplete anthropicComplete storage
                messages options ls all (S i) rest' (Some e) in
            (fst next,
             (opening ++ (tried ++ failureEffects options ls p e ++ snd next))%list)
          else
            (Throws (Classified e),
             (opening ++ (tried ++ failureEffects options ls p e ++ []))%list)
      end
  end.

(** The switch events among the events of the bus. *)
Definition busSwitches (evs : list ProviderRuntimeEvent)
  : list ProviderSwitchEvent :=
  flat_map (fun ev => match ev with provider_switch e => [e] | _ => [] end) evs.

(** The health events handed to [options.onProviderHealth], and the ones
    among the events of the bus. *)
Definition healthCalls (tr : list Effect) : list ProviderHealthEvent :=
  flat_map (fun e => match e with OnProviderHealth ev => [ev] | _ => [] end) tr.

Definition busHealths (evs : list ProviderRuntimeEvent)
  : list ProviderHealthEvent :=
  flat_map (fun ev => match ev with provider_health e => [e] | _ => [] end) evs.

(** The callbacks of the options, when given, have received what the bus
    has received. *)
Definition mirrored {T} (options : SendMessageOptions T) (new : list Effect)
  : Prop :=
  switchCalls new
  = match onProviderSwitch options with
    | Some _ => busSwitches (busEvents new)
    | None => []
    end
  /\ healthCalls new
     = match onProviderHealth options with
       | Some _ => busHealths (busEvents new)
       | None => []
       end.

(** The store as a call reads it. *)
Definition snapshot (selected : AIProvider) (fallback : bool)
  (secrets : SecretPayload) (envKey : option string) : Storage :=
  {| readPrefs :=
       {| defaultProvider := selected; providerFallbackEnabled := fallback |};
     readSecrets := secrets;
     GEMINI_API_KEY := envKey |}.

(** ** The preference and secret store in full (storage.ts) *)

Module Store.

(** What [getItem] followed by [safeJsonParse] finds under a key: nothing
    (no item, or an empty string), a text that [JSON.parse] rejects, or a
    parsed value. A value written with [JSON.stringify] is read back as it
    was written. *)
Inductive Item (A : Type) :=
| Absent
| Garbled
| Holding (a : A).

Arguments Absent {A}.
Arguments Garbled {A}.
Arguments Holding {A} a.

(** [safeJsonParse(value, fallback)]. *)
Definition safeJsonParse {A} (value : Item A) (fallback : A) : A :=
  match value with
  | Holding a => a
  | Absent | Garbled => fallback
  end.

(** The three bullets of a masked secret, in the encoding of this file. *)
Definition BULLETS : string := "•••".

(** [value.slice(-4)]. *)
Definition lastFour (value : string) : string :=
  substring (String.length value - 4) 4 value.

Definition maskSecret (value : string) (prefix : string) : string :=
  match value with
  | "" => ""
  | _ =>
      if (String.length value <=? 6)%nat then prefix ++ BULLETS
      else prefix ++ BULLETS ++ lastFour value
  end.

Definition providerMaskPrefix (p : AIProvider) : string :=
  match p with
  | gemini => "GEM"
  | openai => "OAI"
  | anthropic => "ANT"
  end.

Section WithAccount.

(** [GithubAccount] is declared outside the sources at hand. *)
Variable GithubAccount : Type.

Record OnboardingVerificationStep := {
  verified : bool;
  verifiedAt : option string;
  error : option string
}.

Record OnboardingStatus := {
  providerValidation : OnboardingVerificationStep;
  githubConnection : OnboardingVerificationStep;
  githubTokenVerification : OnboardingVerificationStep;
  secureStorageConsent : OnboardingVerificationStep;
  localBuildsEnabled : bool;
  sdkPathVerification : OnboardingVerificationStep;
  fullyValidated : bool;
  updatedAt : option string
}.

(** [StoragePreferences] with all its fields. *)
Record StoragePreferences := {
  defaultProvider : AIProvider;
  onboardingComplete : bool;
  onboardingStatus : OnboardingStatus;
  providerFallbackEnabled : bool;
  prDraftingEnabled : bool;
  ciPollingEnabled : bool;
  localBuildMode : bool;
  cloudFallbackEnabled : bool;
  safeMode : bool;
  biometricProtectionEnabled : bool;
  githubAccount : option GithubAccount
}.

(** An onboarding status as it may be stored: any field may be missing. *)
Record StoredOnboardingStatus := {
  stored_providerValidation : option OnboardingVerificationStep;
  stored_githubConnection : option OnboardingVerificationStep;
  stored_githubTokenVerification : option OnboardingVerificationStep;
  stored_secureStorageConsent : option OnboardingVerificationStep;
  stored_localBuildsEnabled : option bool;
  stored_sdkPathVerification : option OnboardingVerificationStep;
  stored_fullyValidated : option bool;
  stored_updatedAt : option string
}.

(** The preferences as [JSON.parse] gives them: any field may be missing or
    null, and the legacy key [fallbackEnabled] may be there. *)
Record StoredPreferences := {
  stored_defaultProvider : option AIProvider;
  stored_onboardingComplete : option bool;
  stored_onboardingStatus : option StoredOnboardingStatus;
  stored_providerFallbackEnabled : option bool;
  stored_fallbackEnabled : option bool;
  stored_prDraftingEnabled : option bool;
  stored_ciPollingEnabled : option bool;
  stored_localBuildMode : option bool;
  stored_cloudFallbackEnabled : option bool;
  stored_safeMode : option bool;
  stored_biometricProtectionEnabled : option bool;
  stored_githubAccount : option GithubAccount
}.

(** [Partial<StoragePreferences>] as an argument: the fields given, each
    with a value (for [githubAccount] the value may be null). *)
Record PreferenceUpdates := {
  set_defaultProvider : option AIProvider;
  set_onboardingComplete : option bool;
  set_onboardingStatus : option OnboardingStatus;
  set_providerFallbackEnabled : option bool;
  set_prDraftingEnabled : option bool;
  set_ciPollingEnabled : option bool;
  set_localBuildMode : option bool;
  set_cloudFallbackEnabled : option bool;
  set_safeMode : option bool;
  set_biometricProtectionEnabled : option bool;
  set_githubAccount : option (option GithubAccount)
}.

(** The secrets as [JSON.parse] gives them. *)
Record StoredSecrets := {
  stored_providerKeys : option (AIProvider -> option string);
  stored_githubToken : option string
}.

(** The part of the browser the store lives in: whether there is a
    [window], the item of the preferences in [localStorage], the session
    storage (when the window has one) with the item of the secrets, the
    environment key of Gemini, the details of the preference events
    dispatched on the window, and the reloads asked for. Handlers of the
    preference event are taken not to write the store. *)
Record Browser := {
  hasWindow : bool;
  localPrefs : Item StoredPreferences;
  sessionStore : option (Item StoredSecrets);
  envGeminiKey : option string;
  dispatched : list StoragePreferences;
  reloads : nat
}.

Definition unverified : OnboardingVerificationStep :=
  {| verified := false; verifiedAt := None; error := None |}.

Definition DEFAULT_PREFS : StoragePreferences :=
  {| defaultProvider := gemini;
     onboardingComplete := false;
     onboardingStatus :=
       {| providerValidation := unverified;
          githubConnection := unverified;
          githubTokenVerification := unverified;
          secureStorageConsent := unverified;
          localBuildsEnabled := false;
          sdkPathVerification := unverified;
          fullyValidated := false;
          updatedAt := None |};
     providerFallbackEnabled := true;
     prDraftingEnabled := true;
     ciPollingEnabled := true;
     localBuildMode := false;
     cloudFallbackEnabled := true;
     safeMode := true;
     biometricProtectionEnabled := false;
     githubAccount := None |}.

(** How [JSON.stringify] and [JSON.parse] carry full preferences. *)
Definition storedStatus (o : OnboardingStatus) : StoredOnboardingStatus :=
  {| stored_providerValidation := Some (providerValidation o);
     stored_githubConnection := Some (githubConnection o);
     stored_githubTokenVerification := Some (githubTokenVerification o);
     stored_secureStorageConsent := Some (secureStorageConsent o);
     stored_localBuildsEnabled := Some (localBuildsEnabled o);
     stored_sdkPathVerification := Some (sdkPathVerification o);
     stored_fullyValidated := Some (fullyValidated o);
     stored_updatedAt := updatedAt o |}.

Definition storedPrefs (prefs : StoragePreferences) : StoredPreferences :=
  {| stored_defaultProvider := Some (defaultProvider prefs);
     stored_onboardingComplete := Some (onboardingComplete prefs);
     stored_onboardingStatus := Some (storedStatus (onboardingStatus prefs));
     stored_providerFallbackEnabled := Some (providerFallbackEnabled prefs);
     stored_fallbackEnabled := None;
     stored_prDraftingEnabled := Some (prDraftingEnabled prefs);
     stored_ciPollingEnabled := Some (ciPollingEnabled prefs);
     stored_localBuildMode := Some (localBuildMode prefs);
     stored_cloudFallbackEnabled := Some (cloudFallbackEnabled prefs);
     stored_safeMode := Some (safeMode prefs);
     stored_biometricProtectionEnabled := Some (biometricProtectionEnabled prefs);
     stored_githubAccount := githubAccount prefs |}.

(** [a ?? b]. *)
Definition orElse {A} (a : option A) (b : A) : A :=
  match a with
  | Some x => x
  | None => b
  end.

(** [{ ...DEFAULT_PREFS.onboardingStatus, ...parsed.onboardingStatus }]. *)
Definition spreadStatus (parsed : option StoredOnboardingStatus)
  : OnboardingStatus :=
  let d := onboardingStatus DEFAULT_PREFS in
  match parsed with
  | None => d
  | Some o =>
      {| providerValidation := orElse (stored_providerValidation o) (providerValidation d);
         githubConnection := orElse (stored_githubConnection o) (githubConnection d);
         githubTokenVerification :=
           orElse (stored_githubTokenVerification o) (githubTokenVerification d);
         secureStorageConsent :=
           orElse (stored_secureStorageConsent o) (secureStorageConsent d);
         localBuildsEnabled := orElse (stored_localBuildsEnabled o) (localBuildsEnabled d);
         sdkPathVerification :=
           orElse (stored_sdkPathVerification o) (sdkPathVerification d);
         fullyValidated := orElse (stored_fullyValidated o) (fullyValidated d);
         updatedAt :=
           match stored_updatedAt o with
           | Some t => Some t
           | None => updatedAt d
           end |}
  end.

Definition readPrefs (b : Browser) : StoragePreferences :=
  if hasWindow b then
    let parsed := safeJsonParse (localPrefs b) (storedPrefs DEFAULT_PREFS) in
    {| defaultProvider :=
         orElse (stored_defaultProvider parsed) (defaultProvider DEFAULT_PREFS);
       onboardingComplete :=
         orElse (stored_onboardingComplete parsed) (onboardingComplete DEFAULT_PREFS);
       onboardingStatus := spreadStatus (stored_onboardingStatus parsed);
       providerFallbackEnabled :=
         orElse (stored_providerFallbackEnabled parsed)
           (orElse (stored_fallbackEnabled parsed)
              (providerFallbackEnabled DEFAULT_PREFS));
       prDraftingEnabled :=
         orElse (stored_prDraftingEnabled parsed) (prDraftingEnabled DEFAULT_PREFS);
       ciPollingEnabled :=
         orElse (stored_ciPollingEnabled parsed) (ciPollingEnabled DEFAULT_PREFS);
       localBuildMode :=
         orElse (stored_localBuildMode parsed) (localBuildMode DEFAULT_PREFS);
       cloudFallbackEnabled :=
         orElse (stored_cloudFallbackEnabled parsed)
           (cloudFallbackEnabled DEFAULT_PREFS);
       safeMode := orElse (stored_safeMode parsed) (safeMode DEFAULT_PREFS);
       biometricProtectionEnabled :=
         orElse (stored_biometricProtectionEnabled parsed)
           (biometricProtectionEnabled DEFAULT_PREFS);
       githubAccount :=
         match stored_githubAccount parsed with
         | Some a => Some a
         | None => githubAccount DEFAULT_PREFS
         end |}
  else DEFAULT_PREFS.

(** [{ ...prefs, ...updates }]. *)
Definition spreadUpdates (prefs : StoragePreferences) (updates : PreferenceUpdates)
  : StoragePreferences :=
  {| defaultProvider := orElse (set_defaultProvider updates) (defaultProvider prefs);
     onboardingComplete :=
       orElse (set_onboardingComplete updates) (onboardingComplete prefs);
     onboardingStatus := orElse (set_onboardingStatus updates) (onboardingStatus prefs);
     providerFallbackEnabled :=
       orElse (set_providerFallbackEnabled updates) (providerFallbackEnabled prefs);
     prDraftingEnabled := orElse (set_prDraftingEnabled updates) (prDraftingEnabled prefs);
     ciPollingEnabled := orElse (set_ciPollingEnabled updates) (ciPollingEnabled prefs);
     localBuildMode := orElse (set_localBuildMode updates) (localBuildMode prefs);
     cloudFallbackEnabled :=
       orElse (set_cloudFallbackEnabled updates) (cloudFallbackEnabled prefs);
     safeMode := orElse (set_safeMode updates) (safeMode prefs);
     biometricProtectionEnabled :=
       orElse (set_biometricProtectionEnabled updates)
         (biometricProtectionEnabled prefs);
     githubAccount := orElse (set_githubAccount updates) (githubAccount prefs) |}.

Definition withLocalPrefs (item : Item StoredPreferences) (b : Browser) : Browser :=
  {| hasWindow := hasWindow b;
     localPrefs := item;
     sessionStore := sessionStore b;
     envGeminiKey := envGeminiKey b;
     dispatched := dispatched b;
     reloads := reloads b |}.

Definition withSessionStore (store : option (Item StoredSecrets)) (b : Browser)
  : Browser :=
  {| hasWindow := hasWindow b;
     localPrefs := localPrefs b;
     sessionStore := store;
     envGeminiKey := envGeminiKey b;
     dispatched := dispatched b;
     reloads := reloads b |}.

(** [window.dispatchEvent(new CustomEvent(PREFS_CHANGED_EVENT, { detail }))]. *)
Definition dispatchPrefsChanged (detail : StoragePreferences) (b : Browser)
  : Browser :=
  {| hasWindow := hasWindow b;
     localPrefs := localPrefs b;
     sessionStore := sessionStore b;
     envGeminiKey := envGeminiKey b;
     dispatched := dispatched b ++ [detail];
     reloads := reloads b |}.

Definition savePrefs (updates : PreferenceUpdates) (b : Browser)
  : StoragePreferences * Browser :=
  if hasWindow b then
    let next := spreadUpdates (readPrefs b) updates in
    (next, dispatchPrefsChanged next (withLocalPrefs (Holding (storedPrefs next)) b))
  else (DEFAULT_PREFS, b).

Definition pickSecretStorage (b : Browser) : option (Item StoredSecrets) :=
  if hasWindow b then sessionStore b else None.

(** The empty object [{}] as a table of keys. *)
Definition noKeys : AIProvider -> option string := fun _ => None.

Definition readSecrets (b : Browser) : SecretPayload :=
  match pickSecretStorage b with
  | None => {| providerKeys := noKeys; githubToken := None |}
  | Some item =>
      let parsed :=
        safeJsonParse item
          {| stored_providerKeys := Some noKeys; stored_githubToken := None |} in
      {| providerKeys := orElse (stored_providerKeys parsed) noKeys;
         githubToken := stored_githubToken parsed |}
  end.

Definition writeSecrets (next : SecretPayload) (b : Browser) : Browser :=
  match pickSecretStorage b with
  | None => b
  | Some _ =>
      withSessionStore
        (Some
           (Holding
              {| stored_providerKeys := Some (providerKeys next);
                 stored_githubToken := githubToken next |}))
        b
  end.

Record ProviderView := { configured : bool; masked : string }.

Record GithubView := {
  github_configured : bool;
  github_masked : string;
  account : option GithubAccount
}.

(** [Credentials]: the preferences spread into the view, then the entry of
    each provider and the one of GitHub. *)
Record Credentials := {
  prefs : StoragePreferences;
  providers : AIProvider -> ProviderView;
  github : GithubView
}.

Definition buildCredentialsView (b : Browser) : Credentials :=
  let prefs := readPrefs b in
  let secrets := readSecrets b in
  {| prefs := prefs;
     providers :=
       fun p =>
         {| configured := truthy (providerKeys secrets p);
            masked :=
              match providerKeys secrets p with
              | Some (String c rest) =>
                  maskSecret (String c rest) (providerMaskPrefix p)
              | _ => "Not configured"
              end |};
     github :=
       {| github_configured := truthy (githubToken secrets);
          github_masked :=
            match githubToken secrets with
            | Some (String c rest) => maskSecret (String c rest) "GH"
            | _ => "Not connected"
            end;
          account := githubAccount prefs |} |}.

(** *** The exported [storage] object *)

Definition getCredentials (b : Browser) : Credentials := buildCredentialsView b.

Definition getPreferences (b : Browser) : StoragePreferences := readPrefs b.

Definition savePreferences (updates : PreferenceUpdates) (b : Browser)
  : Credentials * Browser :=
  let b' := snd (savePrefs updates b) in
  (buildCredentialsView b', b').

Definition saveProviderApiKey (p : AIProvider) (key : string) (b : Browser)
  : Credentials * Browser :=
  let current := readSecrets b in
  let b' :=
    writeSecrets
      {| providerKeys :=
           fun q => if AIProvider_eqb q p then Some key else providerKeys current q;
         githubToken := githubToken current |}
      b in
  (buildCredentialsView b', b').

Definition removeProviderApiKey (p : AIProvider) (b : Browser)
  : Credentials * Browser :=
  let current := readSecrets b in
  let nextProviderKeys :=
    fun q => if AIProvider_eqb q p then None else providerKeys current q in
  let b' :=
    writeSecrets
      {| providerKeys := nextProviderKeys; githubToken := githubToken current |}
      b in
  (buildCredentialsView b', b').

Definition saveGithubToken (token : string) (b : Browser) : Credentials * Browser :=
  let current := readSecrets b in
  let b' :=
    writeSecrets
      {| providerKeys := providerKeys current; githubToken := Some token |} b in
  (buildCredentialsView b', b').

(** [{ githubAccount: value }]. *)
Definition githubAccountUpdate (value : option GithubAccount) : PreferenceUpdates :=
  {| set_defaultProvider := None;
     set_onboardingComplete := None;
     set_onboardingStatus := None;
     set_providerFallbackEnabled := None;
     set_prDraftingEnabled := None;
     set_ciPollingEnabled := None;
     set_localBuildMode := None;
     set_cloudFallbackEnabled := None;
     set_safeMode := None;
     set_biometricProtectionEnabled := None;
     set_githubAccount := Some value |}.

Definition saveGithubOAuth (token : string) (acct : GithubAccount) (b : Browser)
  : Credentials * Browser :=
  let current := readSecrets b in
  let b1 :=
    writeSecrets
      {| providerKeys := providerKeys current; githubToken := Some token |} b in
  let b2 := snd (savePrefs (githubAccountUpdate (Some acct)) b1) in
  (buildCredentialsView b2, b2).

Definition removeGithubToken (b : Browser) : Credentials * Browser :=
  let current := readSecrets b in
  let b1 :=
    writeSecrets {| providerKeys := providerKeys current; githubToken := None |} b in
  let b2 := snd (savePrefs (githubAccountUpdate None) b1) in
  (buildCredentialsView b2, b2).

Definition withGithubToken {A} (b : Browser) (fn : string -> Completion A)
  : Completion A :=
  match githubToken (readSecrets b) with
  | Some (String c rest) => fn (String c rest)
  | _ => Throws (PlainError "GitHub OAuth token missing")
  end.

Definition clearCredentials (b : Browser) : Browser :=
  if hasWindow b then
    {| hasWindow := hasWindow b;
       localPrefs := Absent;
       sessionStore :=
         match pickSecretStorage b with
         | Some _ => Some Absent
         | None => sessionStore b
         end;
       envGeminiKey := envGeminiKey b;
       dispatched := dispatched b;
       reloads := S (reloads b) |}
  else b.

(** What [sendMessage] and the adapters read of the store: the two
    preferences, the secrets and the environment key. *)
Definition storageOf (b : Browser) : Storage :=
  snapshot (defaultProvider (readPrefs b)) (providerFallbackEnabled (readPrefs b))
    (readSecrets b) (envGeminiKey b).

End WithAccount.

End Store.

(** ** The provider adapters (ai.ts) *)

Inductive ToolArgs :=
| QueryArgs (query : string)
| MessagesArgs (messages : nat).

Record ToolInvocationEvent := {
  tool_provider : AIProvider;
  tool_name : string;
  tool_args : ToolArgs
}.

(** The request [generateContent] of the Gemini SDK is given. *)
Record GeminiContent := { content_role : string; parts : list string }.

Record GenerateRequest := { model : string; contents : list GeminiContent }.

(** What an adapter does that can be seen from outside it, in order: a
    request to the Gemini SDK, a call of [options.onToken], a call of
    [options.onToolInvocation]. *)
Inductive AdapterCall :=
| GenerateContent (apiKey : string) (request : GenerateRequest)
| OnToken (token : string)
| OnToolInvocation (e : ToolInvocationEvent).

(** The two callbacks of [SendMessageOptions] the adapters use. *)
Record AdapterOptions := {
  onToken : option (string -> Completion unit);
  onToolInvocation : option (ToolInvocationEvent -> Completion unit)
}.

(** An adapter at work: the calls it makes, and how its promise fares. *)
Definition Calls (A : Type) : Type := list AdapterCall * Race A.

Definition resolved {A} (a : A) : Calls A := ([], OperationSettles (Returns a)).

Definition rejected {A} (e : Thrown) : Calls A := ([], OperationSettles (Throws e)).

Definition andThen {A B} (c : Calls A) (k : A -> Calls B) : Calls B :=
  match c with
  | (calls, OperationSettles (Returns a)) =>
      let (more, r) := k a in ((calls ++ more)%list, r)
  | (calls, OperationSettles (Throws e)) => (calls, OperationSettles (Throws e))
  | (calls, DeadlineFires) => (calls, DeadlineFires)
  end.

(** [cb?.(e)] inside an adapter. *)
Definition callback {E} (cb : option (E -> Completion unit))
  (shown : E -> AdapterCall) (e : E) : Calls unit :=
  match cb with
  | None => resolved tt
  | Some f => ([shown e], OperationSettles (f e))
  end.

(** [storage.withProviderApiKey(provider, fn)] for an [fn] that makes calls. *)
Definition withStoredKey {A} (storage : Storage) (p : AIProvider)
  (fn : string -> Calls A) : Calls A :=
  match withProviderApiKey storage p Returns with
  | Returns key => fn key
  | Throws e => rejected e
  end.

(** [\s] on the code units below 256. *)
Definition isSpace (c : ascii) : bool :=
  let n := nat_of_ascii c in
  ((9 <=? n) && (n <=? 13) || (n =? 32) || (n =? 160))%nat.

(** [text.split(/(\s+)/)], read from the left: [current] is the piece being
    read and [inSpace] tells whether it is a separator. The pieces alternate
    between text and separator, and the first and the last one are text. *)
Fixpoint splitFrom (inSpace : bool) (current : string) (s : string)
  : list string :=
  match s with
  | EmptyString => if inSpace then [current; ""] else [current]
  | String c rest =>
      if Bool.eqb (isSpace c) inSpace
      then splitFrom inSpace (current ++ String c "") rest
      else current :: splitFrom (isSpace c) (String c "") rest
  end.

Definition splitWhitespace (s : string) : list string := splitFrom false "" s.

(** [tokens.forEach((token) => token && options.onToken?.(token))]. *)
Fixpoint forEachToken (options : AdapterOptions) (tokens : list string)
  : Calls unit :=
  match tokens with
  | [] => resolved tt
  | token :: rest =>
      andThen
        match token with
        | EmptyString => resolved tt
        | _ => callback (onToken options) OnToken token
        end
        (fun _ => forEachToken options rest)
  end.

(** [messages[messages.length - 1]?.content ?? '']. *)
Definition latestContent (messages : list Message) : string :=
  match nth_error messages (List.length messages - 1) with
  | Some m => content m
  | None => ""
  end.

(** [a || b] on strings. *)
Definition orDefault (a b : string) : string :=
  match a with
  | EmptyString => b
  | _ => a
  end.

Section Adapters.

(** [generateContent] of the Gemini SDK: with a key and a request, it settles
    with a response whose [text] may be undefined, or rejects, or is still
    pending when the deadline fires. *)
Variable generateContent : string -> GenerateRequest -> Race (option string).

Variable storage : Storage.
Variable options : AdapterOptions.

Definition geminiRequest (messages : list Message) : GenerateRequest :=
  {| model := "gemini-2.0-flash-exp";
     contents :=
       map
         (fun m =>
            {| content_role :=
                 match role m with
                 | assistant => "model"
                 | _ => "user"
                 end;
               parts := [content m] |})
         messages |}.

(** [invoke] of [GeminiAdapter.complete]. *)
Definition geminiInvoke (messages : list Message) (apiKey : string)
  : Calls string :=
  let request := geminiRequest messages in
  andThen ([GenerateContent apiKey request], generateContent apiKey request)
    (fun response =>
       let text :=
         match response with
         | Some t => t
         | None => ""
         end in
       andThen (forEachToken options (splitWhitespace text))
         (fun _ => resolved text)).

Definition GeminiAdapter_complete (messages : list Message) : Calls string :=
  match GEMINI_API_KEY storage with
  | Some (String c rest) => geminiInvoke messages (String c rest)
  | _ => withStoredKey storage gemini (geminiInvoke messages)
  end.

Definition OpenAIAdapter_complete (messages : list Message) : Calls string :=
  withStoredKey storage openai
    (fun key =>
       match key with
       | EmptyString => rejected (PlainError "OpenAI API Key missing")
       | _ =>
           let latest := latestContent messages in
           let text :=
             "OpenAI adapter response: "
               ++ orDefault latest "ForgePad is ready to build." in
           andThen (callback (onToken options) OnToken text)
             (fun _ =>
                andThen
                  (callback (onToolInvocation options) OnToolInvocation
                     {| tool_provider := openai;
                        tool_name := "code_search";
                        tool_args :=
                          QueryArgs
                            (orDefault (substring 0 40 latest) "workspace status") |})
                  (fun _ => resolved text))
       end).

Definition AnthropicAdapter_complete (messages : list Message) : Calls string :=
  withStoredKey storage anthropic
    (fun key =>
       match key with
       | EmptyString => rejected (PlainError "Anthropic API Key missing")
       | _ =>
           let latest := latestContent messages in
           let text :=
             "Anthropic adapter response: "
               ++ orDefault latest "I can help with your code." in
           andThen (callback (onToken options) OnToken text)
             (fun _ =>
                andThen
                  (callback (onToolInvocation options) OnToolInvocation
                     {| tool_provider := anthropic;
                        tool_name := "reasoning_step";
                        tool_args := MessagesArgs (List.length messages) |})
                  (fun _ => resolved text))
       end).

(** The [complete] of the adapter class of a provider. *)
Definition adapterComplete (p : AIProvider) (messages : list Message)
  : Calls string :=
  match p with
  | gemini => GeminiAdapter_complete messages
  | openai => OpenAIAdapter_complete messages
  | anthropic => AnthropicAdapter_complete messages
  end.

(** The registry [AIService] builds from the three adapter classes. *)
Definition serviceAdapters : list (AIProvider * ProviderAdapter) :=
  newAIService (fun messages => snd (GeminiAdapter_complete messages))
    (fun messages => snd (OpenAIAdapter_complete messages))
    (fun messages => snd (AnthropicAdapter_complete messages)).

End Adapters.

(** The calls of [options.onToken] among the calls of an adapter. *)
Definition tokensOf (calls : list AdapterCall) : list string :=
  flat_map (fun c => match c with OnToken t => [t] | _ => [] end) calls.

Definition sdkRequests (calls : list AdapterCall) : list (string * GenerateRequest) :=
  flat_map (fun c => match c with GenerateContent k r => [(k, r)] | _ => [] end)
    calls.

Definition toolCalls (calls : list AdapterCall) : list ToolInvocationEvent :=
  flat_map (fun c => match c with OnToolInvocation e => [e] | _ => [] end) calls.

Definition quietAdapterOptions (options : AdapterOptions) : Prop :=
  quietCallback (onToken options) /\ quietCallback (onToolInvocation options).

(** The truthiness of a token. *)
Definition nonEmpty (token : string) : bool :=
  match token with
  | EmptyString => false
  | _ => true
  end.

Fixpoint allChars (P : ascii -> bool) (s : string) : bool :=
  match s with
  | EmptyString => true
  | String c rest => P c && allChars P rest
  end.

(** A token that is not empty and is all whitespace or free of it. *)
Definition isRun (token : string) : Prop :=
  token <> EmptyString
  /\ (allChars isSpace token = true
      \/ allChars (fun c => negb (isSpace c)) token = true).

(** What the tool callback is told by the adapter of a provider: the event
    names the provider; the one of openai searches the code with a query of
    one to forty characters, the one of anthropic reports a reasoning step
    with the number of messages of the conversation. *)
Definition toolEventFor (p : AIProvider) (messages : list Message)
  (e : ToolInvocationEvent) : Prop :=
  tool_provider e = p
  /\ match p, tool_args e with
     | openai, QueryArgs query =>
         tool_name e = "code_search" /\ 1 <= String.length query <= 40
     | anthropic, MessagesArgs n =>
         tool_name e = "reasoning_step" /\ n = List.length messages
     | _, _ => False
     end.

(** ** Sample browsers *)

Module Desk.

(** A browser with a window and session storage and nothing stored, one
    whose window has no session storage, and a page rendered without a
    window. Accounts are given by their login. *)
Definition fresh : Store.Browser string :=
  {| Store.hasWindow := true;
     Store.localPrefs := Store.Absent;
     Store.sessionStore := Some Store.Absent;
     Store.envGeminiKey := None;
     Store.dispatched := [];
     Store.reloads := 0 |}.

Definition noSession : Store.Browser string :=
  Store.withSessionStore None fresh.

Definition server : Store.Browser string :=
  {| Store.hasWindow := false;
     Store.localPrefs := Store.Absent;
     Store.sessionStore := None;
     Store.envGeminiKey := Some "env-gemini-key";
     Store.dispatched := [];
     Store.reloads := 0 |}.

(** Preferences written by an earlier version: the fallback flag is under
    the legacy key, and nothing else is stored. *)
Definition legacyPrefs : Store.StoredPreferences string :=
  {| Store.stored_defaultProvider := None;
     Store.stored_onboardingComplete := None;
     Store.stored_onboardingStatus := None;
     Store.stored_providerFallbackEnabled := None;
     Store.stored_fallbackEnabled := Some false;
     Store.stored_prDraftingEnabled := None;
     Store.stored_ciPollingEnabled := None;
     Store.stored_localBuildMode := None;
     Store.stored_cloudFallbackEnabled := None;
     Store.stored_safeMode := None;
     Store.stored_biometricProtectionEnabled := None;
     Store.stored_githubAccount := None |}.

Definition legacy : Store.Browser string :=
  Store.withLocalPrefs (Store.Holding legacyPrefs) fresh.

(** [{ safeMode: false }]. *)
Definition unsafe : Store.PreferenceUpdates string :=
  {| Store.set_defaultProvider := None;
     Store.set_onboardingComplete := None;
     Store.set_onboardingStatus := None;
     Store.set_providerFallbackEnabled := None;
     Store.set_prDraftingEnabled := None;
     Store.set_ciPollingEnabled := None;
     Store.set_localBuildMode := None;
     Store.set_cloudFallbackEnabled := None;
     Store.set_safeMode := Some false;
     Store.set_biometricProtectionEnabled := None;
     Store.set_githubAccount := None |}.

(** Adapter options without callbacks, and with callbacks that return. *)
Definition silent : AdapterOptions :=
  {| onToken := None; onToolInvocation := None |}.

Definition streaming : AdapterOptions :=
  {| onToken := Some (fun _ => Returns tt);
     onToolInvocation := Some (fun _ => Returns tt) |}.

(** A Gemini SDK that answers every request with the same response, and one
    that does not answer in time. *)
Definition sdk (response : option string)
  : string -> GenerateRequest -> Race (option string) :=
  fun _ _ => OperationSettles (Returns response).

Definition unreachable : string -> GenerateRequest -> Race (option string) :=
  fun _ _ => DeadlineFires.

(** Options that leave everything to the preferences. *)
Definition bare : SendMessageOptions string :=
  {| option_provider := None;
     systemPrompt := None;
     timeoutMs := None;
     enableFallback := None;
     onProviderSwitch := None;
     onProviderEvent := None;
     onProviderHealth := None;
     structured := None |}.

End Desk.


(** * Properties *)

(** ** Strings *)

Lemma prefix_split (n h : string) :
  prefix n h = true <-> exists post, h = n ++ post.
Proof.
  revert h; induction n as [|c n IH]; intros h.
  - split; [intros _; exists h; reflexivity | intros _; now destruct h].
  - destruct h as [|d h]; simpl.
    + split; [discriminate | intros [post H]; discriminate].
    + destruct (ascii_dec c d) as [->|Hne].
      * rewrite IH. split; intros [post H]; exists post.
        -- now rewrite H.
        -- now inversion H.
      * split; [discriminate | intros [post H]; inversion H; congruence].
Qed.

(** [includes] is the substring test. *)
Lemma includes_split (n h : string) :
  includes n h = true <-> exists pre post, h = pre ++ n ++ post.
Proof.
  induction h as [|d h IH].
  - change (includes n "") with (prefix n "" || false).
    rewrite orb_false_r, prefix_split. split.
    + intros [post H]. exists "", post. exact H.
    + intros [pre [post H]]. destruct pre; simpl in H.
      * now exists post.
      * discriminate.
  - change (includes n (String d h))
      with (prefix n (String d h) || includes n h).
    rewrite orb_true_iff, prefix_split, IH. split.
    + intros [[post H] | [pre [post H]]].
      * exists "", post. exact H.
      * exists (String d pre), post. simpl. now rewrite H.
    + intros [pre [post H]]. destruct pre as [|c pre]; simpl in H.
      * left. now exists post.
      * right. exists pre, post. now inversion H.
Qed.

Lemma string_append_assoc (a b c : string) :
  ((a ++ b) ++ c = a ++ b ++ c)%string.
Proof.
  induction a as [|ch a IH]; simpl; [reflexivity | now rewrite IH].
Qed.

Lemma string_append_nil (a : string) : (a ++ "" = a)%string.
Proof.
  induction a as [|ch a IH]; simpl; [reflexivity | now rewrite IH].
Qed.




(** ** ErrorClassifier *)

Lemma classifyMessage_first_match (msg : string) :
  classifyMessage msg = classifyBySpec msg.
Proof.
  cbv [classifyMessage classifyBySpec CLASSIFICATION_RULES firstMatch existsb].
  repeat match goal with
         | |- context [includes ?n ?h] => destruct (includes n h)
         end; reflexivity.
Qed.

(** C6. For an error that carries a message and no classification yet,
    [classifyError] assigns the kind of the first rule of the priority table
    (auth, timeout, rate_limit, network, provider, each with its fragments)
    that has a fragment contained in the lower-cased message, and [unknown]
    when no rule has one; the message is kept. *)
Theorem classifyError_first_match (p : AIProvider) (msg : string) :
  classification (classifyError p (PlainError msg))
  = Kind
      (firstMatch
         [ (auth, ["missing"; "invalid key"; "unauthorized"; "401"]);
           (timeout, ["timeout"]);
           (rate_limit, ["429"; "rate"]);
           (network, ["network"; "fetch"]);
           (provider, ["provider"]) ]
         (toLowerCase msg))
  /\ message (classifyError p (PlainError msg)) = Some msg.
Proof.
  split; [cbn; f_equal; apply classifyMessage_first_match | reflexivity].
Qed.

Lemma ErrorClass_listed (k : ErrorClass) : In k ERROR_CLASSES.
Proof.
  destruct k; simpl; tauto.
Qed.

(** C7, as the claim has it, fails: what is thrown can carry a
    [classification] that is none of the six kinds, and [classifyError]
    returns such a value as it is. *)
Lemma classifyError_keeps_foreign_kind :
  let weird := {| message := None; classification := Foreign "weird" |} in
  classifyError gemini (Classified weird) = weird
  /\ forall k : ErrorClass,
       classification (classifyError gemini (Classified weird)) <> Kind k.
Proof.
  split; [reflexivity|]. intros k. discriminate.
Qed.

(** C7, amended. A value that carries a classification is returned as it is,
    whatever the classification, so classifying a second time (for whichever
    provider) changes neither kind nor message. A value that carries none
    gets a message and one of the kinds timeout, auth, rate_limit, network,
    provider, unknown. So the kind of the result is one of the six exactly
    when the value carried none or carried one of the six. *)
Theorem classifyError_kinds_idempotent (p q : AIProvider) (thrown : Thrown) :
  (forall e : ClassifiedError, classifyError p (Classified e) = e)
  /\ classifyError q (Classified (classifyError p thrown))
     = classifyError p thrown
  /\ match thrown with
     | Classified e => classifyError p thrown = e
     | PlainError _ | NonError _ =>
         exists (k : ErrorClass) (msg : string),
           classifyError p thrown = {| message := Some msg;
                                       classification := Kind k |}
           /\ In k [timeout; auth; rate_limit; network; provider; unknown]
     end
  /\ ((exists k : ErrorClass, classification (classifyError p thrown) = Kind k)
      <-> match thrown with
          | Classified e => exists k : ErrorClass, classification e = Kind k
          | PlainError _ | NonError _ => True
          end).
Proof.
  split; [reflexivity|]. split; [reflexivity|]. split.
  - destruct thrown as [e|msg|shown]; [reflexivity| |];
      eexists _, _; (split; [reflexivity|apply ErrorClass_listed]).
  - destruct thrown as [e|msg|shown]; cbn; [tauto| |]; split; eauto.
Qed.

(** ** Candidate list *)

Lemma candidates_shape (p : AIProvider) :
  candidates p
  = p :: filter (fun q => negb (AIProvider_eqb q p)) PROVIDER_ORDER.
Proof.
  destruct p; reflexivity.
Qed.

(** C1. The candidate list [sendMessage] builds starts with the selected
    provider (the one of the options, else the stored default), holds no
    provider twice, and continues with the other providers in the order
    gemini, openai, anthropic. *)
Theorem candidates_selected_first (T : Type) (storage : Storage)
  (options : SendMessageOptions T) :
  let p := selectedProvider storage options in
  hd_error (candidates p) = Some p
  /\ NoDup (candidates p)
  /\ tl (candidates p)
     = filter (fun q => negb (AIProvider_eqb q p)) [gemini; openai; anthropic]
  /\ (forall q, In q (candidates p)).
Proof.
  intros p. rewrite candidates_shape. repeat split.
  - destruct p; simpl; repeat constructor; simpl; intuition discriminate.
  - intros q. destruct p, q; simpl; tauto.
Qed.

(** ** Stepping through computations *)

Open Scope list_scope.

Lemma steps_ret {A} (a : A) (s : State) : steps (ret a) s (Returns a) [].
Proof.
  exists s. now rewrite app_nil_r.
Qed.

Lemma steps_throw {A} (e : Thrown) (s : State) :
  steps (@throw A e) s (Throws e) [].
Proof.
  exists s. now rewrite app_nil_r.
Qed.

Lemma steps_settle {A} (c : Completion A) (s : State) : steps (settle c) s c [].
Proof.
  exists s. now rewrite app_nil_r.
Qed.

Lemma steps_log (e : Effect) (s : State) : steps (log e) s (Returns tt) [e].
Proof.
  eexists. repeat split.
Qed.

Lemma steps_bind {A B} (c : M A) (k : A -> M B) (s : State) (a : A)
  (n1 n2 : list Effect) (out : Completion B) :
  steps c s (Returns a) n1 ->
  (forall s1, runtimeListeners s1 = runtimeListeners s -> steps (k a) s1 out n2) ->
  steps (bind c k) s out (n1 ++ n2).
Proof.
  intros (s1 & Hc & Ht & Hl) Hk.
  destruct (Hk s1 Hl) as (s2 & Hk2 & Ht2 & Hl2).
  exists s2. unfold bind. rewrite Hc. repeat split.
  - exact Hk2.
  - now rewrite Ht2, Ht, app_assoc.
  - congruence.
Qed.

Lemma steps_bind_throws {A B} (c : M A) (k : A -> M B) (s : State)
  (e : Thrown) (n : list Effect) :
  steps c s (Throws e) n -> steps (bind c k) s (Throws e) n.
Proof.
  intros (s1 & Hc & Ht & Hl). exists s1. unfold bind. now rewrite Hc.
Qed.

Lemma steps_tryCatch_returns {A} (body : M A) (handler : Thrown -> M A)
  (s : State) (a : A) (n : list Effect) :
  steps body s (Returns a) n -> steps (tryCatch body handler) s (Returns a) n.
Proof.
  intros (s1 & Hc & Ht & Hl). exists s1. unfold tryCatch. now rewrite Hc.
Qed.

Lemma steps_tryCatch_throws {A} (body : M A) (handler : Thrown -> M A)
  (s : State) (e : Thrown) (n1 n2 : list Effect) (out : Completion A) :
  steps body s (Throws e) n1 ->
  (forall s1, runtimeListeners s1 = runtimeListeners s ->
              steps (handler e) s1 out n2) ->
  steps (tryCatch body handler) s out (n1 ++ n2).
Proof.
  intros (s1 & Hc & Ht & Hl) Hh.
  destruct (Hh s1 Hl) as (s2 & Hh2 & Ht2 & Hl2).
  exists s2. unfold tryCatch. rewrite Hc. repeat split.
  - exact Hh2.
  - now rewrite Ht2, Ht, app_assoc.
  - congruence.
Qed.

Lemma steps_withTimeout {A} (promise : Race A) (ms : N) (p : AIProvider)
  (s : State) :
  steps (withTimeout promise ms p) s (raceOutcome promise ms p) [].
Proof.
  destruct promise as [c|]; eexists; (split; [reflexivity|]);
    simpl; now rewrite app_nil_r.
Qed.

Lemma steps_forEachListener (ls : list Listener) (ev : ProviderRuntimeEvent) :
  quietListeners ls ->
  forall s, steps (forEachListener ls ev) s (Returns tt) (deliveries ls ev).
Proof.
  induction 1 as [|l ls Hl Hls IH]; intros s.
  - apply steps_ret.
  - change (deliveries (l :: ls) ev)
      with ([Delivered (lid l) ev] ++ [] ++ deliveries ls ev).
    cbn [forEachListener].
    eapply steps_bind; [apply steps_log | intros s1 _].
    eapply steps_bind; [rewrite Hl; apply steps_settle | intros s2 _].
    apply IH.
Qed.

Lemma steps_emitRuntimeEvent (ev : ProviderRuntimeEvent) (s : State) :
  quietListeners (runtimeListeners s) ->
  steps (emitRuntimeEvent ev) s (Returns tt) (emitEffects (runtimeListeners s) ev).
Proof.
  intros Hq. unfold emitRuntimeEvent.
  change (emitEffects (runtimeListeners s) ev)
    with ([Emitted ev] ++ deliveries (runtimeListeners s) ev).
  eapply steps_bind; [apply steps_log | intros s1 H1].
  rewrite <- H1 in *.
  destruct (steps_forEachListener ev Hq s1) as (s2 & H2 & Ht & Hl).
  exists s2. auto.
Qed.

Lemma steps_callOptional {E} (cb : option (E -> Completion unit))
  (shown : E -> Effect) (e : E) (s : State) :
  quietCallback cb ->
  steps (callOptional cb shown e) s (Returns tt) (callEffects cb shown e).
Proof.
  destruct cb as [f|]; simpl; intros Hq.
  - change [shown e] with ([shown e] ++ []).
    eapply steps_bind; [apply steps_log | intros s1 _].
    rewrite Hq. apply steps_settle.
  - apply steps_ret.
Qed.

Lemma steps_saveProviderHealth (p : AIProvider) (h : Health) (s : State) :
  steps (saveProviderHealth p h) s (Returns tt) [SavedHealth p h].
Proof.
  apply steps_log.
Qed.

(** ** Reading a trace *)

Lemma busEvents_app (a b : list Effect) :
  busEvents (a ++ b) = busEvents a ++ busEvents b.
Proof. apply flat_map_app. Qed.

Lemma attempted_app (a b : list Effect) :
  attempted (a ++ b) = attempted a ++ attempted b.
Proof. apply flat_map_app. Qed.

Lemma switchCalls_app (a b : list Effect) :
  switchCalls (a ++ b) = switchCalls a ++ switchCalls b.
Proof. apply flat_map_app. Qed.

Lemma deliveredTo_app (a b : list Effect) :
  deliveredTo (a ++ b) = deliveredTo a ++ deliveredTo b.
Proof. apply flat_map_app. Qed.

Lemma recordedHealth_app (a b : list Effect) (p : AIProvider) :
  recordedHealth (a ++ b) p
  = match recordedHealth b p with
    | Some h => Some h
    | None => recordedHealth a p
    end.
Proof.
  induction a as [|e a IH]; simpl.
  - now destruct (recordedHealth b p).
  - rewrite IH. now destruct (recordedHealth b p).
Qed.

Lemma deliveries_silent (ls : list Listener) (ev : ProviderRuntimeEvent) :
  busEvents (deliveries ls ev) = []
  /\ attempted (deliveries ls ev) = []
  /\ switchCalls (deliveries ls ev) = []
  /\ (forall p, recordedHealth (deliveries ls ev) p = None)
  /\ deliveredTo (deliveries ls ev) = map lid ls.
Proof.
  induction ls as [|l ls (Hb & Ha & Hs & Hr & Hd)]; simpl.
  - repeat split.
  - repeat split; try assumption.
    + intros p. now rewrite Hr.
    + now rewrite Hd.
Qed.

Ltac read_trace :=
  repeat
    (rewrite ?busEvents_app, ?attempted_app, ?switchCalls_app,
       ?recordedHealth_app;
     cbn [busEvents attempted switchCalls recordedHealth flat_map app];
     rewrite ?(proj1 (deliveries_silent _ _)),
       ?(proj1 (proj2 (deliveries_silent _ _))),
       ?(proj1 (proj2 (proj2 (deliveries_silent _ _)))),
       ?(proj1 (proj2 (proj2 (proj2 (deliveries_silent _ _)))))).

Section Reading.

Variable T : Type.
Variable options : SendMessageOptions T.
Variable ls : list Listener.

Lemma switchEffects_read (previous p : AIProvider)
  (lastError : option ClassifiedError) :
  let new := switchEffects options ls previous p lastError in
  busEvents new = [provider_switch (switchEvent previous p lastError)]
  /\ attempted new = []
  /\ switchCalls new
     = match onProviderSwitch options with
       | Some _ => [switchEvent previous p lastError]
       | None => []
       end
  /\ (forall q, recordedHealth new q = None).
Proof.
  unfold switchEffects, emitEffects.
  destruct (onProviderSwitch options), (onProviderEvent options);
    cbn [callEffects]; repeat split; intros; read_trace; reflexivity.
Qed.

Lemma failureEffects_read (p : AIProvider) (e : ClassifiedError) :
  let new := failureEffects options ls p e in
  busEvents new = [failureEvent p e]
  /\ attempted new = []
  /\ switchCalls new = []
  /\ (forall q, recordedHealth new q
                = if AIProvider_eqb p q then Some (failureHealth e) else None).
Proof.
  unfold failureEffects, emitEffects.
  destruct (onProviderHealth options);
    cbn [callEffects]; repeat split; intros; read_trace; reflexivity.
Qed.

Lemma healthyEffects_read (p : AIProvider) :
  let new := healthyEffects options ls p in
  busEvents new = [healthyEvent p]
  /\ attempted new = []
  /\ switchCalls new = []
  /\ (forall q, recordedHealth new q
                = if AIProvider_eqb p q then Some healthy else None).
Proof.
  unfold healthyEffects, emitEffects.
  destruct (onProviderHealth options);
    cbn [callEffects]; repeat split; intros; read_trace; reflexivity.
Qed.

Lemma openingEffects_read (all : list AIProvider) (i : nat) (p : AIProvider)
  (lastError : option ClassifiedError) :
  let new := openingEffects options ls all i p lastError in
  busEvents new
  = (if (0 <? i)%nat
     then [provider_switch (switchEvent (nth (i - 1) all p) p lastError)]
     else [])
  /\ attempted new = []
  /\ switchCalls new
     = (if (0 <? i)%nat
        then match onProviderSwitch options with
             | Some _ => [switchEvent (nth (i - 1) all p) p lastError]
             | None => []
             end
        else [])
  /\ (forall q, recordedHealth new q = None).
Proof.
  unfold openingEffects. destruct (0 <? i)%nat.
  - apply switchEffects_read.
  - repeat split.
Qed.

End Reading.

(** ** One iteration of the loop *)

Section Orchestration.

Variable T : Type.
Variables geminiComplete openaiComplete anthropicComplete : Complete.
Variable storage : Storage.
Variable messages : list Message.
Variable options : SendMessageOptions T.
Variable ls : list Listener.

Hypothesis observers_return : quietOptions options.
Hypothesis listeners_return : quietListeners ls.

Let adapters := newAIService geminiComplete openaiComplete anthropicComplete.
Let merged := mergedMessages messages options.
Let ms := effectiveTimeoutMs options.
Let adapterOf (p : AIProvider) : ProviderAdapter :=
  {| adapter_provider := p;
     complete := completeOf geminiComplete openaiComplete anthropicComplete p |}.

(** The request of a provider, raced against the deadline of the call. *)
Let request (p : AIProvider) : Completion string :=
  raceOutcome
    (completeOf geminiComplete openaiComplete anthropicComplete p merged) ms p.

Lemma mapGet_newAIService (p : AIProvider) :
  mapGet p adapters = Some (adapterOf p).
Proof.
  destruct p; reflexivity.
Qed.

Lemma steps_emit_subscribed (ev : ProviderRuntimeEvent) (s : State) :
  runtimeListeners s = ls ->
  steps (emitRuntimeEvent ev) s (Returns tt) (emitEffects ls ev).
Proof.
  intros <-. now apply steps_emitRuntimeEvent.
Qed.

Lemma steps_announceSwitch (previous p : AIProvider)
  (lastError : option ClassifiedError) (s : State) :
  runtimeListeners s = ls ->
  steps (announceSwitch options previous p lastError) s (Returns tt)
    (switchEffects options ls previous p lastError).
Proof.
  intros Hs0. destruct observers_return as (Hs & He & _).
  unfold announceSwitch, switchEffects.
  change (ConsoleInfo ?e :: ?l) with ([ConsoleInfo e] ++ l).
  eapply steps_bind; [apply steps_log | intros s1 H1].
  eapply steps_bind; [now apply steps_callOptional | intros s2 H2].
  eapply steps_bind; [now apply steps_callOptional | intros s3 H3].
  apply steps_emit_subscribed. congruence.
Qed.

Lemma steps_recordFailure (p : AIProvider) (e : ClassifiedError) (s : State) :
  runtimeListeners s = ls ->
  steps (recordFailure options p e) s (Returns tt)
    (failureEffects options ls p e).
Proof.
  intros Hs0. destruct observers_return as (_ & _ & Hh).
  unfold recordFailure, failureEffects.
  change (SavedHealth ?q ?h :: ?l) with ([SavedHealth q h] ++ l).
  eapply steps_bind; [apply steps_saveProviderHealth | intros s1 H1].
  eapply steps_bind; [now apply steps_callOptional | intros s2 H2].
  apply steps_emit_subscribed. congruence.
Qed.

Lemma steps_finishResult (i : nat) (p : AIProvider) (txt : string) (s : State) :
  steps (finishResult options i p txt) s
    match structuredOutcome options txt with
    | Returns v =>
        Returns {| text := txt; result_provider := p; result_structured := v;
                   fallbackUsed := (0 <? i)%nat |}
    | Throws e => Throws e
    end
    [].
Proof.
  exists s. rewrite app_nil_r. repeat split.
  unfold finishResult, structuredOutcome.
  destruct (structured options) as [parser|]; [|reflexivity].
  unfold bind, settle, ret, throw.
  destruct (parse parser txt) as [parsed|e]; [|reflexivity].
  destruct (validate parser) as [check|]; [|reflexivity].
  destruct (check parsed) as [[|]|e]; reflexivity.
Qed.

(** The [try] block when the request is rejected or times out. *)
Lemma steps_attempt_rejected (i : nat) (p : AIProvider) (caught : Thrown)
  (s : State) :
  request p = Throws caught ->
  steps (attempt messages options i p (adapterOf p)) s (Throws caught)
    [Completing p merged].
Proof.
  intros Hr. unfold attempt. cbn [complete adapterOf].
  change [Completing p merged] with ([Completing p merged] ++ []).
  eapply steps_bind; [apply steps_log | intros s1 _].
  eapply steps_bind_throws. rewrite <- Hr. apply steps_withTimeout.
Qed.

(** The [try] block when the request delivers a text. *)
Lemma steps_attempt_settled (i : nat) (p : AIProvider) (txt : string)
  (s : State) :
  runtimeListeners s = ls ->
  request p = Returns txt ->
  steps (attempt messages options i p (adapterOf p)) s
    match structuredOutcome options txt with
    | Returns v =>
        Returns {| text := txt; result_provider := p; result_structured := v;
                   fallbackUsed := (0 <? i)%nat |}
    | Throws e => Throws e
    end
    (Completing p merged :: healthyEffects options ls p).
Proof.
  intros Hs0 Hr. destruct observers_return as (_ & _ & Hh).
  unfold attempt, healthyEffects. cbn [complete adapterOf].
  change (Completing p merged :: ?l) with ([Completing p merged] ++ l).
  eapply steps_bind; [apply steps_log | intros s1 H1].
  rewrite <- (app_nil_r (_ :: _)), <- app_nil_l.
  eapply steps_bind; [rewrite <- Hr; apply steps_withTimeout | intros s2 H2].
  change (SavedHealth ?q ?h :: ?l) with ([SavedHealth q h] ++ l).
  rewrite <- app_assoc.
  eapply steps_bind; [apply steps_saveProviderHealth | intros s3 H3].
  rewrite <- app_assoc.
  eapply steps_bind; [now apply steps_callOptional | intros s4 H4].
  eapply steps_bind; [|intros s5 H5; apply steps_finishResult].
  apply steps_emit_subscribed. congruence.
Qed.

Lemma steps_opening (all : list AIProvider) (i : nat) (p : AIProvider)
  (lastError : option ClassifiedError) (s : State) :
  runtimeListeners s = ls ->
  steps
    (if (0 <? i)%nat
     then announceSwitch options (nth (i - 1) all p) p lastError
     else ret tt)
    s (Returns tt) (openingEffects options ls all i p lastError).
Proof.
  intros Hs0. unfold openingEffects. destruct (0 <? i)%nat.
  - now apply steps_announceSwitch.
  - apply steps_ret.
Qed.

(** An iteration whose [try] block throws [caught], [next] being what
    follows the report of the failure. *)
Lemma steps_iteration_failed (all : list AIProvider) (i : nat)
  (p : AIProvider) (rest : list AIProvider)
  (lastError : option ClassifiedError) (caught : Thrown)
  (tried after : list Effect) (out : Completion (SendMessageResult T)) :
  (forall s, runtimeListeners s = ls ->
     steps (attempt messages options i p (adapterOf p)) s (Throws caught) tried) ->
  (forall s, runtimeListeners s = ls ->
     steps
       (if fallbackEnabled storage options && (i <? List.length all - 1)%nat
        then attemptFrom adapters storage messages options all (S i) rest
               (Some (classifyError p caught))
        else throw (Classified (classifyError p caught)))
       s out after) ->
  forall s, runtimeListeners s = ls ->
    steps
      (attemptFrom adapters storage messages options all i (p :: rest) lastError)
      s out
      (openingEffects options ls all i p lastError
         ++ (tried ++ failureEffects options ls p (classifyError p caught) ++ after)).
Proof.
  intros Htry Hnext s Hs0. cbn [attemptFrom].
  rewrite mapGet_newAIService.
  eapply steps_bind; [now apply steps_opening | intros s1 H1].
  eapply steps_tryCatch_throws; [apply Htry; congruence | intros s2 H2].
  eapply steps_bind; [apply steps_recordFailure; congruence | intros s3 H3].
  apply Hnext. congruence.
Qed.

(** An iteration whose [try] block returns. *)
Lemma steps_iteration_returned (all : list AIProvider) (i : nat)
  (p : AIProvider) (rest : list AIProvider)
  (lastError : option ClassifiedError) (r : SendMessageResult T)
  (tried : list Effect) :
  (forall s, runtimeListeners s = ls ->
     steps (attempt messages options i p (adapterOf p)) s (Returns r) tried) ->
  forall s, runtimeListeners s = ls ->
    steps
      (attemptFrom adapters storage messages options all i (p :: rest) lastError)
      s (Returns r) (openingEffects options ls all i p lastError ++ tried).
Proof.
  intros Htry s Hs0. cbn [attemptFrom].
  rewrite mapGet_newAIService.
  eapply steps_bind; [now apply steps_opening | intros s1 H1].
  eapply steps_tryCatch_returns. apply Htry. congruence.
Qed.

(** ** The loop *)

(** Every request from index [i] on is rejected, fallback being enabled. *)
Lemma attemptFrom_all_rejected (err : AIProvider -> Thrown)
  (all : list AIProvider) :
  fallbackEnabled storage options = true ->
  forall rest i lastError,
    rest <> [] ->
    List.length all = i + List.length rest ->
    (forall p, In p rest -> request p = Throws (err p)) ->
    exists new,
      busEvents new = failTrail err all i rest lastError
      /\ attempted new = rest
      /\ forall s, runtimeListeners s = ls ->
           steps
             (attemptFrom adapters storage messages options all i rest lastError)
             s
             (Throws
                (Classified
                   (classifyError (last rest gemini) (err (last rest gemini)))))
             new.
Proof.
  intros Hfb. induction rest as [|p rest IH]; intros i lastError Hne Hlen Hreq.
  - congruence.
  - pose proof (Hreq p (or_introl eq_refl)) as Hp.
    destruct (openingEffects_read options ls all i p lastError)
      as (Hob & Hoa & _).
    destruct (failureEffects_read options ls p (classifyError p (err p)))
      as (Hfb' & Hfa & _).
    destruct rest as [|q rest'].
    + exists (openingEffects options ls all i p lastError
              ++ ([Completing p merged]
                  ++ failureEffects options ls p (classifyError p (err p))
                  ++ [])).
      split; [|split].
      * rewrite !busEvents_app, Hob, Hfb'. cbn [failTrail busEvents flat_map app].
        now destruct (0 <? i)%nat.
      * rewrite !attempted_app, Hoa, Hfa. reflexivity.
      * apply steps_iteration_failed.
        -- intros s _. now apply steps_attempt_rejected.
        -- intros s _. simpl in Hlen.
           replace (i <? List.length all - 1)%nat with false
             by (symmetry; apply Nat.ltb_ge; lia).
           rewrite andb_false_r. apply steps_throw.
    + destruct (IH (S i) (Some (classifyError p (err p))))
        as (new' & Hb' & Ha' & Hrun).
      * discriminate.
      * simpl in *. lia.
      * intros r Hr. apply Hreq. now right.
      * exists (openingEffects options ls all i p lastError
                ++ ([Completing p merged]
                    ++ failureEffects options ls p (classifyError p (err p))
                    ++ new')).
        split; [|split].
        -- rewrite !busEvents_app, Hob, Hfb', Hb'.
           cbn [failTrail busEvents flat_map app].
           now destruct (0 <? i)%nat.
        -- rewrite !attempted_app, Hoa, Hfa, Ha'. reflexivity.
        -- apply steps_iteration_failed.
           ++ intros s _. now apply steps_attempt_rejected.
           ++ intros s Hs. simpl in Hlen.
              replace (i <? List.length all - 1)%nat with true
                by (symmetry; apply Nat.ltb_lt; lia).
              rewrite Hfb. cbn [andb]. now apply Hrun.
Qed.

(** The [try] block comes to a failure: the request is rejected, or its
    text does not pass the structured step. *)
Lemma attempt_failed (i : nat) (p : AIProvider) (caught : Thrown) :
  tryOutcome options
    (completeOf geminiComplete openaiComplete anthropicComplete p merged) ms p
  = Throws caught ->
  exists tried,
    attempted tried = [p]
    /\ switchCalls tried = []
    /\ countSwitch (busEvents tried) = 0
    /\ forall s, runtimeListeners s = ls ->
         steps (attempt messages options i p (adapterOf p)) s (Throws caught)
           tried.
Proof.
  unfold tryOutcome. fold (request p).
  destruct (request p) as [txt|e] eqn:Hr.
  - destruct (structuredOutcome options txt) as [v|e] eqn:Hv; [discriminate|].
    intros [= ->].
    destruct (healthyEffects_read options ls p) as (Hb & Ha & Hs & _).
    exists (Completing p merged :: healthyEffects options ls p).
    repeat split.
    + cbn [attempted flat_map app]. fold (attempted (healthyEffects options ls p)).
      now rewrite Ha.
    + cbn [switchCalls flat_map app].
      fold (switchCalls (healthyEffects options ls p)). now rewrite Hs.
    + cbn [busEvents flat_map app].
      fold (busEvents (healthyEffects options ls p)). now rewrite Hb.
    + intros s Hs0.
      pose proof (steps_attempt_settled i p s Hs0 Hr) as H.
      now rewrite Hv in H.
  - intros [= ->]. exists [Completing p merged]. repeat split.
    intros s _. now apply steps_attempt_rejected.
Qed.

(** The [try] block comes to a result. *)
Lemma attempt_succeeded (i : nat) (p : AIProvider) (txt : string)
  (v : option T) (s : State) :
  tryOutcome options
    (completeOf geminiComplete openaiComplete anthropicComplete p merged) ms p
  = Returns (txt, v) ->
  runtimeListeners s = ls ->
  steps (attempt messages options i p (adapterOf p)) s
    (Returns {| text := txt; result_provider := p; result_structured := v;
                fallbackUsed := (0 <? i)%nat |})
    (Completing p merged :: healthyEffects options ls p).
Proof.
  unfold tryOutcome. fold (request p).
  destruct (request p) as [txt'|e] eqn:Hr; [|discriminate].
  destruct (structuredOutcome options txt') as [v'|e] eqn:Hv; [|discriminate].
  intros [= -> ->] Hs0.
  pose proof (steps_attempt_settled i p s Hs0 Hr) as H.
  now rewrite Hv in H.
Qed.

End Orchestration.

(** ** The providers tried *)

Lemma candidates_nonempty (p : AIProvider) : candidates p <> [].
Proof.
  now rewrite candidates_shape.
Qed.

Lemma candidates_NoDup (p : AIProvider) : NoDup (candidates p).
Proof.
  rewrite candidates_shape.
  destruct p; simpl; repeat constructor; simpl; intuition discriminate.
Qed.

Lemma providersToTry_nonempty (configured : list AIProvider) (p : AIProvider) :
  providersToTry configured p <> [].
Proof.
  unfold providersToTry.
  destruct (filter (arrayIncludes configured) (candidates p)) as [|q l] eqn:H;
    simpl.
  - apply candidates_nonempty.
  - discriminate.
Qed.

Lemma providersToTry_NoDup (configured : list AIProvider) (p : AIProvider) :
  NoDup (providersToTry configured p).
Proof.
  unfold providersToTry.
  destruct (0 <? _)%nat.
  - apply NoDup_filter, candidates_NoDup.
  - apply candidates_NoDup.
Qed.

(** ** The trail of a run in which every request is rejected *)

Lemma failTrail_health (err : AIProvider -> Thrown) (all rest : list AIProvider) :
  forall i lastError,
    filter isHealth (failTrail err all i rest lastError)
    = map (fun p => failureEvent p (classifyError p (err p))) rest.
Proof.
  induction rest as [|p rest IH]; intros i lastError; simpl.
  - reflexivity.
  - destruct (0 <? i)%nat; simpl; now rewrite IH.
Qed.

Lemma failTrail_switches (err : AIProvider -> Thrown) (all rest : list AIProvider) :
  forall i lastError,
    countSwitch (failTrail err all i rest lastError)
    = if (0 <? i)%nat then List.length rest else List.length rest - 1.
Proof.
  unfold countSwitch.
  induction rest as [|p rest IH]; intros i lastError; simpl.
  - now destruct (0 <? i)%nat.
  - destruct (0 <? i)%nat; simpl; rewrite IH; simpl; lia.
Qed.

Lemma countSwitch_app (a b : list ProviderRuntimeEvent) :
  countSwitch (a ++ b) = countSwitch a + countSwitch b.
Proof.
  unfold countSwitch. now rewrite filter_app, length_app.
Qed.

(** C3, as the claim has it, fails: fallback is disabled and the request of
    the first provider is rejected, but a listener that throws on the health
    event of that failure makes the call reject with what the listener threw,
    not with the classified error of the attempt. *)
Lemma no_fallback_listener_exception :
  let s := subscribeRuntimeEvents Sample.thrower (initialState []) in
  let options := Sample.select gemini false in
  let service :=
    newAIService (Sample.rejects "network error") Sample.hangs Sample.hangs in
  fallbackEnabled Sample.allKeys options = false
  /\ hd_error (toTry Sample.allKeys options) = Some gemini
  /\ tryOutcome options (Sample.rejects "network error" Sample.hello)
       (effectiveTimeoutMs options) gemini
     = Throws (PlainError "network error")
  /\ fst (sendMessage service Sample.allKeys Sample.hello options s)
     = Throws (PlainError "listener failed")
  /\ fst (sendMessage service Sample.allKeys Sample.hello options s)
     <> Throws (Classified (classifyError gemini (PlainError "network error"))).
Proof.
  repeat split. discriminate.
Qed.

(** C3, amended. Fallback is disabled and the first attempt fails: its
    request is rejected or times out, or its text does not pass the
    structured step; the callbacks and the listeners return. Then
    [sendMessage] rejects with the classified error of that attempt, no other
    provider is attempted, and no switch event reaches
    [options.onProviderSwitch] or the bus. *)
Theorem sendMessage_no_fallback (T : Type)
  (geminiComplete openaiComplete anthropicComplete : Complete)
  (storage : Storage) (messages : list Message) (options : SendMessageOptions T)
  (p : AIProvider) (rest : list AIProvider) (caught : Thrown) (s : State) :
  quietOptions options ->
  quietListeners (runtimeListeners s) ->
  fallbackEnabled storage options = false ->
  toTry storage options = p :: rest ->
  tryOutcome options
    (completeOf geminiComplete openaiComplete anthropicComplete p
       (mergedMessages messages options))
    (effectiveTimeoutMs options) p
  = Throws caught ->
  exists new,
    steps
      (sendMessage (newAIService geminiComplete openaiComplete anthropicComplete)
         storage messages options)
      s (Throws (Classified (classifyError p caught))) new
    /\ attempted new = [p]
    /\ countSwitch (busEvents new) = 0
    /\ switchCalls new = [].
Proof.
  intros Hopts Hls Hfb Hall Hfail.
  destruct (attempt_failed geminiComplete openaiComplete anthropicComplete
              messages Hopts Hls 0 p Hfail)
    as (tried & Ha & Hs & Hc & Hrun).
  destruct (failureEffects_read options (runtimeListeners s) p
              (classifyError p caught)) as (Hfb' & Hfa & Hfs & _).
  exists (openingEffects options (runtimeListeners s) (p :: rest) 0 p None
          ++ (tried
              ++ failureEffects options (runtimeListeners s) p
                   (classifyError p caught)
              ++ [])).
  split.
  - unfold sendMessage. rewrite Hall.
    apply (steps_iteration_failed geminiComplete openaiComplete
             anthropicComplete storage Hopts Hls (p :: rest) rest None Hrun);
      [|reflexivity].
    intros s1 _. rewrite Hfb. apply steps_throw.
  - cbn [openingEffects Nat.ltb Nat.leb app]. rewrite app_nil_r.
    rewrite attempted_app, busEvents_app, countSwitch_app, switchCalls_app.
    rewrite Ha, Hfa, Hc, Hfb', Hs, Hfs. repeat split.
Qed.



(** ** TimeoutGuard *)

Lemma removeTimer_idempotent (id : nat) (timers : list nat) :
  removeTimer id (removeTimer id timers) = removeTimer id timers.
Proof.
  unfold removeTimer. induction timers as [|t timers IH]; simpl.
  - reflexivity.
  - destruct (t =? id)%nat eqn:E; simpl; [exact IH | now rewrite E, IH].
Qed.

Lemma removeTimer_gone (id : nat) (timers : list nat) :
  existsb (Nat.eqb id) (removeTimer id timers) = false.
Proof.
  unfold removeTimer. induction timers as [|t timers IH]; simpl.
  - reflexivity.
  - destruct (t =? id)%nat eqn:E; simpl; [exact IH|].
    rewrite IH, Nat.eqb_sym, E. reflexivity.
Qed.

(** C5. When the operation settles first, [withTimeout] ends as the
    operation does, with its value or with what it threw; when the deadline
    fires first, it throws an error of kind [timeout] whose message is
    "<provider> request timed out after <timeoutMs>ms" and so names the
    provider and the duration; either way the timer the call has set is not
    pending once the call is over, and no other timer is touched. *)
Theorem withTimeout_race (A : Type) (c : Completion A) (promise : Race A)
  (timeoutMs : N) (p : AIProvider) (s : State) :
  fst (withTimeout (OperationSettles c) timeoutMs p s) = c
  /\ fst (withTimeout (@DeadlineFires A) timeoutMs p s)
     = Throws
         (Classified
            {| message :=
                 Some
                   (providerName p ++ " request timed out after "
                      ++ showNumber timeoutMs ++ "ms")%string;
               classification := Kind timeout |})
  /\ (exists msg,
        message (timeoutError p timeoutMs) = Some msg
        /\ includes (providerName p) msg = true
        /\ includes (showNumber timeoutMs ++ "ms")%string msg = true)
  /\ pendingTimers (snd (withTimeout promise timeoutMs p s))
     = removeTimer (nextTimer s) (pendingTimers s)
  /\ existsb (Nat.eqb (nextTimer s))
       (pendingTimers (snd (withTimeout promise timeoutMs p s))) = false
  /\ trace (snd (withTimeout promise timeoutMs p s)) = trace s.
Proof.
  assert (Hpending :
    pendingTimers (snd (withTimeout promise timeoutMs p s))
    = removeTimer (nextTimer s) (pendingTimers s)).
  { destruct promise as [c'|]; cbn.
    - now rewrite Nat.eqb_refl.
    - rewrite Nat.eqb_refl. cbn. apply removeTimer_idempotent. }
  split; [reflexivity|]. split; [reflexivity|]. split.
  { eexists. split; [reflexivity|]. split.
    - apply includes_split.
      exists ""%string,
        (" request timed out after " ++ showNumber timeoutMs ++ "ms")%string.
      reflexivity.
    - apply includes_split.
      exists (providerName p ++ " request timed out after ")%string, ""%string.
      now rewrite string_append_nil, string_append_assoc. }
  repeat split.
  - exact Hpending.
  - rewrite Hpending. apply removeTimer_gone.
  - now destruct promise.
Qed.

Lemma withTimeout_race_witness :
  fst (withTimeout (@DeadlineFires string) 20000 openai Sample.listening)
  = Throws
      (Classified
         {| message := Some "openai request timed out after 20000ms";
            classification := Kind timeout |}).
Proof.
  exact (proj1 (proj2 (withTimeout_race (Returns "late"%string) DeadlineFires
                         20000 openai Sample.listening))).
Defined.

(** ** Domain-level errors *)

(** C8, as the claim has it, fails: the message of a structured-validation
    failure is classified [unknown], not [provider]. *)
Lemma structured_failure_not_provider :
  classification
    (classifyError gemini (PlainError "Structured output validation failed"))
  = Kind unknown
  /\ classification
       (classifyError gemini (PlainError "Structured output validation failed"))
     <> Kind provider.
Proof.
  split; [reflexivity | discriminate].
Qed.

(** C8, amended. A missing credential makes [withProviderApiKey] throw
    "<provider> API Key missing", which is classified [auth]; the error
    "No providers available", which the loop throws when it ends without an
    attempt, is classified [provider]; a value the validator refuses makes the
    structured step throw "Structured output validation failed", which is
    classified [unknown]. Each message is kept by the classifier. *)
Theorem domain_errors_classified (T A : Type) (p : AIProvider) :
  (forall (st : Storage) (fn : string -> Completion A),
     truthy (providerKeys (readSecrets st) p) = false ->
     withProviderApiKey st p fn
     = Throws (PlainError (providerName p ++ " API Key missing")%string))
  /\ classifyError p (PlainError (providerName p ++ " API Key missing")%string)
     = {| message := Some (providerName p ++ " API Key missing")%string;
          classification := Kind auth |}
  /\ (forall adapters storage messages (options : SendMessageOptions T) all i s,
        attemptFrom adapters storage messages options all i [] None s
        = (Throws (PlainError "No providers available"), s))
  /\ classifyError p (PlainError "No providers available")
     = {| message := Some "No providers available";
          classification := Kind provider |}
  /\ (forall (options : SendMessageOptions T) parser check txt parsed,
        structured options = Some parser ->
        parse parser txt = Returns parsed ->
        validate parser = Some check ->
        check parsed = Returns false ->
        structuredOutcome options txt
        = Throws (PlainError "Structured output validation failed"))
  /\ classifyError p (PlainError "Structured output validation failed")
     = {| message := Some "Structured output validation failed";
          classification := Kind unknown |}.
Proof.
  repeat split.
  - intros st fn Hkey. unfold withProviderApiKey.
    destruct (providerKeys (readSecrets st) p) as [[|ch key]|];
      [reflexivity | discriminate | reflexivity].
  - destruct p; reflexivity.
  - intros options parser check txt parsed Hs Hp Hv Hc.
    unfold structuredOutcome. now rewrite Hs, Hp, Hv, Hc.
Qed.

Lemma domain_errors_classified_witness :
  withProviderApiKey (Sample.keysFor [gemini]) openai
    (fun key => Returns key)
  = Throws (PlainError "openai API Key missing")
  /\ structuredOutcome Sample.measured "ok"
     = Throws (PlainError "Structured output validation failed").
Proof.
  destruct (domain_errors_classified nat string openai)
    as (Hkey & _ & _ & _ & Hstructured & _).
  split.
  - apply Hkey. reflexivity.
  - eapply Hstructured; reflexivity.
Defined.

(** ** RuntimeEventBus *)

Lemma steps_forEachListener_throws (before : list Listener) (l : Listener)
  (after : list Listener) (ev : ProviderRuntimeEvent) (e : Thrown) :
  quietListeners before ->
  react l ev = Throws e ->
  forall s,
    steps (forEachListener (before ++ l :: after) ev) s (Throws e)
      (deliveries (before ++ [l]) ev).
Proof.
  intros Hq Hl. induction Hq as [|l0 before H0 Hq IH]; intros s.
  - cbn [app forEachListener deliveries map].
    change [Delivered (lid l) ev] with ([Delivered (lid l) ev] ++ []).
    eapply steps_bind; [apply steps_log | intros s1 _].
    apply steps_bind_throws. rewrite Hl. apply steps_settle.
  - cbn [app forEachListener deliveries map].
    change (Delivered (lid l0) ev :: ?rest)
      with ([Delivered (lid l0) ev] ++ [] ++ rest).
    eapply steps_bind; [apply steps_log | intros s1 _].
    eapply steps_bind; [rewrite H0; apply steps_settle | intros s2 _].
    apply IH.
Qed.

(** C9, as the claim has it, fails: of two subscribed listeners the first
    throws, and the second does not receive the event. *)
Lemma emitRuntimeEvent_stops_at_throw :
  let s :=
    subscribeRuntimeEvents Sample.recorder
      (subscribeRuntimeEvents Sample.thrower (initialState [])) in
  map lid (runtimeListeners s) = [1; 2]
  /\ fst (emitRuntimeEvent (healthyEvent gemini) s)
     = Throws (PlainError "listener failed")
  /\ deliveredTo (trace (snd (emitRuntimeEvent (healthyEvent gemini) s))) = [1].
Proof.
  repeat split.
Qed.

(** C9, amended. [emitRuntimeEvent] calls the subscribed listeners one after
    the other in the order of their subscription, inside the call. When all
    of them return, each receives the event once. When one throws, the
    listeners subscribed before it have received the event, the ones
    subscribed after it do not receive it, and what it threw leaves
    [emitRuntimeEvent]. *)
Theorem emitRuntimeEvent_delivery (ev : ProviderRuntimeEvent) (s : State) :
  (quietListeners (runtimeListeners s) ->
   exists new,
     steps (emitRuntimeEvent ev) s (Returns tt) new
     /\ busEvents new = [ev]
     /\ deliveredTo new = map lid (runtimeListeners s))
  /\ (forall before l after e,
        runtimeListeners s = before ++ l :: after ->
        quietListeners before ->
        react l ev = Throws e ->
        exists new,
          steps (emitRuntimeEvent ev) s (Throws e) new
          /\ busEvents new = [ev]
          /\ deliveredTo new = map lid before ++ [lid l]).
Proof.
  split.
  - intros Hq. exists (emitEffects (runtimeListeners s) ev).
    destruct (deliveries_silent (runtimeListeners s) ev) as (Hb & _ & _ & _ & Hd).
    split; [now apply steps_emitRuntimeEvent|].
    unfold emitEffects. cbn [busEvents deliveredTo flat_map app].
    fold (busEvents (deliveries (runtimeListeners s) ev)).
    fold (deliveredTo (deliveries (runtimeListeners s) ev)).
    now rewrite Hb, Hd.
  - intros before l after e Hls Hq Hl.
    exists ([Emitted ev] ++ deliveries (before ++ [l]) ev).
    destruct (deliveries_silent (before ++ [l]) ev) as (Hb & _ & _ & _ & Hd).
    split; [|split].
    + unfold emitRuntimeEvent.
      eapply steps_bind; [apply steps_log | intros s1 H1].
      destruct (@steps_forEachListener_throws before l after ev e Hq Hl s1)
        as (s2 & H2 & Ht & Hl2).
      exists s2. split; [|split; assumption].
      cbv beta. rewrite H1, Hls. exact H2.
    + rewrite busEvents_app, Hb. reflexivity.
    + rewrite deliveredTo_app, Hd, map_app. reflexivity.
Qed.

Lemma emitRuntimeEvent_delivery_witness :
  exists new,
    steps (emitRuntimeEvent (healthyEvent openai))
      (subscribeRuntimeEvents Sample.recorder
         (subscribeRuntimeEvents Sample.thrower
            (subscribeRuntimeEvents {| lid := 0; react := fun _ => Returns tt |}
               (initialState []))))
      (Throws (PlainError "listener failed")) new
    /\ busEvents new = [healthyEvent openai]
    /\ deliveredTo new = [0; 1].
Proof.
  apply (proj2 (emitRuntimeEvent_delivery (healthyEvent openai) _)
           [{| lid := 0; react := fun _ => Returns tt |}]
           Sample.thrower [Sample.recorder]).
  - reflexivity.
  - repeat constructor.
  - reflexivity.
Defined.

(** ** Which providers a run can ask *)

Lemma confined_ret {A} (X : list AIProvider) (a : A) : confined X (ret a).
Proof.
  intros s. exists []. now rewrite app_nil_r.
Qed.

Lemma confined_throw {A} (X : list AIProvider) (e : Thrown) :
  confined X (@throw A e).
Proof.
  intros s. exists []. now rewrite app_nil_r.
Qed.

Lemma confined_settle {A} (X : list AIProvider) (c : Completion A) :
  confined X (settle c).
Proof.
  intros s. exists []. now rewrite app_nil_r.
Qed.

Lemma confined_log (X : list AIProvider) (e : Effect) :
  touches X e -> confined X (log e).
Proof.
  intros He s. exists [e]. split; [reflexivity | now constructor].
Qed.

Lemma confined_bind {A B} (X : list AIProvider) (c : M A) (k : A -> M B) :
  confined X c -> (forall a, confined X (k a)) -> confined X (bind c k).
Proof.
  intros Hc Hk s. destruct (Hc s) as (n1 & Ht1 & Hf1). unfold bind.
  destruct (c s) as [[a|e] s1]; cbn [snd] in *.
  - destruct (Hk a s1) as (n2 & Ht2 & Hf2). exists (n1 ++ n2). split.
    + now rewrite Ht2, Ht1, app_assoc.
    + now apply Forall_app.
  - now exists n1.
Qed.

Lemma confined_tryCatch {A} (X : list AIProvider) (body : M A)
  (handler : Thrown -> M A) :
  confined X body -> (forall e, confined X (handler e)) ->
  confined X (tryCatch body handler).
Proof.
  intros Hc Hk s. destruct (Hc s) as (n1 & Ht1 & Hf1). unfold tryCatch.
  destruct (body s) as [[a|e] s1]; cbn [snd] in *.
  - now exists n1.
  - destruct (Hk e s1) as (n2 & Ht2 & Hf2). exists (n1 ++ n2). split.
    + now rewrite Ht2, Ht1, app_assoc.
    + now apply Forall_app.
Qed.

Lemma confined_mono {A} (X Y : list AIProvider) (c : M A) :
  incl X Y -> confined X c -> confined Y c.
Proof.
  intros Hi Hc s. destruct (Hc s) as (new & Ht & Hf). exists new. split; [exact Ht|].
  eapply Forall_impl; [|exact Hf]. intros [] H; cbn in *; auto.
Qed.

Lemma confined_withTimeout {A} (X : list AIProvider) (promise : Race A)
  (ms : N) (p : AIProvider) : confined X (withTimeout promise ms p).
Proof.
  intros s. exists []. rewrite app_nil_r. split; [now destruct promise | constructor].
Qed.

Lemma confined_forEachListener (X : list AIProvider) (ls : list Listener)
  (ev : ProviderRuntimeEvent) : confined X (forEachListener ls ev).
Proof.
  induction ls as [|l ls IH]; cbn [forEachListener].
  - apply confined_ret.
  - apply confined_bind; [now apply confined_log | intros _].
    apply confined_bind; [apply confined_settle | intros _; exact IH].
Qed.

Lemma confined_emitRuntimeEvent (X : list AIProvider) (ev : ProviderRuntimeEvent) :
  confined X (emitRuntimeEvent ev).
Proof.
  apply confined_bind; [now apply confined_log | intros _ s].
  apply confined_forEachListener.
Qed.

Lemma confined_callOptional {E} (X : list AIProvider)
  (cb : option (E -> Completion unit)) (shown : E -> Effect) (e : E) :
  touches X (shown e) -> confined X (callOptional cb shown e).
Proof.
  intros H. destruct cb as [f|]; cbn [callOptional].
  - apply confined_bind; [now apply confined_log | intros _; apply confined_settle].
  - apply confined_ret.
Qed.

Lemma attempted_confined (X : list AIProvider) (new : list Effect) :
  Forall (touches X) new -> incl (attempted new) X.
Proof.
  induction 1 as [|e new He _ IH]; cbn.
  - intros q [].
  - destruct e; cbn; try exact IH.
    intros q [<-|Hq]; [exact He | now apply IH].
Qed.

Section Confinement.

Variable T : Type.
Variable adapters : list (AIProvider * ProviderAdapter).
Variable storage : Storage.
Variable messages : list Message.
Variable options : SendMessageOptions T.

Lemma confined_announceSwitch (X : list AIProvider) (previous p : AIProvider)
  (lastError : option ClassifiedError) :
  confined X (announceSwitch options previous p lastError).
Proof.
  unfold announceSwitch.
  apply confined_bind; [now apply confined_log | intros _].
  apply confined_bind; [now apply confined_callOptional | intros _].
  apply confined_bind; [now apply confined_callOptional | intros _].
  apply confined_emitRuntimeEvent.
Qed.

Lemma confined_recordFailure (X : list AIProvider) (p : AIProvider)
  (e : ClassifiedError) : confined X (recordFailure options p e).
Proof.
  unfold recordFailure.
  apply confined_bind; [now apply confined_log | intros _].
  apply confined_bind; [now apply confined_callOptional | intros _].
  apply confined_emitRuntimeEvent.
Qed.

Lemma confined_finishResult (X : list AIProvider) (i : nat) (p : AIProvider)
  (txt : string) : confined X (finishResult options i p txt).
Proof.
  unfold finishResult. destruct (structured options) as [parser|].
  - apply confined_bind; [apply confined_settle | intros parsed].
    destruct (validate parser) as [check|].
    + apply confined_bind; [apply confined_settle | intros [|]].
      * apply confined_ret.
      * apply confined_throw.
    + apply confined_ret.
  - apply confined_ret.
Qed.

Lemma confined_attempt (i : nat) (p : AIProvider) (adapter : ProviderAdapter) :
  confined [p] (attempt messages options i p adapter).
Proof.
  unfold attempt.
  apply confined_bind; [apply confined_log; now left | intros _].
  apply confined_bind; [apply confined_withTimeout | intros txt].
  apply confined_bind; [now apply confined_log | intros _].
  apply confined_bind; [now apply confined_callOptional | intros _].
  apply confined_bind; [apply confined_emitRuntimeEvent | intros _].
  apply confined_finishResult.
Qed.

(** Whatever the observers do and however the requests fare, the loop asks
    only providers that are still ahead of it. *)
Lemma confined_attemptFrom (all rest : list AIProvider) :
  forall i lastError,
    confined rest (attemptFrom adapters storage messages options all i rest lastError).
Proof.
  induction rest as [|p rest IH]; intros i lastError; cbn [attemptFrom].
  - apply confined_throw.
  - destruct (mapGet p adapters) as [adapter|].
    + apply confined_bind.
      * destruct (0 <? i)%nat;
          [apply confined_announceSwitch | apply confined_ret].
      * intros _. apply confined_tryCatch.
        -- apply confined_mono with (X := [p]); [|apply confined_attempt].
           intros q [<-|[]]. now left.
        -- intros caught.
           apply confined_bind; [apply confined_recordFailure | intros _].
           destruct (fallbackEnabled storage options && _).
           ++ apply confined_mono with (X := rest); [|apply IH].
              intros q Hq. now right.
           ++ apply confined_throw.
    + apply confined_mono with (X := rest); [|apply IH].
      intros q Hq. now right.
Qed.

End Confinement.

Lemma beginsWith_log {A} (e : Effect) (X : list AIProvider) (k : unit -> M A) :
  confined X (k tt) -> beginsWith e X (bind (log e) k).
Proof.
  intros Hk s. unfold bind. cbn [log].
  match goal with |- context [k tt ?s1] => destruct (Hk s1) as (more & Ht & Hf) end.
  exists more. split; [|exact Hf].
  rewrite Ht. cbn [trace]. now rewrite <- app_assoc.
Qed.

Lemma beginsWith_tryCatch {A} (e : Effect) (X : list AIProvider) (body : M A)
  (handler : Thrown -> M A) :
  beginsWith e X body -> (forall caught, confined X (handler caught)) ->
  beginsWith e X (tryCatch body handler).
Proof.
  intros Hb Hh s. destruct (Hb s) as (n1 & Ht1 & Hf1). unfold tryCatch.
  destruct (body s) as [[a|caught] s1]; cbn [snd] in *.
  - now exists n1.
  - destruct (Hh caught s1) as (n2 & Ht2 & Hf2). exists (n1 ++ n2). split.
    + rewrite Ht2, Ht1, <- app_assoc. reflexivity.
    + now apply Forall_app.
Qed.

Lemma providersToTry_unconfigured_selected (f : AIProvider -> bool)
  (selected : AIProvider) :
  let configured := filter f PROVIDER_ORDER in
  arrayIncludes configured selected = false ->
  configured <> [] ->
  providersToTry configured selected = configured.
Proof.
  unfold providersToTry. rewrite candidates_shape. cbn [PROVIDER_ORDER filter].
  destruct (f gemini), (f openai), (f anthropic), selected;
    cbn; intros Hsel Hne; congruence.
Qed.

(** C10. The selected provider has no usable credential and some provider
    has one. Then the providers tried are the configured ones in the order
    gemini, openai, anthropic, and the selected one is not among them.
    Whatever the observers do and however the requests fare, the first request
    goes to the first configured provider and none goes to the selected one.
    When that first attempt succeeds (the observers returning), the result
    names that provider, which is not the selected one, with
    [fallbackUsed = false], and no switch event reaches the callback or the
    bus. *)
Theorem unconfigured_selection_skipped (T : Type)
  (geminiComplete openaiComplete anthropicComplete : Complete)
  (storage : Storage) (messages : list Message) (options : SendMessageOptions T)
  (first : AIProvider) (others : list AIProvider) (s : State) :
  let selected := selectedProvider storage options in
  let run :=
    sendMessage (newAIService geminiComplete openaiComplete anthropicComplete)
      storage messages options in
  arrayIncludes (getConfiguredProviders storage) selected = false ->
  getConfiguredProviders storage = first :: others ->
  toTry storage options = first :: others
  /\ first :: others
     = filter (arrayIncludes (getConfiguredProviders storage))
         [gemini; openai; anthropic]
  /\ first <> selected
  /\ (exists more,
        trace (snd (run s))
        = trace s ++ Completing first (mergedMessages messages options) :: more
        /\ ~ In selected (attempted more))
  /\ (forall (txt : string) (v : option T),
        quietOptions options ->
        quietListeners (runtimeListeners s) ->
        tryOutcome options
          (completeOf geminiComplete openaiComplete anthropicComplete first
             (mergedMessages messages options))
          (effectiveTimeoutMs options) first
        = Returns (txt, v) ->
        exists new,
          steps run s
            (Returns
               {| text := txt; result_provider := first; result_structured := v;
                  fallbackUsed := false |})
            new
          /\ attempted new = [first]
          /\ countSwitch (busEvents new) = 0
          /\ switchCalls new = []).
Proof.
  intros selected run Hsel Hconf.
  assert (Hall : toTry storage options = first :: others).
  { pose proof
      (@providersToTry_unconfigured_selected
         (fun p =>
            if AIProvider_eqb p gemini && truthy (GEMINI_API_KEY storage)
            then true else truthy (providerKeys (readSecrets storage) p))
         selected) as H.
    change (filter _ PROVIDER_ORDER) with (getConfiguredProviders storage) in H.
    cbv zeta in H. unfold toTry. fold selected.
    rewrite H; [exact Hconf | exact Hsel | rewrite Hconf; discriminate]. }
  assert (Hnin : ~ In selected (first :: others)).
  { rewrite <- Hconf. intros Hin. unfold arrayIncludes in Hsel.
    assert (existsb (AIProvider_eqb selected) (getConfiguredProviders storage) = true)
      as Hex; [|congruence].
    apply existsb_exists. exists selected. split; [exact Hin | now destruct selected]. }
  split; [exact Hall|]. split; [|split; [|split]].
  - rewrite <- Hconf. unfold getConfiguredProviders.
    generalize
      (fun p : AIProvider =>
         if AIProvider_eqb p gemini && truthy (GEMINI_API_KEY storage)
         then true else truthy (providerKeys (readSecrets storage) p)) as f.
    intros f. cbn [filter].
    destruct (f gemini), (f openai), (f anthropic); reflexivity.
  - intros ->. apply Hnin. now left.
  - assert (Hbegin :
      beginsWith (Completing first (mergedMessages messages options))
        (first :: others) run).
    { unfold run, sendMessage. rewrite Hall. cbn [attemptFrom].
      rewrite mapGet_newAIService. cbn [Nat.ltb Nat.leb].
      intros s0. unfold bind at 1. cbn [ret].
      revert s0. apply beginsWith_tryCatch.
      - unfold attempt. apply beginsWith_log.
        apply confined_mono with (X := [first]).
        + intros q [<-|[]]. now left.
        + apply confined_bind; [apply confined_withTimeout | intros txt].
          apply confined_bind; [now apply confined_log | intros _].
          apply confined_bind; [now apply confined_callOptional | intros _].
          apply confined_bind; [apply confined_emitRuntimeEvent | intros _].
          apply confined_finishResult.
      - intros caught.
        apply confined_bind; [apply confined_recordFailure | intros _].
        destruct (fallbackEnabled storage options && _).
        + apply confined_mono with (X := others);
            [intros q Hq; now right | apply confined_attemptFrom].
        + apply confined_throw. }
    destruct (Hbegin s) as (more & Ht & Hf). exists more. split; [exact Ht|].
    intros Hin. apply Hnin. now apply (attempted_confined Hf).
  - intros txt v Hopts Hls Hok.
    destruct (healthyEffects_read options (runtimeListeners s) first)
      as (Hb & Ha & Hs & _).
    exists (openingEffects options (runtimeListeners s) (first :: others) 0 first None
            ++ Completing first (mergedMessages messages options)
               :: healthyEffects options (runtimeListeners s) first).
    split.
    + unfold run, sendMessage. rewrite Hall.
      apply (steps_iteration_returned geminiComplete openaiComplete
               anthropicComplete storage Hopts Hls (first :: others) others None
               (i := 0)); [|reflexivity].
      intros s1 Hs1.
      now apply (attempt_succeeded geminiComplete openaiComplete
                   anthropicComplete messages Hopts Hls 0 first s1 Hok).
    + cbn [openingEffects Nat.ltb Nat.leb app attempted busEvents switchCalls
             flat_map].
      fold (attempted (healthyEffects options (runtimeListeners s) first)).
      fold (busEvents (healthyEffects options (runtimeListeners s) first)).
      fold (switchCalls (healthyEffects options (runtimeListeners s) first)).
      rewrite Ha, Hb, Hs. repeat split.
Qed.

(** ** The scenarios, run *)

Lemma quiet_select (p : AIProvider) (fallback : bool) :
  quietOptions (Sample.select p fallback).
Proof.
  repeat split.
Defined.

Lemma quiet_listening : quietListeners (runtimeListeners Sample.listening).
Proof.
  repeat constructor.
Defined.

Lemma sendMessage_no_fallback_witness :
  exists new,
    steps
      (sendMessage
         (newAIService (Sample.answers "from gemini")
            (Sample.rejects "429 Too Many Requests")
            (Sample.answers "from anthropic"))
         Sample.allKeys Sample.hello (Sample.select openai false))
      Sample.listening
      (Throws
         (Classified
            {| message := Some "429 Too Many Requests";
               classification := Kind rate_limit |}))
      new
    /\ attempted new = [openai]
    /\ countSwitch (busEvents new) = 0
    /\ switchCalls new = [].
Proof.
  apply (@sendMessage_no_fallback string
           (Sample.answers "from gemini")
           (Sample.rejects "429 Too Many Requests")
           (Sample.answers "from anthropic")
           Sample.allKeys Sample.hello (Sample.select openai false)
           openai [gemini; anthropic] (PlainError "429 Too Many Requests")
           Sample.listening (quiet_select openai false) quiet_listening).
  - reflexivity.
  - reflexivity.
  - reflexivity.
Defined.

Lemma unconfigured_selection_skipped_witness :
  toTry (Sample.keysFor [openai; anthropic]) (Sample.select gemini true)
  = [openai; anthropic]
  /\ exists new,
       steps
         (sendMessage
            (newAIService (Sample.answers "from gemini")
               (Sample.answers "from openai")
               (Sample.answers "from anthropic"))
            (Sample.keysFor [openai; anthropic]) Sample.hello
            (Sample.select gemini true))
         Sample.listening
         (Returns
            {| text := "from openai"; result_provider := openai;
               result_structured := None; fallbackUsed := false |})
         new
       /\ attempted new = [openai]
       /\ countSwitch (busEvents new) = 0
       /\ switchCalls new = [].
Proof.
  destruct
    (@unconfigured_selection_skipped string
       (Sample.answers "from gemini") (Sample.answers "from openai")
       (Sample.answers "from anthropic")
       (Sample.keysFor [openai; anthropic]) Sample.hello
       (Sample.select gemini true) openai [anthropic] Sample.listening
       eq_refl eq_refl)
    as (Hall & _ & _ & _ & Hrun).
  split; [exact Hall|].
  exact (Hrun "from openai"%string None (quiet_select gemini true)
           quiet_listening eq_refl).
Defined.

(** A text that the validator refuses: the request of gemini has succeeded,
    so its health is first reported [healthy] and then [error]; the switch
    carries the reason "unknown", and the result comes from openai. *)
Example refused_text_falls_back :
  let run :=
    sendMessage
      (newAIService (Sample.answers "ok") (Sample.answers "fine")
         (Sample.answers "from anthropic"))
      Sample.allKeys Sample.hello Sample.measured Sample.listening in
  fst run
  = Returns
      {| text := "fine"; result_provider := openai;
         result_structured := Some 4; fallbackUsed := true |}
  /\ busEvents (trace (snd run))
     = [ provider_health
           {| hprovider := gemini; health := healthy; detail := None |};
         provider_health
           {| hprovider := gemini; health := error;
              detail := Some "Structured output validation failed" |};
         provider_switch {| from := gemini; to := openai; reason := "unknown" |};
         provider_health
           {| hprovider := openai; health := healthy; detail := None |} ]
  /\ deliveredTo (trace (snd run)) = [2; 2; 2; 2]
  /\ pendingTimers (snd run) = [].
Proof.
  repeat split.
Qed.

(** * Further properties *)

(** ** Relations every step of a call respects *)

Section Respecting.

Variable R : State -> State -> Prop.
Variable allowed : Effect -> Prop.

Hypothesis R_refl : forall s, R s s.
Hypothesis R_trans : forall a b c, R a b -> R b c -> R a c.
Hypothesis R_log : forall e s, allowed e -> R s (snd (log e s)).
Hypothesis R_deliver :
  forall l ev s, In l (runtimeListeners s) ->
                 R s (snd (log (Delivered (lid l) ev) s)).
Hypothesis R_timeout :
  forall (promise : Race string) ms p s, R s (snd (withTimeout promise ms p s)).

Lemma respects_ret {A} (a : A) : respects R (ret a).
Proof. intros s. apply R_refl. Qed.

Lemma respects_throw {A} (e : Thrown) : respects R (@throw A e).
Proof. intros s. apply R_refl. Qed.

Lemma respects_settle {A} (c : Completion A) : respects R (settle c).
Proof. intros s. apply R_refl. Qed.

Lemma respects_log (e : Effect) : allowed e -> respects R (log e).
Proof. intros He s. now apply R_log. Qed.

Lemma respects_bind {A B} (c : M A) (k : A -> M B) :
  respects R c -> (forall a, respects R (k a)) -> respects R (bind c k).
Proof.
  intros Hc Hk s. specialize (Hc s). unfold bind.
  destruct (c s) as [[a|e] s1]; cbn [snd] in *.
  - eapply R_trans; [exact Hc | apply Hk].
  - exact Hc.
Qed.

Lemma respects_tryCatch {A} (body : M A) (handler : Thrown -> M A) :
  respects R body -> (forall e, respects R (handler e)) ->
  respects R (tryCatch body handler).
Proof.
  intros Hc Hk s. specialize (Hc s). unfold tryCatch.
  destruct (body s) as [[a|e] s1]; cbn [snd] in *.
  - exact Hc.
  - eapply R_trans; [exact Hc | apply Hk].
Qed.

Lemma respects_forEachListener (ev : ProviderRuntimeEvent) (ls : list Listener) :
  forall s, incl ls (runtimeListeners s) -> R s (snd (forEachListener ls ev s)).
Proof.
  induction ls as [|l ls IH]; intros s Hin; cbn [forEachListener].
  - apply R_refl.
  - assert (Hl : In l (runtimeListeners s)) by (apply Hin; now left).
    pose proof (R_deliver l ev s Hl) as H1.
    unfold bind at 1. cbn [log snd] in *.
    set (s1 := {| trace := trace s ++ [Delivered (lid l) ev];
                  nextTimer := nextTimer s;
                  pendingTimers := pendingTimers s;
                  runtimeListeners := runtimeListeners s |}) in *.
    unfold bind, settle. destruct (react l ev) as [[]|e]; cbn [snd].
    + eapply R_trans; [exact H1 | apply IH].
      intros l' Hl'. apply Hin. now right.
    + exact H1.
Qed.

Lemma respects_emitRuntimeEvent (ev : ProviderRuntimeEvent) :
  allowed (Emitted ev) -> respects R (emitRuntimeEvent ev).
Proof.
  intros He. apply respects_bind; [now apply respects_log | intros _ s].
  apply respects_forEachListener. intros l Hl. exact Hl.
Qed.

Lemma respects_callOptional {E} (cb : option (E -> Completion unit))
  (shown : E -> Effect) (e : E) :
  allowed (shown e) -> respects R (callOptional cb shown e).
Proof.
  intros He. destruct cb as [f|]; cbn [callOptional].
  - apply respects_bind; [now apply respects_log | intros _; apply respects_settle].
  - apply respects_ret.
Qed.

Variable T : Type.
Variable adapters : list (AIProvider * ProviderAdapter).
Variable storage : Storage.
Variable messages : list Message.
Variable options : SendMessageOptions T.

Hypothesis allowed_callbacks :
  (forall e, allowed (OnProviderSwitch e))
  /\ (forall line, allowed (OnProviderEvent line))
  /\ (forall e, allowed (OnProviderHealth e)).
Hypothesis allowed_health_events :
  forall e, allowed (Emitted (provider_health e)).

Lemma respects_announceSwitch (previous p : AIProvider)
  (lastError : option ClassifiedError) :
  (forall e, allowed (ConsoleInfo e) /\ allowed (Emitted (provider_switch e))) ->
  respects R (announceSwitch options previous p lastError).
Proof.
  intros Hc. destruct allowed_callbacks as (Hs & He & _). unfold announceSwitch.
  pose proof (fun e => proj1 (Hc e)) as Hc1.
  pose proof (fun e => proj2 (Hc e)) as Hc2.
  apply respects_bind; [now apply respects_log | intros _].
  apply respects_bind; [now apply respects_callOptional | intros _].
  apply respects_bind; [now apply respects_callOptional | intros _].
  now apply respects_emitRuntimeEvent.
Qed.

Lemma respects_recordFailure (p : AIProvider) (e : ClassifiedError) :
  allowed (SavedHealth p (failureHealth e)) ->
  respects R (recordFailure options p e).
Proof.
  intros Hs. destruct allowed_callbacks as (_ & _ & Hh). unfold recordFailure.
  apply respects_bind; [now apply respects_log | intros _].
  apply respects_bind; [now apply respects_callOptional | intros _].
  now apply respects_emitRuntimeEvent.
Qed.

Lemma respects_finishResult (i : nat) (p : AIProvider) (txt : string) :
  respects R (finishResult options i p txt).
Proof.
  unfold finishResult. destruct (structured options) as [parser|].
  - apply respects_bind; [apply respects_settle | intros parsed].
    destruct (validate parser) as [check|].
    + apply respects_bind; [apply respects_settle | intros [|]].
      * apply respects_ret.
      * apply respects_throw.
    + apply respects_ret.
  - apply respects_ret.
Qed.

Lemma respects_attempt (i : nat) (p : AIProvider) (adapter : ProviderAdapter) :
  allowed (Completing p (mergedMessages messages options)) ->
  allowed (SavedHealth p healthy) ->
  respects R (attempt messages options i p adapter).
Proof.
  intros Hc Hs. destruct allowed_callbacks as (_ & _ & Hh). unfold attempt.
  apply respects_bind; [now apply respects_log | intros _].
  apply respects_bind; [intros s; apply R_timeout | intros txt].
  apply respects_bind; [now apply respects_log | intros _].
  apply respects_bind; [now apply respects_callOptional | intros _].
  apply respects_bind; [now apply respects_emitRuntimeEvent | intros _].
  apply respects_finishResult.
Qed.

Lemma respects_attemptFrom (all rest : list AIProvider) :
  (forall e, allowed (ConsoleInfo e) /\ allowed (Emitted (provider_switch e))) ->
  (forall q, In q rest ->
     allowed (Completing q (mergedMessages messages options))
     /\ forall h, h <> degraded -> allowed (SavedHealth q h)) ->
  forall i lastError,
    respects R (attemptFrom adapters storage messages options all i rest lastError).
Proof.
  intros Hc. induction rest as [|p rest IH]; intros Hrest i lastError;
    cbn [attemptFrom].
  - apply respects_throw.
  - assert (Hnext : forall j le,
              respects R (attemptFrom adapters storage messages options all j rest le)).
    { apply IH. intros q Hq. apply Hrest. now right. }
    destruct (Hrest p (or_introl eq_refl)) as (Hp & Hh).
    destruct (mapGet p adapters) as [adapter|]; [|apply Hnext].
    apply respects_bind.
    + destruct (0 <? i)%nat;
        [now apply respects_announceSwitch | apply respects_ret].
    + intros _. apply respects_tryCatch.
      * apply respects_attempt; [exact Hp | apply Hh; discriminate].
      * intros caught.
        apply respects_bind.
        -- apply respects_recordFailure. apply Hh. unfold failureHealth.
           destruct (isAuth _); discriminate.
        -- intros _. destruct (fallbackEnabled storage options && _).
           ++ apply Hnext.
           ++ apply respects_throw.
Qed.

End Respecting.

(** ** Orderly calls *)

Lemma removeTimer_subset (id t : nat) (timers : list nat) :
  In t (removeTimer id timers) -> In t timers.
Proof.
  unfold removeTimer. intros H. now apply filter_In in H.
Qed.

Lemma removeTimer_fresh (id : nat) (timers : list nat) :
  Forall (fun t => t < id) timers -> removeTimer id timers = timers.
Proof.
  unfold removeTimer. induction 1 as [|t timers Ht _ IH]; simpl.
  - reflexivity.
  - replace (t =? id)%nat with false by (symmetry; apply Nat.eqb_neq; lia).
    simpl. now rewrite IH.
Qed.

Lemma orderly_refl (X : list AIProvider) (conversation : list Message)
  (s : State) : orderly X conversation s s.
Proof.
  repeat split; auto. exists []. split; [now rewrite app_nil_r | constructor].
Qed.

Lemma orderly_trans (X : list AIProvider) (conversation : list Message)
  (a b c : State) :
  orderly X conversation a b -> orderly X conversation b c ->
  orderly X conversation a c.
Proof.
  intros (Hl1 & (n1 & Ht1 & Hf1) & Hn1 & Hp1 & He1)
         (Hl2 & (n2 & Ht2 & Hf2) & Hn2 & Hp2 & He2).
  repeat split.
  - congruence.
  - exists (n1 ++ n2). split.
    + now rewrite Ht2, Ht1, app_assoc.
    + apply Forall_app. split; [exact Hf1 | now rewrite <- Hl1].
  - lia.
  - auto.
  - intros Hfresh. rewrite He2, He1; auto.
    rewrite He1 by exact Hfresh.
    eapply Forall_impl; [|exact Hfresh]. cbv beta. intros t Ht. lia.
Qed.

Lemma orderly_log (X : list AIProvider) (conversation : list Message)
  (e : Effect) (s : State) :
  sound X conversation (runtimeListeners s) e ->
  orderly X conversation s (snd (log e s)).
Proof.
  intros He. cbn. repeat split; auto.
  exists [e]. split; [reflexivity | now constructor].
Qed.

Lemma orderly_withTimeout (X : list AIProvider) (conversation : list Message)
  (promise : Race string) (ms : N) (p : AIProvider) (s : State) :
  orderly X conversation s (snd (withTimeout promise ms p s)).
Proof.
  assert (Hp : pendingTimers (snd (withTimeout promise ms p s))
               = removeTimer (nextTimer s) (pendingTimers s)).
  { destruct promise as [c|]; cbn.
    - now rewrite Nat.eqb_refl.
    - rewrite Nat.eqb_refl. cbn. apply removeTimer_idempotent. }
  repeat split.
  - now destruct promise.
  - exists []. rewrite app_nil_r. split; [now destruct promise | constructor].
  - destruct promise; cbn; lia.
  - intros t. rewrite Hp. apply removeTimer_subset.
  - intros Hfresh. rewrite Hp. now apply removeTimer_fresh.
Qed.

(** The effects [sendMessage] may log for the providers [X], apart from
    deliveries. *)
Lemma orderly_sendMessage (T : Type)
  (adapters : list (AIProvider * ProviderAdapter)) (storage : Storage)
  (messages : list Message) (options : SendMessageOptions T) (s : State) :
  orderly (toTry storage options) (mergedMessages messages options) s
    (snd (sendMessage adapters storage messages options s)).
Proof.
  set (X := toTry storage options).
  set (conversation := mergedMessages messages options).
  apply (@respects_attemptFrom (orderly X conversation)
           (fun e => match e with
                     | Delivered _ _ => False
                     | _ => forall ls, sound X conversation ls e
                     end)).
  - apply orderly_refl.
  - apply orderly_trans.
  - intros e s1 He. apply orderly_log. destruct e; try apply He; contradiction.
  - intros l ev s1 Hl. apply orderly_log. cbn. now apply in_map.
  - intros promise ms p s1. apply orderly_withTimeout.
  - repeat split.
  - intros e ls. exact I.
  - intros e. split; intros ls; exact I.
  - intros q Hq. split.
    + intros ls. now split.
    + intros h Hh ls. now split.
Qed.

Lemma sound_deliveries (X : list AIProvider) (conversation : list Message)
  (ls : list Listener) (new : list Effect) :
  Forall (sound X conversation ls) new ->
  incl (deliveredTo new) (map lid ls).
Proof.
  induction 1 as [|e new He _ IH]; cbn.
  - intros l [].
  - destruct e; cbn; try exact IH.
    intros l [<-|Hl]; [exact He | now apply IH].
Qed.

Lemma sound_requests (X : list AIProvider) (conversation : list Message)
  (ls : list Listener) (new : list Effect) :
  Forall (sound X conversation ls) new ->
  forall q m, In (Completing q m) new -> In q X /\ m = conversation.
Proof.
  intros H q m Hin. rewrite Forall_forall in H. exact (H _ Hin).
Qed.

Lemma sound_savedHealth (X : list AIProvider) (conversation : list Message)
  (ls : list Listener) (new : list Effect) :
  Forall (sound X conversation ls) new ->
  forall q h, In (q, h) (savedHealth new) -> In q X /\ h <> degraded.
Proof.
  induction 1 as [|e new He _ IH]; cbn; intros q h Hin.
  - contradiction.
  - destruct e; cbn in Hin; try (now apply IH).
    destruct Hin as [[= <- <-]|Hin]; [exact He | now apply IH].
Qed.

Lemma recordedHealth_unsaved (new : list Effect) (q : AIProvider) :
  (forall h, ~ In (q, h) (savedHealth new)) -> recordedHealth new q = None.
Proof.
  induction new as [|e new IH]; cbn; intros Hq; [reflexivity|].
  rewrite IH.
  - destruct e; try reflexivity.
    destruct (AIProvider_eqb p q) eqn:E; [|reflexivity].
    exfalso. apply (Hq h). cbn. left. now destruct p, q.
  - intros h Hin. apply (Hq h). destruct e; cbn; auto.
Qed.

Lemma orderly_emitRuntimeEvent (X : list AIProvider)
  (conversation : list Message) (ev : ProviderRuntimeEvent) (s : State) :
  orderly X conversation s (snd (emitRuntimeEvent ev s)).
Proof.
  apply (@respects_emitRuntimeEvent (orderly X conversation)
           (fun e => match e with
                     | Delivered _ _ => False
                     | _ => forall ls, sound X conversation ls e
                     end)).
  - apply orderly_refl.
  - apply orderly_trans.
  - intros e s1 He. apply orderly_log. destruct e; try apply He; contradiction.
  - intros l ev' s1 Hl. apply orderly_log. cbn. now apply in_map.
  - intros ls. exact I.
Qed.

(** ** Timers *)

(** X1. Whatever the adapters, the callbacks and the listeners do, and
    however the call ends, [sendMessage] leaves pending no timer that was not
    pending before; when the pending timers are older than the next timer id
    (as they are in a process that only sets timers through [setTimeout]),
    the pending timers after the call are those before it. *)
Theorem sendMessage_clears_its_timers (T : Type)
  (adapters : list (AIProvider * ProviderAdapter)) (storage : Storage)
  (messages : list Message) (options : SendMessageOptions T) (s : State) :
  let s' := snd (sendMessage adapters storage messages options s) in
  (forall t, In t (pendingTimers s') -> In t (pendingTimers s))
  /\ (Forall (fun t => t < nextTimer s) (pendingTimers s) ->
      pendingTimers s' = pendingTimers s).
Proof.
  destruct (orderly_sendMessage adapters storage messages options s)
    as (_ & _ & _ & Hsub & Heq).
  split; assumption.
Qed.

Lemma sendMessage_clears_its_timers_witness :
  pendingTimers
    (snd (sendMessage (newAIService Sample.hangs Sample.hangs Sample.hangs)
            Sample.allKeys Sample.hello (Sample.select gemini true)
            Sample.waiting))
  = [0].
Proof.
  apply (proj2 (sendMessage_clears_its_timers
                  (newAIService Sample.hangs Sample.hangs Sample.hangs)
                  Sample.allKeys Sample.hello (Sample.select gemini true)
                  Sample.waiting)).
  repeat constructor.
Defined.

(** ** What a call asks and writes *)

(** X2. Every request of a call, to whichever provider and at whichever
    point of the fallback, carries the same conversation: the messages of the
    caller in their order, preceded by one system message when the options
    give a system prompt that is not empty, and unchanged otherwise; and it
    goes to a provider of the list tried. *)
Theorem sendMessage_same_conversation (T : Type)
  (adapters : list (AIProvider * ProviderAdapter)) (storage : Storage)
  (messages : list Message) (options : SendMessageOptions T) (s : State) :
  exists new,
    trace (snd (sendMessage adapters storage messages options s)) = trace s ++ new
    /\ forall q m,
         In (Completing q m) new ->
         In q (toTry storage options)
         /\ m = match systemPrompt options with
                | Some (String c rest) =>
                    {| role := system; content := String c rest |} :: messages
                | _ => messages
                end.
Proof.
  destruct (orderly_sendMessage adapters storage messages options s)
    as (_ & (new & Ht & Hf) & _).
  exists new. split; [exact Ht|]. intros q m Hin.
  destruct (sound_requests Hf q m Hin) as (Hq & ->). split; [exact Hq|].
  unfold mergedMessages. now destruct (systemPrompt options) as [[|c rest]|].
Qed.

(** X3. A call saves health only for providers of the list it tries, and
    never the health [degraded]; the health recorded for any other provider
    is after the call what it was before. *)
Theorem sendMessage_health_writes (T : Type)
  (adapters : list (AIProvider * ProviderAdapter)) (storage : Storage)
  (messages : list Message) (options : SendMessageOptions T) (s : State) :
  exists new,
    trace (snd (sendMessage adapters storage messages options s)) = trace s ++ new
    /\ (forall q h, In (q, h) (savedHealth new) ->
                    In q (toTry storage options) /\ h <> degraded)
    /\ (forall q, ~ In q (toTry storage options) ->
                  recordedHealth
                    (trace (snd (sendMessage adapters storage messages options s))) q
                  = recordedHealth (trace s) q).
Proof.
  destruct (orderly_sendMessage adapters storage messages options s)
    as (_ & (new & Ht & Hf) & _).
  exists new. split; [exact Ht|]. split.
  - exact (sound_savedHealth Hf).
  - intros q Hq. rewrite Ht, recordedHealth_app, recordedHealth_unsaved;
      [reflexivity|].
    intros h Hin. apply Hq. exact (proj1 (sound_savedHealth Hf q h Hin)).
Qed.

Lemma sendMessage_health_writes_witness :
  recordedHealth
    (trace
       (snd (sendMessage
               (newAIService (Sample.answers "from gemini")
                  (Sample.answers "from openai") (Sample.answers "from anthropic"))
               (Sample.keysFor [openai]) Sample.hello (Sample.select openai true)
               Sample.listening)))
    gemini
  = None.
Proof.
  destruct (sendMessage_health_writes
              (newAIService (Sample.answers "from gemini")
                 (Sample.answers "from openai") (Sample.answers "from anthropic"))
              (Sample.keysFor [openai]) Sample.hello (Sample.select openai true)
              Sample.listening)
    as (new & _ & _ & H).
  apply H. cbn. intros [H0|[]]. discriminate.
Defined.

(** ** Subscriptions *)

Lemma hasListener_In (l : Listener) (ls : list Listener) :
  hasListener l ls = true <-> In (lid l) (map lid ls).
Proof.
  unfold hasListener. rewrite existsb_exists, in_map_iff. split.
  - intros (l' & Hin & Heq). exists l'. split; [now apply Nat.eqb_eq | exact Hin].
  - intros (l' & Heq & Hin). exists l'. split; [exact Hin | now apply Nat.eqb_eq].
Qed.

Lemma unsubscribed_absent (l : Listener) (ls : list Listener) :
  ~ In (lid l) (map lid (filter (fun l' => negb (lid l' =? lid l)%nat) ls)).
Proof.
  rewrite in_map_iff. intros (l' & Heq & Hin).
  apply filter_In in Hin. destruct Hin as (_ & Hne).
  rewrite Heq, Nat.eqb_refl in Hne. discriminate.
Qed.

(** X4. Once the function returned by [subscribeRuntimeEvents] has run, its
    listener receives no event any more: neither an event published on the
    bus nor any of the events a later [sendMessage] produces, whatever the
    other listeners, the callbacks and the adapters do. *)
Theorem unsubscribed_listener_receives_nothing (T : Type)
  (adapters : list (AIProvider * ProviderAdapter)) (storage : Storage)
  (messages : list Message) (options : SendMessageOptions T)
  (l : Listener) (ev : ProviderRuntimeEvent) (s : State) :
  (exists new,
     trace (snd (emitRuntimeEvent ev (unsubscribe l s)))
     = trace (unsubscribe l s) ++ new
     /\ ~ In (lid l) (deliveredTo new))
  /\ (exists new,
        trace (snd (sendMessage adapters storage messages options (unsubscribe l s)))
        = trace (unsubscribe l s) ++ new
        /\ ~ In (lid l) (deliveredTo new)).
Proof.
  split.
  - destruct (orderly_emitRuntimeEvent [] [] ev (unsubscribe l s))
      as (_ & (new & Ht & Hf) & _).
    exists new. split; [exact Ht|]. intros Hin.
    apply (sound_deliveries Hf) in Hin. now apply unsubscribed_absent in Hin.
  - destruct (orderly_sendMessage adapters storage messages options
                (unsubscribe l s)) as (_ & (new & Ht & Hf) & _).
    exists new. split; [exact Ht|]. intros Hin.
    apply (sound_deliveries Hf) in Hin. now apply unsubscribed_absent in Hin.
Qed.

(** X5. The listener set holds no listener twice: subscribing a listener
    that is subscribed already changes nothing, so a second subscription does
    not make it receive an event twice; subscribing a new one puts it after
    all the others; and listeners with distinct identities stay distinct. *)
Theorem subscribe_is_idempotent (l : Listener) (s : State) :
  subscribeRuntimeEvents l (subscribeRuntimeEvents l s)
  = subscribeRuntimeEvents l s
  /\ (hasListener l (runtimeListeners s) = false ->
      runtimeListeners (subscribeRuntimeEvents l s) = runtimeListeners s ++ [l])
  /\ (NoDup (map lid (runtimeListeners s)) ->
      NoDup (map lid (runtimeListeners (subscribeRuntimeEvents l s)))).
Proof.
  unfold subscribeRuntimeEvents.
  destruct (hasListener l (runtimeListeners s)) eqn:Hhas.
  - rewrite Hhas. repeat split; [discriminate | auto].
  - repeat split.
    + cbn [withListeners runtimeListeners].
      replace (hasListener l (runtimeListeners s ++ [l])) with true; [reflexivity|].
      symmetry. apply hasListener_In. rewrite map_app. apply in_or_app. right.
      now left.
    + intros Hnd. cbn [withListeners runtimeListeners]. rewrite map_app.
      apply NoDup_app; [exact Hnd | repeat constructor; intros [] |].
      intros id Hin [<-|[]].
      apply hasListener_In in Hin. congruence.
Qed.

Lemma subscribe_is_idempotent_witness :
  runtimeListeners (subscribeRuntimeEvents Sample.thrower Sample.listening)
  = [Sample.recorder; Sample.thrower]
  /\ NoDup
       (map lid
          (runtimeListeners
             (subscribeRuntimeEvents Sample.thrower Sample.listening))).
Proof.
  destruct (subscribe_is_idempotent Sample.thrower Sample.listening)
    as (_ & Hnew & Hnd).
  split.
  - apply Hnew. reflexivity.
  - apply Hnd. repeat constructor; cbn; intuition.
Defined.

(** X6. Unsubscribing undoes a subscription: for a listener that was not
    subscribed, subscribing and then unsubscribing gives back the state as it
    was. For a listener that was subscribed already, the function returned by
    the second subscription removes it altogether. *)
Theorem unsubscribe_undoes_subscribe (l : Listener) (s : State) :
  (hasListener l (runtimeListeners s) = false ->
   unsubscribe l (subscribeRuntimeEvents l s) = s)
  /\ hasListener l (runtimeListeners (unsubscribe l (subscribeRuntimeEvents l s)))
     = false.
Proof.
  split.
  - intros Hfresh. unfold subscribeRuntimeEvents. rewrite Hfresh.
    unfold unsubscribe, withListeners. cbn [runtimeListeners trace nextTimer
      pendingTimers].
    rewrite filter_app. cbn [filter]. rewrite Nat.eqb_refl. cbn [negb].
    rewrite app_nil_r.
    replace (filter _ (runtimeListeners s)) with (runtimeListeners s);
      [now destruct s|].
    symmetry. apply forallb_filter_id. apply forallb_forall. intros l' Hin.
    destruct (lid l' =? lid l)%nat eqn:E; [|reflexivity].
    exfalso. assert (hasListener l (runtimeListeners s) = true); [|congruence].
    apply hasListener_In. apply Nat.eqb_eq in E. rewrite <- E.
    now apply in_map.
  - destruct (hasListener l _) eqn:E; [|reflexivity].
    apply hasListener_In in E. now apply unsubscribed_absent in E.
Qed.

Lemma unsubscribe_undoes_subscribe_witness :
  unsubscribe Sample.thrower (subscribeRuntimeEvents Sample.thrower Sample.listening)
  = Sample.listening.
Proof.
  apply (proj1 (unsubscribe_undoes_subscribe Sample.thrower Sample.listening)).
  reflexivity.
Defined.

(** ** The order of the requests *)

Lemma confined_nil_attempted {A} (c : M A) :
  confined [] c ->
  forall s, exists new,
    trace (snd (c s)) = trace s ++ new /\ attempted new = [].
Proof.
  intros Hc s. destruct (Hc s) as (new & Ht & Hf). exists new. split; [exact Ht|].
  pose proof (attempted_confined Hf) as Hi.
  destruct (attempted new) as [|q l]; [reflexivity|].
  destruct (Hi q (or_introl eq_refl)).
Qed.

Lemma attempt_asks_once (T : Type) (messages : list Message)
  (options : SendMessageOptions T) (i : nat) (p : AIProvider)
  (adapter : ProviderAdapter) (s : State) :
  exists new,
    trace (snd (attempt messages options i p adapter s)) = trace s ++ new
    /\ attempted new = [p].
Proof.
  assert (Hb : beginsWith (Completing p (mergedMessages messages options)) []
                 (attempt messages options i p adapter)).
  { unfold attempt. apply beginsWith_log.
    apply confined_bind; [apply confined_withTimeout | intros txt].
    apply confined_bind; [now apply confined_log | intros _].
    apply confined_bind; [now apply confined_callOptional | intros _].
    apply confined_bind; [apply confined_emitRuntimeEvent | intros _].
    apply confined_finishResult. }
  destruct (Hb s) as (more & Ht & Hf). eexists. split; [exact Ht|].
  cbn [attempted flat_map]. fold (attempted more).
  pose proof (attempted_confined Hf) as Hi.
  destruct (attempted more) as [|q l]; [reflexivity|].
  destruct (Hi q (or_introl eq_refl)).
Qed.

Lemma attemptFrom_asks_prefix (T : Type)
  (geminiComplete openaiComplete anthropicComplete : Complete)
  (storage : Storage) (messages : list Message) (options : SendMessageOptions T)
  (all rest : list AIProvider) :
  forall i lastError s,
  exists new k,
    trace
      (snd (attemptFrom
              (newAIService geminiComplete openaiComplete anthropicComplete)
              storage messages options all i rest lastError s))
    = trace s ++ new
    /\ attempted new = firstn k rest.
Proof.
  induction rest as [|p rest IH]; intros i lastError s; cbn [attemptFrom].
  - exists [], 0. now rewrite app_nil_r.
  - rewrite mapGet_newAIService.
    set (opening := if (0 <? i)%nat then _ else _).
    assert (Ho : confined [] opening).
    { unfold opening. destruct (0 <? i)%nat;
        [apply confined_announceSwitch | apply confined_ret]. }
    destruct (confined_nil_attempted Ho s) as (n0 & Ht0 & Ha0).
    unfold bind at 1. destruct (opening s) as [[[]|e0] s0]; cbn [snd] in *.
    2:{ exists n0, 0. split; [exact Ht0 | exact Ha0]. }
    unfold tryCatch.
    match goal with
    | |- context [attempt messages options i p ?a s0] =>
        destruct (attempt_asks_once messages options i p a s0) as (n1 & Ht1 & Ha1);
        destruct (attempt messages options i p a s0) as [[r|caught] s1]
    end; cbn [snd] in *.
    1:{ exists (n0 ++ n1), 1. split.
        - now rewrite Ht1, Ht0, app_assoc.
        - now rewrite attempted_app, Ha0, Ha1. }
    destruct (confined_nil_attempted
                (confined_recordFailure options [] p (classifyError p caught)) s1)
      as (n2 & Ht2 & Ha2).
    unfold bind at 1.
    destruct (recordFailure options p (classifyError p caught) s1)
      as [[[]|e2] s2]; cbn [snd] in *.
    2:{ exists (n0 ++ n1 ++ n2), 1. split.
        - now rewrite Ht2, Ht1, Ht0, !app_assoc.
        - now rewrite !attempted_app, Ha0, Ha1, Ha2. }
    destruct (fallbackEnabled storage options && _).
    + destruct (IH (S i) (Some (classifyError p caught)) s2)
        as (n3 & k & Ht3 & Ha3).
      exists (n0 ++ n1 ++ n2 ++ n3), (S k). split.
      * now rewrite Ht3, Ht2, Ht1, Ht0, !app_assoc.
      * rewrite !attempted_app, Ha0, Ha1, Ha2, Ha3. reflexivity.
    + exists (n0 ++ n1 ++ n2), 1. cbn [throw snd]. split.
      * now rewrite Ht2, Ht1, Ht0, !app_assoc.
      * now rewrite !attempted_app, Ha0, Ha1, Ha2.
Qed.

Lemma firstn_NoDup (k : nat) (l : list AIProvider) :
  NoDup l -> NoDup (firstn k l).
Proof.
  revert k. induction l as [|x l IH]; intros k Hnd.
  - now rewrite firstn_nil.
  - destruct k as [|k]; cbn; [constructor|].
    inversion Hnd as [|? ? Hx Hl]; subst. constructor; [|now apply IH].
    intros Hin. apply Hx. revert Hin. clear.
    revert k. induction l as [|y l IH]; intros k; destruct k; cbn; try tauto.
    intros [->|Hin]; [now left | right; eauto].
Qed.

(** X7. Whatever the adapters, the callbacks and the listeners do, the
    providers a call asks are an initial stretch of the list it tries, in that
    order and without a gap: the first provider of the list is always asked,
    no provider is asked twice, and none is asked before the one ahead of it
    in the list has been. *)
Theorem sendMessage_asks_in_order (T : Type)
  (geminiComplete openaiComplete anthropicComplete : Complete)
  (storage : Storage) (messages : list Message) (options : SendMessageOptions T)
  (s : State) :
  exists new k,
    trace
      (snd (sendMessage
              (newAIService geminiComplete openaiComplete anthropicComplete)
              storage messages options s))
    = trace s ++ new
    /\ attempted new = firstn k (toTry storage options)
    /\ 1 <= k
    /\ NoDup (attempted new).
Proof.
  destruct (attemptFrom_asks_prefix geminiComplete openaiComplete
              anthropicComplete storage messages options
              (toTry storage options) (toTry storage options) 0 None s)
    as (new & k & Ht & Ha).
  exists new, k. split; [exact Ht|]. split; [exact Ha|]. split.
  - destruct k as [|k]; [|lia]. exfalso.
    revert Ht Ha. unfold sendMessage.
    pose proof (@providersToTry_nonempty (getConfiguredProviders storage)
                  (selectedProvider storage options)) as Hne.
    fold (toTry storage options) in Hne.
    destruct (toTry storage options) as [|p rest] eqn:Hall; [congruence|].
    cbn [attemptFrom]. rewrite mapGet_newAIService. cbn [Nat.ltb Nat.leb].
    unfold bind at 1. cbn [ret]. unfold tryCatch.
    match goal with
    | |- context [attempt messages options 0 p ?a s] =>
        destruct (attempt_asks_once messages options 0 p a s) as (n1 & Ht1 & Ha1);
        destruct (attempt messages options 0 p a s) as [[r|caught] s1]
    end; cbn [snd] in *.
    + intros Ht Ha. rewrite Ht1 in Ht. apply app_inv_head in Ht. subst n1.
      rewrite Ha in Ha1. discriminate.
    + match goal with
      | |- context [snd (?h s1)] =>
          assert (Hh : exists n2, trace (snd (h s1)) = trace s1 ++ n2)
      end.
      { unfold bind at 1.
        destruct (confined_recordFailure options [] p (classifyError p caught) s1)
          as (n2 & Ht2 & _).
        destruct (recordFailure options p (classifyError p caught) s1)
          as [[[]|e2] s2]; cbn [snd] in *; [|now exists n2].
        destruct (fallbackEnabled storage options && _).
        - destruct (attemptFrom_asks_prefix geminiComplete openaiComplete
                      anthropicComplete storage messages options (p :: rest)
                      rest 1 (Some (classifyError p caught)) s2)
            as (n3 & _ & Ht3 & _).
          exists (n2 ++ n3). now rewrite Ht3, Ht2, app_assoc.
        - exists n2. exact Ht2. }
      destruct Hh as (n2 & Ht2). intros Ht Ha.
      rewrite Ht2, Ht1, <- app_assoc in Ht. apply app_inv_head in Ht. subst new.
      rewrite attempted_app, Ha1 in Ha. discriminate.
  - rewrite Ha. apply firstn_NoDup.
    apply providersToTry_NoDup.
Qed.

(** ** Calls without fallback *)

Lemma grows_refl (P : Effect -> Prop) (s : State) : grows P s s.
Proof.
  exists []. split; [now rewrite app_nil_r | constructor].
Qed.

Lemma grows_trans (P : Effect -> Prop) (a b c : State) :
  grows P a b -> grows P b c -> grows P a c.
Proof.
  intros (n1 & Ht1 & Hf1) (n2 & Ht2 & Hf2). exists (n1 ++ n2). split.
  - now rewrite Ht2, Ht1, app_assoc.
  - now apply Forall_app.
Qed.

Lemma grows_log (P : Effect -> Prop) (e : Effect) (s : State) :
  P e -> grows P s (snd (log e s)).
Proof.
  intros He. exists [e]. split; [reflexivity | now constructor].
Qed.

Lemma grows_withTimeout (P : Effect -> Prop) (promise : Race string) (ms : N)
  (p : AIProvider) (s : State) :
  grows P s (snd (withTimeout promise ms p s)).
Proof.
  exists []. rewrite app_nil_r. split; [now destruct promise | constructor].
Qed.

Lemma tryCatch_log_first {A} (e : Effect) (k : unit -> M A)
  (handler : Thrown -> M A) (s : State) :
  tryCatch (bind (log e) k) handler s = tryCatch (k tt) handler (snd (log e s)).
Proof.
  reflexivity.
Qed.

Lemma calm_read (new : list Effect) :
  Forall calm new ->
  attempted new = [] /\ switchCalls new = [] /\ countSwitch (busEvents new) = 0.
Proof.
  induction 1 as [|e new He _ (Ha & Hs & Hc)]; [repeat split|].
  destruct e as [| | | | | |ev|]; cbn in He; try contradiction; cbn;
    try (repeat split; assumption).
  destruct ev; [contradiction|]. repeat split; assumption.
Qed.

(** X8. With fallback disabled, whatever the adapters, the callbacks and the
    listeners do and however the call ends, exactly one provider is asked (the
    first of the list tried), and nothing of a switch happens: no console
    line, no call of [onProviderSwitch] or [onProviderEvent], no switch event
    on the bus. *)
Theorem no_fallback_asks_once (T : Type)
  (geminiComplete openaiComplete anthropicComplete : Complete)
  (storage : Storage) (messages : list Message) (options : SendMessageOptions T)
  (p : AIProvider) (rest : list AIProvider) (s : State) :
  fallbackEnabled storage options = false ->
  toTry storage options = p :: rest ->
  exists more,
    trace
      (snd (sendMessage
              (newAIService geminiComplete openaiComplete anthropicComplete)
              storage messages options s))
    = trace s ++ Completing p (mergedMessages messages options) :: more
    /\ Forall calm more
    /\ attempted more = []
    /\ switchCalls more = []
    /\ countSwitch (busEvents more) = 0.
Proof.
  intros Hfb Hall. unfold sendMessage. rewrite Hall. cbn [attemptFrom].
  rewrite mapGet_newAIService, Hfb. cbn [Nat.ltb Nat.leb andb].
  change (bind (ret tt) ?k s) with (k tt s). cbv beta.
  unfold attempt. rewrite tryCatch_log_first.
  set (s1 := snd (log (Completing p (mergedMessages messages options)) s)).
  match goal with
  | |- context [snd (tryCatch ?body ?handler s1)] =>
      assert (Hr : respects (grows calm) (tryCatch body handler))
  end.
  { assert (Hemit : forall e, respects (grows calm)
                                (emitRuntimeEvent (provider_health e))).
    { intros e.
      apply (@respects_emitRuntimeEvent (grows calm) calm);
        [apply grows_refl | apply grows_trans | intros; now apply grows_log
        | intros; now apply grows_log | exact I]. }
    assert (Hcall : forall e, respects (grows calm)
                                (callOptional (onProviderHealth options)
                                   OnProviderHealth e)).
    { intros e.
      apply (@respects_callOptional (grows calm) calm);
        [apply grows_refl | apply grows_trans | intros; now apply grows_log
        | exact I]. }
    assert (Hbind : forall A B (c : M A) (k : A -> M B),
              respects (grows calm) c ->
              (forall a, respects (grows calm) (k a)) ->
              respects (grows calm) (bind c k)).
    { intros A B c k. apply respects_bind. apply grows_trans. }
    apply respects_tryCatch; [apply grows_trans | |].
    - apply Hbind; [intros s0; apply grows_withTimeout | intros txt].
      apply Hbind; [intros s0; now apply grows_log | intros _].
      apply Hbind; [apply Hcall | intros _].
      apply Hbind; [apply Hemit | intros _].
      apply (@respects_finishResult (grows calm));
        [apply grows_refl | apply grows_trans].
    - intros caught. unfold recordFailure.
      apply Hbind; [|intros _ s0; apply grows_refl].
      apply Hbind; [intros s0; now apply grows_log | intros _].
      apply Hbind; [apply Hcall | intros _]. apply Hemit. }
  destruct (Hr s1) as (more & Ht & Hf). exists more. split.
  - rewrite Ht. unfold s1. cbn [log snd trace]. now rewrite <- app_assoc.
  - split; [exact Hf | now apply calm_read].
Qed.

Lemma no_fallback_asks_once_witness :
  exists more,
    trace
      (snd (sendMessage
              (newAIService (Sample.rejects "boom") Sample.hangs
                 (Sample.answers "from anthropic"))
              Sample.allKeys Sample.hello (Sample.select openai false)
              Sample.listening))
    = trace Sample.listening
      ++ Completing openai
           (mergedMessages Sample.hello (Sample.select openai false))
         :: more
    /\ Forall calm more
    /\ attempted more = []
    /\ switchCalls more = []
    /\ countSwitch (busEvents more) = 0.
Proof.
  apply (@no_fallback_asks_once string (Sample.rejects "boom") Sample.hangs
           (Sample.answers "from anthropic") Sample.allKeys Sample.hello
           (Sample.select openai false) openai [gemini; anthropic]
           Sample.listening); reflexivity.
Defined.

(** ** Calls whose observers return *)

Section QuietRuns.

Variable T : Type.
Variables geminiComplete openaiComplete anthropicComplete : Complete.
Variable storage : Storage.
Variable messages : list Message.
Variable options : SendMessageOptions T.
Variable ls : list Listener.

Hypothesis observers_return : quietOptions options.
Hypothesis listeners_return : quietListeners ls.

Let conversation := mergedMessages messages options.
Let ms := effectiveTimeoutMs options.
Let promise (p : AIProvider) : Race string :=
  completeOf geminiComplete openaiComplete anthropicComplete p conversation.
Let run := runFrom geminiComplete openaiComplete anthropicComplete storage
             messages options ls.

(** The loop does what [runFrom] says. *)
Lemma steps_runFrom (all rest : list AIProvider) :
  forall i lastError s,
    runtimeListeners s = ls ->
    steps
      (attemptFrom (newAIService geminiComplete openaiComplete anthropicComplete)
         storage messages options all i rest lastError)
      s (fst (run all i rest lastError)) (snd (run all i rest lastError)).
Proof.
  induction rest as [|p rest IH]; intros i lastError s Hs.
  - cbn. apply steps_throw.
  - unfold run. cbn [runFrom]. fold run. fold conversation. fold ms.
    fold (promise p). unfold tryOutcome.
    destruct (raceOutcome (promise p) ms p) as [txt|caught] eqn:Hr.
    + pose proof (fun j s0 H0 =>
                    @steps_attempt_settled T geminiComplete openaiComplete
                      anthropicComplete messages options ls observers_return
                      listeners_return j p txt s0 H0 Hr) as Hsettled.
      destruct (structuredOutcome options txt) as [v|caught] eqn:Hv.
      * cbn [fst snd triedEffects].
        apply (steps_iteration_returned geminiComplete openaiComplete
                 anthropicComplete storage observers_return listeners_return);
          [|exact Hs].
        intros s0 H0. exact (Hsettled i s0 H0).
      * destruct (fallbackEnabled storage options && _) eqn:Hcan;
          cbn [fst snd triedEffects];
          apply (steps_iteration_failed geminiComplete openaiComplete
                   anthropicComplete storage observers_return listeners_return
                   all rest lastError (caught := caught));
          try exact Hs; try (intros s0 H0; exact (Hsettled i s0 H0));
          intros s0 H0; rewrite Hcan; [now apply IH | apply steps_throw].
    + pose proof (fun j s0 =>
                    @steps_attempt_rejected T geminiComplete openaiComplete
                      anthropicComplete messages options j p caught s0 Hr)
        as Hrejected.
      destruct (fallbackEnabled storage options && _) eqn:Hcan;
        cbn [fst snd triedEffects];
        apply (steps_iteration_failed geminiComplete openaiComplete
                 anthropicComplete storage observers_return listeners_return
                 all rest lastError (caught := caught));
        try exact Hs; try (intros s0 H0; exact (Hrejected i s0));
        intros s0 H0; rewrite Hcan; [now apply IH | apply steps_throw].
Qed.

End QuietRuns.

Lemma skipn_cons_length (all : list AIProvider) (i : nat) (p : AIProvider)
  (rest : list AIProvider) :
  skipn i all = p :: rest ->
  List.length all = i + S (List.length rest)
  /\ nth_error all i = Some p
  /\ nth i all gemini = p
  /\ skipn (S i) all = rest.
Proof.
  revert i. induction all as [|x all IH]; intros i H.
  - destruct i; discriminate.
  - destruct i as [|i]; cbn in H.
    + injection H as -> ->. repeat split.
    + destruct (IH i H) as (Hl & Hn & Hd & Hs). cbn. repeat split; auto.
Qed.

Section RunCases.

Variable T : Type.
Variables geminiComplete openaiComplete anthropicComplete : Complete.
Variable storage : Storage.
Variable messages : list Message.
Variable options : SendMessageOptions T.
Variable ls : list Listener.
Variable all : list AIProvider.

Let conversation := mergedMessages messages options.
Let ms := effectiveTimeoutMs options.
Let promise (p : AIProvider) : Race string :=
  completeOf geminiComplete openaiComplete anthropicComplete p conversation.
Let outcome (p : AIProvider) : Completion (string * option T) :=
  tryOutcome options (promise p) ms p.
Let tried (p : AIProvider) : list Effect :=
  triedEffects options ls conversation p (raceOutcome (promise p) ms p).
Let run := runFrom geminiComplete openaiComplete anthropicComplete storage
             messages options ls all.

Variable Q : nat -> list AIProvider -> option ClassifiedError ->
             Completion (SendMessageResult T) * list Effect -> Prop.

Hypothesis Q_returned :
  forall i p rest lastError txt v,
    skipn i all = p :: rest ->
    outcome p = Returns (txt, v) ->
    Q i (p :: rest) lastError
      (Returns {| text := txt; result_provider := p; result_structured := v;
                  fallbackUsed := (0 <? i)%nat |},
       openingEffects options ls all i p lastError ++ tried p).

Hypothesis Q_rejected :
  forall i p rest lastError caught,
    skipn i all = p :: rest ->
    outcome p = Throws caught ->
    fallbackEnabled storage options = false \/ rest = [] ->
    Q i (p :: rest) lastError
      (Throws (Classified (classifyError p caught)),
       openingEffects options ls all i p lastError
       ++ (tried p ++ failureEffects options ls p (classifyError p caught) ++ [])).

Hypothesis Q_continued :
  forall i p q rest lastError caught out more,
    skipn i all = p :: q :: rest ->
    outcome p = Throws caught ->
    fallbackEnabled storage options = true ->
    Q (S i) (q :: rest) (Some (classifyError p caught)) (out, more) ->
    Q i (p :: q :: rest) lastError
      (out,
       openingEffects options ls all i p lastError
       ++ (tried p ++ failureEffects options ls p (classifyError p caught) ++ more)).

(** Induction over the iterations of a call. *)
Lemma runFrom_cases (rest : list AIProvider) :
  forall i lastError,
    rest <> [] -> skipn i all = rest -> Q i rest lastError (run i rest lastError).
Proof.
  induction rest as [|p rest IH]; intros i lastError Hne Hskip; [congruence|].
  destruct (skipn_cons_length all i Hskip) as (Hlen & _ & _ & Hnext).
  unfold run. cbn [runFrom]. fold run. fold conversation. fold ms.
  fold (promise p). fold (tried p). fold (outcome p).
  destruct (outcome p) as [[txt v]|caught] eqn:Ho.
  - now apply Q_returned.
  - destruct (fallbackEnabled storage options) eqn:Hfb; cbn [andb].
    + destruct rest as [|q rest].
      * replace (i <? List.length all - 1)%nat with false
          by (symmetry; apply Nat.ltb_ge; cbn in Hlen; lia).
        apply Q_rejected; auto.
      * replace (i <? List.length all - 1)%nat with true
          by (symmetry; apply Nat.ltb_lt; cbn in Hlen; lia).
        apply Q_continued; auto.
        rewrite <- surjective_pairing. apply IH; [discriminate | exact Hnext].
    + apply Q_rejected; auto.
Qed.

End RunCases.

Lemma triedEffects_read (T : Type) (options : SendMessageOptions T)
  (ls : list Listener) (conversation : list Message) (p : AIProvider)
  (req : Completion string) :
  let new := triedEffects options ls conversation p req in
  attempted new = [p]
  /\ switchCalls new = []
  /\ busEvents new
     = match req with Returns _ => [healthyEvent p] | Throws _ => [] end
  /\ (forall q, recordedHealth new q
                = match req with
                  | Returns _ => if AIProvider_eqb p q then Some healthy else None
                  | Throws _ => None
                  end).
Proof.
  unfold triedEffects. destruct req as [txt|e]; cbv zeta.
  - destruct (healthyEffects_read options ls p) as (Hb & Ha & Hs & Hr).
    change (Completing p conversation :: healthyEffects options ls p)
      with ([Completing p conversation] ++ healthyEffects options ls p).
    rewrite attempted_app, switchCalls_app, busEvents_app, Ha, Hs, Hb.
    repeat split. intros q. rewrite recordedHealth_app, Hr.
    now destruct (AIProvider_eqb p q).
  - repeat split.
Qed.

Lemma last_app_nonempty {A} (l1 l2 : list A) (d : A) :
  l2 <> [] -> last (l1 ++ l2) d = last l2 d.
Proof.
  intros Hne. induction l1 as [|x l1 IH]; [reflexivity|].
  cbn [app]. rewrite <- IH.
  destruct (l1 ++ l2) eqn:E; [|reflexivity].
  apply app_eq_nil in E. tauto.
Qed.

Lemma NoDup_nth_error_hd (l : list AIProvider) (j : nat) (x : AIProvider) :
  NoDup l -> nth_error l j = Some x ->
  AIProvider_eqb x (hd gemini l) = (j =? 0)%nat.
Proof.
  intros Hnd Hj. destruct l as [|y l]; [destruct j; discriminate|].
  destruct j as [|j]; cbn in *.
  - injection Hj as ->. now destruct x.
  - inversion Hnd as [|? ? Hy _]; subst.
    destruct (AIProvider_eqb x y) eqn:E; [|reflexivity].
    exfalso. apply Hy. apply nth_error_In in Hj.
    now destruct x, y.
Qed.

(** A call whose observers return is the run [runFrom] describes. *)
Lemma sendMessage_runs (T : Type)
  (geminiComplete openaiComplete anthropicComplete : Complete)
  (storage : Storage) (messages : list Message) (options : SendMessageOptions T)
  (s : State) :
  quietOptions options ->
  quietListeners (runtimeListeners s) ->
  let all := toTry storage options in
  let run :=
    runFrom geminiComplete openaiComplete anthropicComplete storage messages
      options (runtimeListeners s) all 0 all None in
  steps
    (sendMessage (newAIService geminiComplete openaiComplete anthropicComplete)
       storage messages options)
    s (fst run) (snd run).
Proof.
  intros Hopts Hls all run.
  now apply (steps_runFrom geminiComplete openaiComplete anthropicComplete
               storage messages Hopts Hls).
Qed.

Lemma toTry_nonempty (T : Type) (storage : Storage)
  (options : SendMessageOptions T) : toTry storage options <> [].
Proof.
  apply providersToTry_nonempty.
Qed.

Lemma toTry_NoDup (T : Type) (storage : Storage)
  (options : SendMessageOptions T) : NoDup (toTry storage options).
Proof.
  apply providersToTry_NoDup.
Qed.

(** X9. In a call whose callbacks and listeners return, the bus gets one
    switch event less than providers are asked; and when the call returns, its
    result names the provider asked last, with [fallbackUsed] set exactly when
    more than one provider was asked, which is exactly when the provider of
    the result is not the first of the list tried. *)
Theorem quiet_run_accounting (T : Type)
  (geminiComplete openaiComplete anthropicComplete : Complete)
  (storage : Storage) (messages : list Message) (options : SendMessageOptions T)
  (s : State) :
  quietOptions options ->
  quietListeners (runtimeListeners s) ->
  exists out new,
    steps
      (sendMessage (newAIService geminiComplete openaiComplete anthropicComplete)
         storage messages options)
      s out new
    /\ 1 <= List.length (attempted new)
    /\ countSwitch (busEvents new) = List.length (attempted new) - 1
    /\ forall r,
         out = Returns r ->
         nth_error (toTry storage options) (List.length (attempted new) - 1)
         = Some (result_provider r)
         /\ fallbackUsed r = (1 <? List.length (attempted new))%nat
         /\ fallbackUsed r
            = negb (AIProvider_eqb (result_provider r)
                      (hd gemini (toTry storage options))).
Proof.
  intros Hopts Hls.
  set (all := toTry storage options).
  set (run := runFrom geminiComplete openaiComplete anthropicComplete storage
                messages options (runtimeListeners s) all).
  assert (H : forall rest i lastError,
            rest <> [] -> skipn i all = rest ->
            let out := fst (run i rest lastError) in
            let new := snd (run i rest lastError) in
            1 <= List.length (attempted new)
            /\ countSwitch (busEvents new) + (if (0 <? i)%nat then 0 else 1)
               = List.length (attempted new)
            /\ forall r,
                 out = Returns r ->
                 nth_error all (i + List.length (attempted new) - 1)
                 = Some (result_provider r)
                 /\ fallbackUsed r
                    = (0 <? i + List.length (attempted new) - 1)%nat).
  { intros rest i lastError.
    apply (@runFrom_cases T geminiComplete openaiComplete anthropicComplete
             storage messages options (runtimeListeners s) all
             (fun i rest lastError x =>
                1 <= List.length (attempted (snd x))
                /\ countSwitch (busEvents (snd x))
                   + (if (0 <? i)%nat then 0 else 1)
                   = List.length (attempted (snd x))
                /\ forall r,
                     fst x = Returns r ->
                     nth_error all (i + List.length (attempted (snd x)) - 1)
                     = Some (result_provider r)
                     /\ fallbackUsed r
                        = (0 <? i + List.length (attempted (snd x)) - 1)%nat)).
    - intros j p rest0 le txt v Hskip Hout. cbn [fst snd].
      destruct (openingEffects_read options (runtimeListeners s) all j p le)
        as (Hob & Hoa & _).
      match goal with
      | |- context [triedEffects ?o ?l ?c ?q ?r] =>
          destruct (triedEffects_read o l c q r) as (Hta & _ & Htb & _)
      end.
      rewrite attempted_app, busEvents_app, countSwitch_app, Hoa, Hta, Hob, Htb.
      cbn [app List.length]. repeat split.
      + lia.
      + destruct (0 <? j)%nat;
          match goal with |- context [raceOutcome ?a ?b ?c] =>
            destruct (raceOutcome a b c) end; reflexivity.
      + injection H as <-. cbn. replace (j + 1 - 1) with j by lia.
        exact (proj1 (proj2 (skipn_cons_length all j Hskip))).
      + injection H as <-. cbn. now replace (j + 1 - 1) with j by lia.
    - intros j p rest0 le caught Hskip Hout Hstop. cbn [fst snd].
      destruct (openingEffects_read options (runtimeListeners s) all j p le)
        as (Hob & Hoa & _).
      destruct (failureEffects_read options (runtimeListeners s) p
                  (classifyError p caught)) as (Hfb & Hfa & _).
      match goal with
      | |- context [triedEffects ?o ?l ?c ?q ?r] =>
          destruct (triedEffects_read o l c q r) as (Hta & _ & Htb & _)
      end.
      rewrite app_nil_r, !attempted_app, !busEvents_app, !countSwitch_app,
        Hoa, Hta, Hfa, Hob, Htb, Hfb.
      cbn [app List.length]. repeat split; try discriminate.
      + lia.
      + destruct (0 <? j)%nat;
          match goal with |- context [raceOutcome ?a ?b ?c] =>
            destruct (raceOutcome a b c) end; reflexivity.
    - intros j p q rest0 le caught out more Hskip Hout Hfb (Hm1 & Hm2 & Hm3).
      cbn [fst snd] in *.
      destruct (openingEffects_read options (runtimeListeners s) all j p le)
        as (Hob & Hoa & _).
      destruct (failureEffects_read options (runtimeListeners s) p
                  (classifyError p caught)) as (Hfb' & Hfa & _).
      match goal with
      | |- context [triedEffects ?o ?l ?c ?q ?r] =>
          destruct (triedEffects_read o l c q r) as (Hta & _ & Htb & _)
      end.
      rewrite !attempted_app, !busEvents_app, !countSwitch_app,
        Hoa, Hta, Hfa, Hob, Htb, Hfb'.
      cbn [app List.length]. cbn [Nat.ltb Nat.leb] in Hm2.
      repeat split.
      + lia.
      + rewrite <- Hm2.
        destruct (0 <? j)%nat;
          match goal with |- context [raceOutcome ?a ?b ?c] =>
            destruct (raceOutcome a b c) end; cbn; lia.
      + destruct (Hm3 r H) as (Hn & _).
        now replace (j + S (List.length (attempted more)) - 1)
          with (S j + List.length (attempted more) - 1) by lia.
      + destruct (Hm3 r H) as (_ & Hf).
        now replace (j + S (List.length (attempted more)) - 1)
          with (S j + List.length (attempted more) - 1) by lia. }
  specialize (H all 0 None (toTry_nonempty storage options) eq_refl).
  cbv zeta in H. destruct H as (H1 & H2 & H3).
  exists (fst (run 0 all None)), (snd (run 0 all None)).
  split; [now apply sendMessage_runs|]. split; [exact H1|]. split; [cbn in H2; lia|].
  intros r Hr. destruct (H3 r Hr) as (Hn & Hf). cbn [Nat.add] in Hn, Hf.
  split; [exact Hn|]. split.
  - rewrite Hf. destruct (List.length (attempted (snd (run 0 all None))))
      as [|[|n]]; reflexivity.
  - pose proof (NoDup_nth_error_hd _ (toTry_NoDup storage options) Hn) as Hhd.
    fold all in Hhd. fold all. rewrite Hhd, Hf.
    destruct (List.length (attempted (snd (run 0 all None)))) as [|[|n]];
      reflexivity.
Qed.

Lemma steps_deterministic {A} (c : M A) (s : State) (o1 o2 : Completion A)
  (n1 n2 : list Effect) :
  steps c s o1 n1 -> steps c s o2 n2 -> o1 = o2 /\ n1 = n2.
Proof.
  intros (s1 & H1 & Ht1 & _) (s2 & H2 & Ht2 & _).
  rewrite H1 in H2. injection H2 as <- <-. split; [reflexivity|].
  rewrite Ht1 in Ht2. now apply app_inv_head in Ht2.
Qed.

(** X10. When a call whose callbacks and listeners return is rejected, what
    it throws is always the classified error of the provider asked last: the
    unclassified error "No providers available" never leaves [sendMessage].
    The last event on the bus is the health event of that provider, and its
    detail is the message of the rejection. *)
Theorem quiet_run_rejection (T : Type)
  (geminiComplete openaiComplete anthropicComplete : Complete)
  (storage : Storage) (messages : list Message) (options : SendMessageOptions T)
  (s : State) (thrown : Thrown) (new : list Effect) :
  quietOptions options ->
  quietListeners (runtimeListeners s) ->
  steps
    (sendMessage (newAIService geminiComplete openaiComplete anthropicComplete)
       storage messages options)
    s (Throws thrown) new ->
  exists p caught,
    last (attempted new) gemini = p
    /\ tryOutcome options
         (completeOf geminiComplete openaiComplete anthropicComplete p
            (mergedMessages messages options))
         (effectiveTimeoutMs options) p
       = Throws caught
    /\ thrown = Classified (classifyError p caught)
    /\ last (busEvents new) (healthyEvent gemini)
       = provider_health
           {| hprovider := p;
              health :=
                if isAuth (classification (classifyError p caught))
                then unconfigured else error;
              detail := message (classifyError p caught) |}.
Proof.
  intros Hopts Hls Hsteps.
  set (all := toTry storage options).
  set (ls := runtimeListeners s) in *.
  pose proof
    (@runFrom_cases T geminiComplete openaiComplete anthropicComplete
       storage messages options ls all
       (fun i rest lastError x =>
          attempted (snd x) <> []
          /\ forall t,
               fst x = Throws t ->
               busEvents (snd x) <> []
               /\ exists caught,
                    tryOutcome options
                      (completeOf geminiComplete openaiComplete anthropicComplete
                         (last (attempted (snd x)) gemini)
                         (mergedMessages messages options))
                      (effectiveTimeoutMs options)
                      (last (attempted (snd x)) gemini)
                    = Throws caught
                    /\ t = Classified
                             (classifyError (last (attempted (snd x)) gemini) caught)
                    /\ last (busEvents (snd x)) (healthyEvent gemini)
                       = failureEvent (last (attempted (snd x)) gemini)
                           (classifyError (last (attempted (snd x)) gemini)
                              caught))) as Hcases.
  cbn [fst snd] in Hcases.
  unshelve epose proof (Hcases _ _ _) as Hrun; clear Hcases.
  - intros j p rest0 le txt v Hskip Hout.
    destruct (openingEffects_read options ls all j p le) as (_ & Hoa & _).
    match goal with
    | |- context [triedEffects ?o ?l ?c ?q ?r] =>
        destruct (triedEffects_read o l c q r) as (Hta & _)
    end.
    rewrite attempted_app, Hoa, Hta. split; [discriminate | discriminate].
  - intros j p rest0 le caught Hskip Hout Hstop.
    destruct (openingEffects_read options ls all j p le) as (_ & Hoa & _).
    destruct (failureEffects_read options ls p (classifyError p caught))
      as (Hfb & Hfa & _).
    match goal with
    | |- context [triedEffects ?o ?l ?c ?q ?r] =>
        destruct (triedEffects_read o l c q r) as (Hta & _)
    end.
    rewrite app_nil_r, !attempted_app, !busEvents_app, Hoa, Hta, Hfa, Hfb.
    cbn [app last]. split; [discriminate|]. intros t [= <-].
    rewrite !app_assoc. split.
    + intros E. apply app_eq_nil in E. destruct E; discriminate.
    + exists caught. rewrite last_last. auto.
  - intros j p q rest0 le caught out more Hskip Hout Hfb (Hne & Hmore).
    destruct (openingEffects_read options ls all j p le) as (_ & Hoa & _).
    destruct (failureEffects_read options ls p (classifyError p caught))
      as (_ & Hfa & _).
    match goal with
    | |- context [triedEffects ?o ?l ?c ?q ?r] =>
        destruct (triedEffects_read o l c q r) as (Hta & _)
    end.
    rewrite !attempted_app, Hoa, Hta, Hfa. cbn [app].
    change (p :: attempted more) with ([p] ++ attempted more).
    rewrite (last_app_nonempty [p] gemini Hne).
    split; [intros E; apply app_eq_nil in E; destruct E; discriminate|].
    intros t Ht. destruct (Hmore t Ht) as (Hbus & caught' & H1 & H2 & H3).
    rewrite !app_assoc, busEvents_app, (last_app_nonempty _ _ Hbus).
    split.
    + intros E. apply app_eq_nil in E. tauto.
    + exists caught'. auto.
  - specialize (Hrun all 0 None (toTry_nonempty storage options) eq_refl).
    destruct Hrun as (_ & Hrej).
    pose proof (sendMessage_runs geminiComplete openaiComplete anthropicComplete
                  storage messages s Hopts Hls) as Hsteps'.
    cbv zeta in Hsteps'. fold all in Hsteps'. fold ls in Hsteps'.
    destruct (steps_deterministic Hsteps Hsteps') as (Ho & Hn).
    symmetry in Ho. destruct (Hrej thrown Ho) as (_ & caught & H1 & H2 & H3).
    rewrite <- Hn in *.
    exists (last (attempted new) gemini), caught. auto.
Qed.

(** ** Callbacks and bus *)

Lemma healthCalls_app (a b : list Effect) :
  healthCalls (a ++ b) = healthCalls a ++ healthCalls b.
Proof. apply flat_map_app. Qed.

Lemma healthCalls_deliveries (ls : list Listener) (ev : ProviderRuntimeEvent) :
  healthCalls (deliveries ls ev) = [].
Proof.
  induction ls as [|l ls IH]; [reflexivity | exact IH].
Qed.

Section Mirror.

Variable T : Type.
Variable options : SendMessageOptions T.
Variable ls : list Listener.

Lemma mirrored_nil : mirrored options [].
Proof.
  split; cbn; [now destruct (onProviderSwitch options)
              | now destruct (onProviderHealth options)].
Qed.

Lemma mirrored_app (a b : list Effect) :
  mirrored options a -> mirrored options b -> mirrored options (a ++ b).
Proof.
  intros (Hs1 & Hh1) (Hs2 & Hh2). unfold mirrored, busSwitches, busHealths.
  rewrite switchCalls_app, healthCalls_app, busEvents_app, !flat_map_app,
    Hs1, Hs2, Hh1, Hh2.
  split; [now destruct (onProviderSwitch options)
         | now destruct (onProviderHealth options)].
Qed.

Lemma mirrored_emitted_health (e : ProviderHealthEvent) :
  mirrored options
    (callEffects (onProviderHealth options) OnProviderHealth e
     ++ emitEffects ls (provider_health e)).
Proof.
  destruct (deliveries_silent ls (provider_health e)) as (Hb & _ & Hs & _).
  unfold mirrored, emitEffects.
  rewrite switchCalls_app, healthCalls_app, busEvents_app.
  destruct (onProviderHealth options), (onProviderSwitch options);
    cbn [callEffects switchCalls healthCalls busEvents flat_map app];
    fold (switchCalls (deliveries ls (provider_health e)));
    fold (healthCalls (deliveries ls (provider_health e)));
    fold (busEvents (deliveries ls (provider_health e)));
    rewrite ?Hb, ?Hs, ?healthCalls_deliveries; split; reflexivity.
Qed.

Lemma mirrored_silent (e : Effect) (new : list Effect) :
  match e with
  | Completing _ _ | SavedHealth _ _ | ConsoleInfo _ => True
  | _ => False
  end ->
  mirrored options new -> mirrored options (e :: new).
Proof.
  intros He Hm. change (e :: new) with ([e] ++ new).
  apply mirrored_app; [|exact Hm].
  destruct e; try contradiction; apply mirrored_nil.
Qed.

Lemma mirrored_switchEffects (previous p : AIProvider)
  (lastError : option ClassifiedError) :
  mirrored options (switchEffects options ls previous p lastError).
Proof.
  unfold switchEffects. apply mirrored_silent; [exact I|].
  set (ev := switchEvent previous p lastError).
  destruct (deliveries_silent ls (provider_switch ev)) as (Hb & _ & Hs & _).
  unfold mirrored, emitEffects.
  rewrite !switchCalls_app, !healthCalls_app, !busEvents_app.
  destruct (onProviderHealth options), (onProviderSwitch options),
    (onProviderEvent options);
    cbn [callEffects switchCalls healthCalls busEvents flat_map app];
    fold (switchCalls (deliveries ls (provider_switch ev)));
    fold (healthCalls (deliveries ls (provider_switch ev)));
    fold (busEvents (deliveries ls (provider_switch ev)));
    rewrite ?Hb, ?Hs, ?healthCalls_deliveries; split; reflexivity.
Qed.

Lemma mirrored_failureEffects (p : AIProvider) (e : ClassifiedError) :
  mirrored options (failureEffects options ls p e).
Proof.
  unfold failureEffects. apply mirrored_silent; [exact I|].
  apply mirrored_emitted_health.
Qed.

Lemma mirrored_healthyEffects (p : AIProvider) :
  mirrored options (healthyEffects options ls p).
Proof.
  unfold healthyEffects. apply mirrored_silent; [exact I|].
  apply mirrored_emitted_health.
Qed.

Lemma mirrored_openingEffects (all : list AIProvider) (i : nat) (p : AIProvider)
  (lastError : option ClassifiedError) :
  mirrored options (openingEffects options ls all i p lastError).
Proof.
  unfold openingEffects. destruct (0 <? i)%nat;
    [apply mirrored_switchEffects | apply mirrored_nil].
Qed.

Lemma mirrored_triedEffects (conversation : list Message) (p : AIProvider)
  (req : Completion string) :
  mirrored options (triedEffects options ls conversation p req).
Proof.
  unfold triedEffects. apply mirrored_silent; [exact I|].
  destruct req; [apply mirrored_healthyEffects | apply mirrored_nil].
Qed.

End Mirror.

(** X11. In a call whose callbacks and listeners return, the callbacks of
    the options see what the bus sees: [onProviderSwitch], when given, is
    called with exactly the switch events published on the bus, in the same
    order, and [onProviderHealth] with exactly the health events. *)
Theorem callbacks_mirror_bus (T : Type)
  (geminiComplete openaiComplete anthropicComplete : Complete)
  (storage : Storage) (messages : list Message) (options : SendMessageOptions T)
  (s : State) (out : Completion (SendMessageResult T)) (new : list Effect) :
  quietOptions options ->
  quietListeners (runtimeListeners s) ->
  steps
    (sendMessage (newAIService geminiComplete openaiComplete anthropicComplete)
       storage messages options)
    s out new ->
  switchCalls new
  = match onProviderSwitch options with
    | Some _ => busSwitches (busEvents new)
    | None => []
    end
  /\ healthCalls new
     = match onProviderHealth options with
       | Some _ => busHealths (busEvents new)
       | None => []
       end.
Proof.
  intros Hopts Hls Hsteps.
  set (all := toTry storage options).
  set (ls := runtimeListeners s) in *.
  pose proof
    (@runFrom_cases T geminiComplete openaiComplete anthropicComplete
       storage messages options ls all
       (fun i rest lastError x => mirrored options (snd x))) as Hcases.
  cbn [snd] in Hcases.
  unshelve epose proof (Hcases _ _ _) as Hrun; clear Hcases.
  - intros. apply mirrored_app;
      [apply mirrored_openingEffects | apply mirrored_triedEffects].
  - intros. apply mirrored_app; [apply mirrored_openingEffects|].
    apply mirrored_app; [apply mirrored_triedEffects|].
    apply mirrored_app; [apply mirrored_failureEffects | apply mirrored_nil].
  - intros. apply mirrored_app; [apply mirrored_openingEffects|].
    apply mirrored_app; [apply mirrored_triedEffects|].
    apply mirrored_app; [apply mirrored_failureEffects | assumption].
  - specialize (Hrun all 0 None (toTry_nonempty storage options) eq_refl).
    pose proof (sendMessage_runs geminiComplete openaiComplete anthropicComplete
                  storage messages s Hopts Hls) as Hsteps'.
    cbv zeta in Hsteps'. fold all in Hsteps'. fold ls in Hsteps'.
    destruct (steps_deterministic Hsteps Hsteps') as (_ & ->).
    exact Hrun.
Qed.

(** ** Switches and health in a call whose observers return *)

(** X12. In a call whose callbacks and listeners return, every switch event
    on the bus leads from a provider whose attempt has failed to the provider
    that follows it in the list tried, and its reason is the classification
    of that failure: there is always an error to take it from, so the default
    "provider" is used only for a rejected object whose classification is
    null or undefined. *)
Theorem switch_follows_failure (T : Type)
  (geminiComplete openaiComplete anthropicComplete : Complete)
  (storage : Storage) (messages : list Message) (options : SendMessageOptions T)
  (s : State) (out : Completion (SendMessageResult T)) (new : list Effect)
  (sw : ProviderSwitchEvent) :
  quietOptions options ->
  quietListeners (runtimeListeners s) ->
  steps
    (sendMessage (newAIService geminiComplete openaiComplete anthropicComplete)
       storage messages options)
    s out new ->
  In (provider_switch sw) (busEvents new) ->
  exists j caught,
    nth_error (toTry storage options) j = Some (from sw)
    /\ nth_error (toTry storage options) (S j) = Some (to sw)
    /\ tryOutcome options
         (completeOf geminiComplete openaiComplete anthropicComplete (from sw)
            (mergedMessages messages options))
         (effectiveTimeoutMs options) (from sw)
       = Throws caught
    /\ reason sw = reasonOf (classification (classifyError (from sw) caught)).
Proof.
  intros Hopts Hls Hsteps Hin.
  set (all := toTry storage options).
  set (ls := runtimeListeners s) in *.
  set (outcome := fun p =>
         tryOutcome options
           (completeOf geminiComplete openaiComplete anthropicComplete p
              (mergedMessages messages options))
           (effectiveTimeoutMs options) p).
  set (good := fun sw0 : ProviderSwitchEvent =>
         exists j caught,
           nth_error all j = Some (from sw0)
           /\ nth_error all (S j) = Some (to sw0)
           /\ outcome (from sw0) = Throws caught
           /\ reason sw0
              = reasonOf (classification (classifyError (from sw0) caught))).
  set (pre := fun (i : nat) (lastError : option ClassifiedError) =>
         (0 <? i)%nat = true ->
         exists previous caught,
           nth_error all (i - 1) = Some previous
           /\ outcome previous = Throws caught
           /\ lastError = Some (classifyError previous caught)).
  assert (Hopening : forall i p rest lastError sw0,
            skipn i all = p :: rest -> pre i lastError ->
            In (provider_switch sw0)
              (busEvents (openingEffects options ls all i p lastError)) ->
            good sw0).
  { intros i p rest le sw0 Hskip Hpre Hsw.
    destruct (openingEffects_read options ls all i p le) as (Hob & _).
    rewrite Hob in Hsw. destruct (0 <? i)%nat eqn:Hi; [|destruct Hsw].
    destruct Hsw as [[= <-]|[]].
    destruct (Hpre Hi) as (previous & caught & Hn & Ho & ->).
    apply Nat.ltb_lt in Hi.
    exists (i - 1), caught. cbn [from to reason switchEvent switchReason].
    rewrite (nth_error_nth _ _ p Hn).
    replace (S (i - 1)) with i by lia.
    repeat split; auto.
    exact (proj1 (proj2 (skipn_cons_length all i Hskip))). }
  assert (Hblock : forall p (req : Completion string) e sw0,
            In (provider_switch sw0)
              (busEvents
                 (triedEffects options ls (mergedMessages messages options) p req
                  ++ failureEffects options ls p e)) -> False).
  { intros p req e sw0 Hsw.
    destruct (triedEffects_read options ls (mergedMessages messages options) p req)
      as (_ & _ & Htb & _).
    destruct (failureEffects_read options ls p e) as (Hfb & _).
    rewrite busEvents_app, Htb, Hfb in Hsw.
    apply in_app_or in Hsw. destruct Hsw as [Hsw|[Hsw|[]]]; [|discriminate].
    destruct req; [destruct Hsw as [Hsw|[]]; discriminate | destruct Hsw]. }
  pose proof
    (@runFrom_cases T geminiComplete openaiComplete anthropicComplete
       storage messages options ls all
       (fun i rest lastError x =>
          pre i lastError ->
          forall sw0, In (provider_switch sw0) (busEvents (snd x)) -> good sw0))
    as Hcases.
  cbn [snd] in Hcases.
  unshelve epose proof (Hcases _ _ _) as Hrun; clear Hcases.
  - intros i p rest le txt v Hskip Hout Hpre sw0 Hsw.
    rewrite busEvents_app in Hsw. apply in_app_or in Hsw.
    destruct Hsw as [Hsw|Hsw]; [now apply (Hopening i p rest le)|].
    exfalso.
    match type of Hsw with
    | context [triedEffects ?o ?l ?c ?q ?r] =>
        destruct (triedEffects_read o l c q r) as (_ & _ & Htb & _);
        rewrite Htb in Hsw; destruct r
    end; [destruct Hsw as [Hsw|[]]; discriminate | destruct Hsw].
  - intros i p rest le caught Hskip Hout Hstop Hpre sw0 Hsw.
    rewrite app_nil_r, busEvents_app in Hsw. apply in_app_or in Hsw.
    destruct Hsw as [Hsw|Hsw]; [now apply (Hopening i p rest le)|].
    exfalso. exact (Hblock _ _ _ _ Hsw).
  - intros i p q rest le caught out0 more Hskip Hout Hfb Hmore Hpre sw0 Hsw.
    rewrite busEvents_app in Hsw. apply in_app_or in Hsw.
    destruct Hsw as [Hsw|Hsw]; [now apply (Hopening i p (q :: rest) le)|].
    rewrite !app_assoc, busEvents_app in Hsw. apply in_app_or in Hsw.
    destruct Hsw as [Hsw|Hsw]; [exfalso; exact (Hblock _ _ _ _ Hsw)|].
    apply Hmore; [|exact Hsw].
    intros _. exists p, caught. cbn [Nat.sub]. rewrite Nat.sub_0_r.
    repeat split; auto.
    exact (proj1 (proj2 (skipn_cons_length all i Hskip))).
  - specialize (Hrun all 0 None (toTry_nonempty storage options) eq_refl).
    pose proof (sendMessage_runs geminiComplete openaiComplete anthropicComplete
                  storage messages s Hopts Hls) as Hsteps'.
    cbv zeta in Hsteps'. fold all in Hsteps'. fold ls in Hsteps'.
    destruct (steps_deterministic Hsteps Hsteps') as (_ & ->).
    apply (Hrun ltac:(intros Hi; discriminate) sw Hin).
Qed.


Lemma AIProvider_eqb_neq (a b : AIProvider) : AIProvider_eqb a b = false <-> a <> b.
Proof.
  destruct a, b; cbn; split; intros H; congruence.
Qed.

Lemma tryOutcome_returns (T : Type) (options : SendMessageOptions T)
  (promise : Race string) (ms : N) (p : AIProvider) (txt : string)
  (v : option T) :
  tryOutcome options promise ms p = Returns (txt, v) ->
  raceOutcome promise ms p = Returns txt.
Proof.
  unfold tryOutcome. destruct (raceOutcome promise ms p) as [txt'|e];
    [|discriminate].
  destruct (structuredOutcome options txt'); [|discriminate].
  now intros [= -> _].
Qed.

(** X13. After a call whose callbacks and listeners return, the health
    recorded for every provider that was asked tells how its own attempt went:
    [healthy] when it produced the result, [unconfigured] when it failed with
    kind [auth], [error] when it failed with any other kind; in particular the
    provider named by a result is recorded [healthy]. *)
Theorem health_reflects_outcome (T : Type)
  (geminiComplete openaiComplete anthropicComplete : Complete)
  (storage : Storage) (messages : list Message) (options : SendMessageOptions T)
  (s : State) (out : Completion (SendMessageResult T)) (new : list Effect) :
  quietOptions options ->
  quietListeners (runtimeListeners s) ->
  steps
    (sendMessage (newAIService geminiComplete openaiComplete anthropicComplete)
       storage messages options)
    s out new ->
  (forall q,
     In q (attempted new) ->
     recordedHealth (trace s ++ new) q
     = Some
         match
           tryOutcome options
             (completeOf geminiComplete openaiComplete anthropicComplete q
                (mergedMessages messages options))
             (effectiveTimeoutMs options) q
         with
         | Returns _ => healthy
         | Throws caught =>
             if isAuth (classification (classifyError q caught))
             then unconfigured else error
         end)
  /\ (forall r, out = Returns r ->
                recordedHealth (trace s ++ new) (result_provider r) = Some healthy).
Proof.
  intros Hopts Hls Hsteps.
  set (all := toTry storage options).
  set (ls := runtimeListeners s) in *.
  set (outcome := fun p =>
         tryOutcome options
           (completeOf geminiComplete openaiComplete anthropicComplete p
              (mergedMessages messages options))
           (effectiveTimeoutMs options) p).
  set (expected := fun p =>
         match outcome p with
         | Returns _ => healthy
         | Throws caught => failureHealth (classifyError p caught)
         end).
  pose proof
    (@runFrom_cases T geminiComplete openaiComplete anthropicComplete
       storage messages options ls all
       (fun i rest lastError x =>
          NoDup rest ->
          (forall q, ~ In q rest -> recordedHealth (snd x) q = None)
          /\ (forall q, In q (attempted (snd x)) ->
                        recordedHealth (snd x) q = Some (expected q))
          /\ (forall r, fst x = Returns r ->
                        In (result_provider r) (attempted (snd x))
                        /\ exists tv, outcome (result_provider r) = Returns tv)))
    as Hcases.
  cbn [fst snd] in Hcases.
  unshelve epose proof (Hcases _ _ _) as Hrun; clear Hcases.
  - intros i p rest le txt v Hskip Hout Hnd.
    destruct (openingEffects_read options ls all i p le) as (_ & Hoa & _ & Hor).
    pose proof (tryOutcome_returns _ _ _ _ Hout) as Hreq.
    destruct (triedEffects_read options ls (mergedMessages messages options) p
                (Returns txt)) as (Hta & _ & _ & Htr).
    rewrite Hreq, attempted_app, Hoa, Hta. cbn [app].
    repeat split.
    + intros q Hq. rewrite recordedHealth_app, Htr, Hor.
      replace (AIProvider_eqb p q) with false; [reflexivity|].
      symmetry. apply AIProvider_eqb_neq. intros ->. apply Hq. now left.
    + intros q [<-|[]]. rewrite recordedHealth_app, Htr.
      replace (AIProvider_eqb p p) with true by now destruct p.
      unfold expected. fold (outcome p) in Hout. now rewrite Hout.
    + injection H as <-. cbn. now left.
    + injection H as <-. cbn. now exists (txt, v).
  - intros i p rest le caught Hskip Hout Hstop Hnd.
    destruct (openingEffects_read options ls all i p le) as (_ & Hoa & _ & Hor).
    destruct (failureEffects_read options ls p (classifyError p caught))
      as (_ & Hfa & _ & Hfr).
    match goal with
    | |- context [triedEffects ?o ?l ?c ?q ?r] =>
        destruct (triedEffects_read o l c q r) as (Hta & _ & _ & Htr)
    end.
    rewrite app_nil_r, !attempted_app, Hoa, Hta, Hfa. cbn [app].
    repeat split; try discriminate.
    + intros q Hq. rewrite !recordedHealth_app, Hfr, Htr, Hor.
      replace (AIProvider_eqb p q) with false;
        [now destruct (raceOutcome _ _ _)|].
      symmetry. apply AIProvider_eqb_neq. intros ->. apply Hq. now left.
    + intros q [<-|[]]. rewrite !recordedHealth_app, Hfr.
      replace (AIProvider_eqb p p) with true by now destruct p.
      unfold expected. fold (outcome p) in Hout. now rewrite Hout.
  - intros i p q0 rest le caught out0 more Hskip Hout Hfb Hmore Hnd.
    inversion Hnd as [|? ? Hp Hnd']; subst.
    destruct (Hmore Hnd') as (Hm1 & Hm2 & Hm3).
    destruct (openingEffects_read options ls all i p le) as (_ & Hoa & _ & Hor).
    destruct (failureEffects_read options ls p (classifyError p caught))
      as (_ & Hfa & _ & Hfr).
    match goal with
    | |- context [triedEffects ?o ?l ?c ?q ?r] =>
        destruct (triedEffects_read o l c q r) as (Hta & _ & _ & Htr)
    end.
    rewrite !attempted_app, Hoa, Hta, Hfa. cbn [app].
    repeat split.
    + intros x Hx. rewrite !recordedHealth_app, Hm1, Hfr, Htr, Hor.
      * replace (AIProvider_eqb p x) with false;
          [now destruct (raceOutcome _ _ _)|].
        symmetry. apply AIProvider_eqb_neq. intros ->. apply Hx. now left.
      * intros Hin. apply Hx. now right.
    + intros x [<-|Hx].
      * rewrite !recordedHealth_app, (Hm1 p Hp), Hfr.
        replace (AIProvider_eqb p p) with true by now destruct p.
        unfold expected. fold (outcome p) in Hout. now rewrite Hout.
      * rewrite !recordedHealth_app, (Hm2 x Hx). reflexivity.
    + right. exact (proj1 (Hm3 r H)).
    + exact (proj2 (Hm3 r H)).
  - specialize (Hrun all 0 None (toTry_nonempty storage options) eq_refl
                  (toTry_NoDup storage options)).
    destruct Hrun as (_ & H2 & H3).
    pose proof (sendMessage_runs geminiComplete openaiComplete anthropicComplete
                  storage messages s Hopts Hls) as Hsteps'.
    cbv zeta in Hsteps'. fold all in Hsteps'. fold ls in Hsteps'.
    destruct (steps_deterministic Hsteps Hsteps') as (-> & ->).
    split.
    + intros q Hq. rewrite recordedHealth_app, (H2 q Hq). reflexivity.
    + intros r Hr. destruct (H3 r Hr) as (Hin & tv & Htv).
      rewrite recordedHealth_app, (H2 _ Hin). unfold expected. now rewrite Htv.
Qed.

(** ** The further properties, run *)

Lemma steps_of_run {A} (c : M A) (s : State) :
  trace s = [] ->
  runtimeListeners (snd (c s)) = runtimeListeners s ->
  steps c s (fst (c s)) (trace (snd (c s))).
Proof.
  intros Ht Hl. exists (snd (c s)). rewrite Ht. repeat split.
  - now destruct (c s).
  - exact Hl.
Qed.

Lemma quiet_run_accounting_witness :
  exists out new,
    steps Sample.recovery Sample.listening out new
    /\ 1 <= List.length (attempted new)
    /\ countSwitch (busEvents new) = List.length (attempted new) - 1
    /\ forall r,
         out = Returns r ->
         nth_error (toTry (Sample.keysFor [openai; anthropic])
                      (Sample.select openai true))
           (List.length (attempted new) - 1)
         = Some (result_provider r)
         /\ fallbackUsed r = (1 <? List.length (attempted new))%nat
         /\ fallbackUsed r
            = negb (AIProvider_eqb (result_provider r)
                      (hd gemini
                         (toTry (Sample.keysFor [openai; anthropic])
                            (Sample.select openai true)))).
Proof.
  exact (@quiet_run_accounting string (Sample.answers "from gemini")
           (Sample.rejects "HTTP 401 unauthorized")
           (Sample.answers "from anthropic")
           (Sample.keysFor [openai; anthropic]) Sample.hello
           (Sample.select openai true) Sample.listening
           (quiet_select openai true) quiet_listening).
Defined.

Lemma quiet_run_rejection_witness :
  exists p caught,
    last (attempted (trace (snd (Sample.outage Sample.listening)))) gemini = p
    /\ tryOutcome (Sample.select gemini true)
         (completeOf (Sample.rejects (Sample.networkDown gemini))
            (Sample.rejects (Sample.networkDown openai))
            (Sample.rejects (Sample.networkDown anthropic)) p
            (mergedMessages Sample.hello (Sample.select gemini true)))
         (effectiveTimeoutMs (Sample.select gemini true)) p
       = Throws caught
    /\ Classified {| message := Some "network error";
                     classification := Kind network |}
       = Classified (classifyError p caught)
    /\ last (busEvents (trace (snd (Sample.outage Sample.listening))))
         (healthyEvent gemini)
       = provider_health
           {| hprovider := p;
              health :=
                if isAuth (classification (classifyError p caught))
                then unconfigured else error;
              detail := message (classifyError p caught) |}.
Proof.
  destruct (@quiet_run_rejection string
              (Sample.rejects (Sample.networkDown gemini))
              (Sample.rejects (Sample.networkDown openai))
              (Sample.rejects (Sample.networkDown anthropic))
              Sample.allKeys Sample.hello (Sample.select gemini true)
              Sample.listening
              (Classified {| message := Some "network error";
                             classification := Kind network |})
              (trace (snd (Sample.outage Sample.listening)))
              (quiet_select gemini true) quiet_listening
              (steps_of_run Sample.outage Sample.listening eq_refl eq_refl))
    as (p & caught & H1 & H2 & H3 & H4).
  exists p, caught. repeat split; [exact H1 | exact H2 | exact H3 | exact H4].
Defined.

Lemma callbacks_mirror_bus_witness :
  switchCalls (trace (snd (Sample.recovery Sample.listening)))
  = busSwitches (busEvents (trace (snd (Sample.recovery Sample.listening))))
  /\ healthCalls (trace (snd (Sample.recovery Sample.listening)))
     = busHealths (busEvents (trace (snd (Sample.recovery Sample.listening)))).
Proof.
  exact (@callbacks_mirror_bus string (Sample.answers "from gemini")
           (Sample.rejects "HTTP 401 unauthorized")
           (Sample.answers "from anthropic")
           (Sample.keysFor [openai; anthropic]) Sample.hello
           (Sample.select openai true) Sample.listening _ _
           (quiet_select openai true) quiet_listening
           (steps_of_run Sample.recovery Sample.listening eq_refl eq_refl)).
Defined.

Lemma switch_follows_failure_witness :
  exists j caught,
    nth_error (toTry (Sample.keysFor [openai; anthropic])
                 (Sample.select openai true)) j
    = Some openai
    /\ nth_error (toTry (Sample.keysFor [openai; anthropic])
                    (Sample.select openai true)) (S j)
       = Some anthropic
    /\ tryOutcome (Sample.select openai true)
         (completeOf (Sample.answers "from gemini")
            (Sample.rejects "HTTP 401 unauthorized")
            (Sample.answers "from anthropic") openai
            (mergedMessages Sample.hello (Sample.select openai true)))
         (effectiveTimeoutMs (Sample.select openai true)) openai
       = Throws caught
    /\ "auth" = reasonOf (classification (classifyError openai caught)).
Proof.
  apply (@switch_follows_failure string (Sample.answers "from gemini")
           (Sample.rejects "HTTP 401 unauthorized")
           (Sample.answers "from anthropic")
           (Sample.keysFor [openai; anthropic]) Sample.hello
           (Sample.select openai true) Sample.listening _ _
           {| from := openai; to := anthropic; reason := "auth" |}
           (quiet_select openai true) quiet_listening
           (steps_of_run Sample.recovery Sample.listening eq_refl eq_refl)).
  cbn. tauto.
Defined.

Lemma health_reflects_outcome_witness :
  recordedHealth (trace (snd (Sample.recovery Sample.listening))) openai
  = Some unconfigured
  /\ recordedHealth (trace (snd (Sample.recovery Sample.listening))) anthropic
     = Some healthy.
Proof.
  destruct (@health_reflects_outcome string (Sample.answers "from gemini")
              (Sample.rejects "HTTP 401 unauthorized")
              (Sample.answers "from anthropic")
              (Sample.keysFor [openai; anthropic]) Sample.hello
              (Sample.select openai true) Sample.listening _ _
              (quiet_select openai true) quiet_listening
              (steps_of_run Sample.recovery Sample.listening eq_refl eq_refl))
    as (Hasked & Hresult).
  split.
  - apply (Hasked openai). cbn. tauto.
  - apply (Hresult
             {| text := "from anthropic"; result_provider := anthropic;
                result_structured := None; fallbackUsed := true |}).
    reflexivity.
Defined.

Lemma sendMessage_same_conversation_witness :
  exists new,
    trace (snd (Sample.recovery Sample.listening)) = trace Sample.listening ++ new
    /\ forall q m, In (Completing q m) new -> m = Sample.hello.
Proof.
  destruct (sendMessage_same_conversation
              (newAIService (Sample.answers "from gemini")
                 (Sample.rejects "HTTP 401 unauthorized")
                 (Sample.answers "from anthropic"))
              (Sample.keysFor [openai; anthropic]) Sample.hello
              (Sample.select openai true) Sample.listening)
    as (new & Ht & H).
  exists new. split; [exact Ht|]. intros q m Hin. exact (proj2 (H q m Hin)).
Defined.

Lemma unsubscribed_listener_receives_nothing_witness :
  exists new,
    trace (snd (Sample.recovery (unsubscribe Sample.recorder Sample.listening)))
    = trace (unsubscribe Sample.recorder Sample.listening) ++ new
    /\ ~ In 2 (deliveredTo new).
Proof.
  exact (proj2 (unsubscribed_listener_receives_nothing
                  (newAIService (Sample.answers "from gemini")
                     (Sample.rejects "HTTP 401 unauthorized")
                     (Sample.answers "from anthropic"))
                  (Sample.keysFor [openai; anthropic]) Sample.hello
                  (Sample.select openai true) Sample.recorder
                  (healthyEvent gemini) Sample.listening)).
Defined.

(** ** The store *)

Lemma readSecrets_writeSecrets (GithubAccount : Type)
  (b : Store.Browser GithubAccount) (next : SecretPayload) :
  Store.pickSecretStorage b <> None ->
  Store.readSecrets (Store.writeSecrets next b) = next.
Proof.
  unfold Store.writeSecrets, Store.readSecrets, Store.pickSecretStorage.
  destruct b as [w lp [item|] env d r]; destruct w; cbn; try congruence.
  intros _. now destruct next.
Qed.

Lemma writeSecrets_without_storage (GithubAccount : Type)
  (b : Store.Browser GithubAccount) (next : SecretPayload) :
  Store.pickSecretStorage b = None -> Store.writeSecrets next b = b.
Proof.
  unfold Store.writeSecrets. now intros ->.
Qed.

Lemma readSecrets_without_storage (GithubAccount : Type)
  (b : Store.Browser GithubAccount) :
  Store.pickSecretStorage b = None ->
  Store.readSecrets b = {| providerKeys := Store.noKeys; githubToken := None |}.
Proof.
  unfold Store.readSecrets. now intros ->.
Qed.

Lemma readPrefs_writeSecrets (GithubAccount : Type)
  (b : Store.Browser GithubAccount) (next : SecretPayload) :
  Store.readPrefs (Store.writeSecrets next b) = Store.readPrefs b.
Proof.
  unfold Store.writeSecrets. now destruct (Store.pickSecretStorage b).
Qed.

Lemma writeSecrets_keeps (GithubAccount : Type)
  (b : Store.Browser GithubAccount) (next : SecretPayload) :
  Store.hasWindow (Store.writeSecrets next b) = Store.hasWindow b
  /\ Store.envGeminiKey (Store.writeSecrets next b) = Store.envGeminiKey b
  /\ Store.dispatched (Store.writeSecrets next b) = Store.dispatched b
  /\ (Store.pickSecretStorage (Store.writeSecrets next b) = None
      <-> Store.pickSecretStorage b = None).
Proof.
  unfold Store.writeSecrets.
  destruct (Store.pickSecretStorage b) eqn:E; [|now rewrite E].
  repeat split; try discriminate.
  unfold Store.pickSecretStorage in *. cbn.
  destruct (Store.hasWindow b); [discriminate|congruence].
Qed.

Lemma readSecrets_savePrefs (GithubAccount : Type)
  (b : Store.Browser GithubAccount) (updates : Store.PreferenceUpdates GithubAccount) :
  Store.readSecrets (snd (Store.savePrefs updates b)) = Store.readSecrets b.
Proof.
  unfold Store.savePrefs. now destruct (Store.hasWindow b) eqn:E.
Qed.

Lemma spreadStatus_storedStatus (GithubAccount : Type)
  (o : Store.OnboardingStatus) :
  Store.spreadStatus GithubAccount (Some (Store.storedStatus o)) = o.
Proof.
  destruct o as [? ? ? ? ? ? ? [t|]]; reflexivity.
Qed.

(** What [readPrefs] makes of preferences written by [savePrefs]. *)
Lemma readPrefs_stored (GithubAccount : Type) (b : Store.Browser GithubAccount)
  (next : Store.StoragePreferences GithubAccount) :
  Store.hasWindow b = true ->
  Store.readPrefs (Store.withLocalPrefs (Store.Holding (Store.storedPrefs next)) b)
  = next.
Proof.
  intros Hw. unfold Store.readPrefs.
  cbn [Store.hasWindow Store.withLocalPrefs Store.localPrefs Store.safeJsonParse].
  rewrite Hw.
  destruct next as [? ? o ? ? ? ? ? ? ? [a|]];
    cbn [Store.storedPrefs Store.stored_onboardingStatus Store.onboardingStatus];
    rewrite spreadStatus_storedStatus; reflexivity.
Qed.

Lemma readPrefs_savePrefs (GithubAccount : Type) (b : Store.Browser GithubAccount)
  (updates : Store.PreferenceUpdates GithubAccount) :
  Store.hasWindow b = true ->
  Store.readPrefs (snd (Store.savePrefs updates b))
  = Store.spreadUpdates (Store.readPrefs b) updates.
Proof.
  intros Hw. unfold Store.savePrefs. rewrite Hw. cbn [snd].
  exact (readPrefs_stored b (Store.spreadUpdates (Store.readPrefs b) updates) Hw).
Qed.

Lemma truthy_key (v : option string) :
  truthy v = true <-> exists c rest, v = Some (String c rest).
Proof.
  destruct v as [[|c rest]|]; cbn; split; try discriminate; eauto;
    intros (c' & rest' & H); discriminate.
Qed.

Lemma withProviderApiKey_stored {A} (st : Storage) (p : AIProvider)
  (fn : string -> Completion A) (key : string) :
  providerKeys (readSecrets st) p = Some key -> key <> "" ->
  withProviderApiKey st p fn = fn key.
Proof.
  unfold withProviderApiKey. intros -> Hk. now destruct key.
Qed.

Lemma withProviderApiKey_missing {A} (st : Storage) (p : AIProvider)
  (fn : string -> Completion A) :
  truthy (providerKeys (readSecrets st) p) = false ->
  withProviderApiKey st p fn
  = Throws (PlainError (providerName p ++ " API Key missing")%string).
Proof.
  unfold withProviderApiKey.
  now destruct (providerKeys (readSecrets st) p) as [[|c rest]|].
Qed.

Lemma getConfiguredProviders_In (st : Storage) (p : AIProvider) :
  In p (getConfiguredProviders st)
  <-> truthy (providerKeys (readSecrets st) p) = true
      \/ (p = gemini /\ truthy (GEMINI_API_KEY st) = true).
Proof.
  unfold getConfiguredProviders. rewrite filter_In. split.
  - intros [_ H]. destruct p; cbn in H;
      destruct (truthy (GEMINI_API_KEY st)); auto.
  - intros H. split; [destruct p; cbn; auto|].
    destruct H as [H|[-> H]]; [|cbn; now rewrite H].
    rewrite H. now destruct (AIProvider_eqb p gemini && truthy (GEMINI_API_KEY st)).
Qed.

Lemma storageOf_reads (GithubAccount : Type) (b : Store.Browser GithubAccount) :
  readSecrets (Store.storageOf b) = Store.readSecrets b
  /\ GEMINI_API_KEY (Store.storageOf b) = Store.envGeminiKey b
  /\ defaultProvider (readPrefs (Store.storageOf b))
     = Store.defaultProvider (Store.readPrefs b)
  /\ providerFallbackEnabled (readPrefs (Store.storageOf b))
     = Store.providerFallbackEnabled (Store.readPrefs b).
Proof.
  repeat split.
Qed.

(** X14. With session storage at hand, a key that is not empty and has been
    saved for a provider is the key [withProviderApiKey] hands out for it; the
    provider is then configured, also in the view that is returned; the keys
    of the other providers, the GitHub token and the preferences are as they
    were. *)
Theorem saved_key_is_handed_out (GithubAccount A : Type)
  (b : Store.Browser GithubAccount) (p : AIProvider) (key : string)
  (fn : string -> Completion A) :
  Store.pickSecretStorage b <> None ->
  key <> EmptyString ->
  let saved := Store.saveProviderApiKey p key b in
  withProviderApiKey (Store.storageOf (snd saved)) p fn = fn key
  /\ In p (getConfiguredProviders (Store.storageOf (snd saved)))
  /\ Store.configured (Store.providers (fst saved) p) = true
  /\ (forall q, q <> p ->
        providerKeys (Store.readSecrets (snd saved)) q
        = providerKeys (Store.readSecrets b) q)
  /\ githubToken (Store.readSecrets (snd saved)) = githubToken (Store.readSecrets b)
  /\ Store.getPreferences (snd saved) = Store.getPreferences b.
Proof.
  intros Hs Hk saved.
  assert (Hread : Store.readSecrets (snd saved)
                  = {| providerKeys :=
                         fun q => if AIProvider_eqb q p then Some key
                                  else providerKeys (Store.readSecrets b) q;
                       githubToken := githubToken (Store.readSecrets b) |}).
  { unfold saved, Store.saveProviderApiKey. cbn [snd].
    now apply readSecrets_writeSecrets. }
  assert (Hp : providerKeys (Store.readSecrets (snd saved)) p = Some key).
  { rewrite Hread. cbn. now destruct p. }
  assert (Ht : truthy (providerKeys (Store.readSecrets (snd saved)) p) = true).
  { rewrite Hp. now destruct key. }
  repeat split.
  - now apply withProviderApiKey_stored.
  - apply getConfiguredProviders_In. now left.
  - exact Ht.
  - intros q Hq. rewrite Hread. cbn.
    destruct (AIProvider_eqb q p) eqn:E; [|reflexivity].
    exfalso. apply Hq. now destruct q, p.
  - now rewrite Hread.
  - unfold saved, Store.saveProviderApiKey, Store.getPreferences. cbn [snd].
    apply readPrefs_writeSecrets.
Qed.

(** X15. Without a window, or in a window without session storage, saving a
    provider key or a GitHub token changes nothing; no provider key and no
    GitHub token is ever handed out, and the view returned shows every
    provider as not configured. *)
Theorem secrets_need_session_storage (GithubAccount : Type)
  (b : Store.Browser GithubAccount) (p : AIProvider) (key token : string) :
  Store.pickSecretStorage b = None ->
  snd (Store.saveProviderApiKey p key b) = b
  /\ snd (Store.saveGithubToken token b) = b
  /\ (forall q A (fn : string -> Completion A),
        withProviderApiKey (Store.storageOf b) q fn
        = Throws (PlainError (providerName q ++ " API Key missing")%string))
  /\ (forall A (fn : string -> Completion A),
        Store.withGithubToken b fn
        = Throws (PlainError "GitHub OAuth token missing"))
  /\ forall q,
       Store.providers (fst (Store.saveProviderApiKey p key b)) q
       = {| Store.configured := false; Store.masked := "Not configured" |}.
Proof.
  intros Hs.
  pose proof (readSecrets_without_storage b Hs) as Hr.
  repeat split.
  - unfold Store.saveProviderApiKey. cbn [snd].
    now apply writeSecrets_without_storage.
  - unfold Store.saveGithubToken. cbn [snd].
    now apply writeSecrets_without_storage.
  - intros q A fn. apply withProviderApiKey_missing.
    cbn. now rewrite Hr.
  - intros A fn. unfold Store.withGithubToken. now rewrite Hr.
  - intros q. unfold Store.saveProviderApiKey. cbn [fst].
    rewrite (@writeSecrets_without_storage _ b _ Hs).
    unfold Store.buildCredentialsView. cbn. now rewrite Hr.
Qed.

(** X16. Once the key of a provider has been removed, [withProviderApiKey]
    rejects for it with the message of a missing key and the view shows it as
    not configured; the other keys and the GitHub token are as they were.
    [getConfiguredProviders] still lists the provider in one case only: it is
    gemini and the environment holds a key for it. *)
Theorem removed_key_is_missing (GithubAccount A : Type)
  (b : Store.Browser GithubAccount) (p : AIProvider)
  (fn : string -> Completion A) :
  let removed := Store.removeProviderApiKey p b in
  withProviderApiKey (Store.storageOf (snd removed)) p fn
  = Throws (PlainError (providerName p ++ " API Key missing")%string)
  /\ Store.providers (fst removed) p
     = {| Store.configured := false; Store.masked := "Not configured" |}
  /\ (forall q, q <> p ->
        providerKeys (Store.readSecrets (snd removed)) q
        = providerKeys (Store.readSecrets b) q)
  /\ githubToken (Store.readSecrets (snd removed)) = githubToken (Store.readSecrets b)
  /\ (In p (getConfiguredProviders (Store.storageOf (snd removed)))
      <-> p = gemini /\ truthy (Store.envGeminiKey b) = true).
Proof.
  intros removed.
  assert (Hread : (forall q,
                     providerKeys (Store.readSecrets (snd removed)) q
                     = if AIProvider_eqb q p then None
                       else providerKeys (Store.readSecrets b) q)
                  /\ githubToken (Store.readSecrets (snd removed))
                     = githubToken (Store.readSecrets b)).
  { unfold removed, Store.removeProviderApiKey. cbn [snd].
    destruct (Store.pickSecretStorage b) eqn:Hs.
    - rewrite readSecrets_writeSecrets by congruence. now split.
    - rewrite (@writeSecrets_without_storage _ b _ Hs).
      rewrite (readSecrets_without_storage b Hs). cbn. split; [|reflexivity].
      intros q. now destruct (AIProvider_eqb q p). }
  destruct Hread as [Hkeys Htoken].
  assert (Hp : providerKeys (Store.readSecrets (snd removed)) p = None).
  { rewrite Hkeys. now destruct p. }
  assert (Henv : Store.envGeminiKey (snd removed) = Store.envGeminiKey b).
  { unfold removed, Store.removeProviderApiKey. cbn [snd].
    apply writeSecrets_keeps. }
  destruct (storageOf_reads (snd removed)) as (Hrs & Hge & _).
  repeat split.
  - apply withProviderApiKey_missing. now rewrite Hrs, Hp.
  - change (fst removed) with (Store.buildCredentialsView (snd removed)).
    unfold Store.buildCredentialsView.
    cbn [Store.providers Store.configured Store.masked]. now rewrite Hp.
  - intros q Hq. rewrite Hkeys.
    destruct (AIProvider_eqb q p) eqn:E; [|reflexivity].
    exfalso. apply Hq. now destruct q, p.
  - exact Htoken.
  - apply getConfiguredProviders_In in H. rewrite Hrs, Hp in H.
    destruct H as [H|[H _]]; [discriminate|exact H].
  - apply getConfiguredProviders_In in H. rewrite Hrs, Hp, Hge, Henv in H.
    destruct H as [H|[_ H]]; [discriminate|exact H].
  - intros [Hg H]. apply getConfiguredProviders_In. right. split; [exact Hg|].
    now rewrite Hge, Henv.
Qed.

(** X17. The view of the credentials shows a provider as configured exactly
    when [withProviderApiKey] hands out a key for it, and
    [getConfiguredProviders] lists exactly the providers the view shows as
    configured, and gemini besides when the environment holds a key for it. *)
Theorem view_agrees_with_configured (GithubAccount : Type)
  (b : Store.Browser GithubAccount) (p : AIProvider) :
  (Store.configured (Store.providers (Store.getCredentials b) p) = true
   <-> exists key, withProviderApiKey (Store.storageOf b) p Returns = Returns key)
  /\ (In p (getConfiguredProviders (Store.storageOf b))
      <-> Store.configured (Store.providers (Store.getCredentials b) p) = true
          \/ (p = gemini /\ truthy (Store.envGeminiKey b) = true)).
Proof.
  split.
  - unfold withProviderApiKey. cbn.
    destruct (providerKeys (Store.readSecrets b) p) as [[|c rest]|]; cbn;
      split; try discriminate; eauto; intros [key H]; discriminate.
  - apply getConfiguredProviders_In.
Qed.

Lemma saved_key_is_handed_out_witness :
  withProviderApiKey
    (Store.storageOf (snd (Store.saveProviderApiKey openai "sk-openai" Desk.fresh)))
    openai Returns
  = Returns "sk-openai".
Proof.
  apply (@saved_key_is_handed_out string string Desk.fresh openai "sk-openai"
           Returns); discriminate.
Defined.

Lemma secrets_need_session_storage_witness :
  snd (Store.saveProviderApiKey openai "sk-openai" Desk.noSession) = Desk.noSession.
Proof.
  apply (@secrets_need_session_storage string Desk.noSession openai "sk-openai"
           "gho_token").
  reflexivity.
Defined.

(** ** Masks *)

Lemma substring_all (s : string) : substring 0 (String.length s) s = s.
Proof.
  induction s as [|c s IH]; [reflexivity|]. cbn. now rewrite IH.
Qed.

Lemma substring_split (n : nat) (s : string) :
  n <= String.length s ->
  s = (substring 0 n s ++ substring n (String.length s - n) s)%string.
Proof.
  revert s. induction n as [|n IH]; intros s Hn.
  - rewrite Nat.sub_0_r, substring_all. now destruct s.
  - destruct s as [|c s]; [cbn in Hn; lia|].
    cbn in Hn. cbn. f_equal. apply IH. lia.
Qed.

Lemma substring_length (n m : nat) (s : string) :
  n + m <= String.length s -> String.length (substring n m s) = m.
Proof.
  revert n m. induction s as [|c s IH]; intros n m H; cbn in H.
  - assert (n = 0) by lia. assert (m = 0) by lia. now subst.
  - destruct n as [|n]; cbn.
    + destruct m as [|m]; [reflexivity|]. cbn. f_equal. apply IH. lia.
    + apply IH. lia.
Qed.

(** X18. The mask of a secret that is not empty is the prefix, three bullets
    and a tail of the secret: the last four characters when the secret has
    more than six, nothing otherwise. So a mask shows at most four characters
    of a secret and keeps at least three of them hidden whenever it shows
    any. *)
Theorem maskSecret_hides (value pre : string) :
  value <> EmptyString ->
  exists hidden shown,
    value = (hidden ++ shown)%string
    /\ Store.maskSecret value pre = (pre ++ Store.BULLETS ++ shown)%string
    /\ (String.length shown = 4 /\ 3 <= String.length hidden
        \/ shown = EmptyString /\ String.length value <= 6).
Proof.
  intros Hv. unfold Store.maskSecret.
  destruct value as [|c rest]; [congruence|].
  set (value := String c rest) in *.
  destruct (String.length value <=? 6)%nat eqn:E.
  - apply Nat.leb_le in E. exists value, EmptyString. repeat split.
    + now rewrite string_append_nil.
    + now right.
  - apply Nat.leb_gt in E.
    exists (substring 0 (String.length value - 4) value), (Store.lastFour value).
    unfold Store.lastFour. repeat split.
    + rewrite (@substring_split (String.length value - 4) value) at 1 by lia.
      do 2 f_equal. lia.
    + left. split.
      * apply substring_length. lia.
      * rewrite substring_length by lia. lia.
Qed.

Lemma maskSecret_hides_witness :
  exists hidden shown,
    "sk-secret-1234" = (hidden ++ shown)%string
    /\ Store.maskSecret "sk-secret-1234" "OAI"
       = ("OAI" ++ Store.BULLETS ++ shown)%string
    /\ (String.length shown = 4 /\ 3 <= String.length hidden
        \/ shown = EmptyString /\ String.length "sk-secret-1234" <= 6).
Proof.
  apply (@maskSecret_hides "sk-secret-1234" "OAI"). discriminate.
Defined.

(** ** Preferences *)

(** X19. In a window, the preferences saved are the preferences read before
    with the updates laid over them; they are what [getPreferences] returns
    afterwards, what the view returned by [savePreferences] carries and the
    detail of the one event dispatched; the secrets are as they were. *)
Theorem saved_preferences_are_read_back (GithubAccount : Type)
  (b : Store.Browser GithubAccount)
  (updates : Store.PreferenceUpdates GithubAccount) :
  Store.hasWindow b = true ->
  let saved := Store.savePreferences updates b in
  let next := Store.spreadUpdates (Store.getPreferences b) updates in
  Store.getPreferences (snd saved) = next
  /\ fst (Store.savePrefs updates b) = next
  /\ Store.prefs (fst saved) = next
  /\ Store.dispatched (snd saved) = Store.dispatched b ++ [next]
  /\ Store.readSecrets (snd saved) = Store.readSecrets b.
Proof.
  intros Hw saved next.
  assert (Hread : Store.getPreferences (snd saved) = next).
  { unfold saved, Store.savePreferences, Store.getPreferences. cbn [snd].
    now apply readPrefs_savePrefs. }
  repeat split.
  - exact Hread.
  - unfold Store.savePrefs. now rewrite Hw.
  - exact Hread.
  - unfold saved, Store.savePreferences, Store.savePrefs. rewrite Hw. reflexivity.
  - unfold saved, Store.savePreferences. cbn [snd]. apply readSecrets_savePrefs.
Qed.

Lemma saved_preferences_are_read_back_witness :
  Store.safeMode
    (Store.getPreferences (snd (Store.savePreferences Desk.unsafe Desk.legacy)))
  = false.
Proof.
  rewrite (proj1 (@saved_preferences_are_read_back string Desk.legacy Desk.unsafe
                    eq_refl)).
  reflexivity.
Defined.

(** X20. When the stored preferences carry the fallback flag under the legacy
    key [fallbackEnabled] only, that value is the one [getPreferences] returns
    and the one a call of [sendMessage] without [enableFallback] goes by.
    Saving updates that leave the flag alone moves the value to the key
    [providerFallbackEnabled]: the legacy key is gone from what is stored,
    and the flag reads as before. *)
Theorem legacy_fallback_flag (GithubAccount T : Type)
  (b : Store.Browser GithubAccount) (stored : Store.StoredPreferences GithubAccount)
  (v : bool) (updates : Store.PreferenceUpdates GithubAccount)
  (options : SendMessageOptions T) :
  Store.hasWindow b = true ->
  Store.localPrefs b = Store.Holding stored ->
  Store.stored_providerFallbackEnabled stored = None ->
  Store.stored_fallbackEnabled stored = Some v ->
  Store.set_providerFallbackEnabled updates = None ->
  enableFallback options = None ->
  let b' := snd (Store.savePreferences updates b) in
  Store.providerFallbackEnabled (Store.getPreferences b) = v
  /\ fallbackEnabled (Store.storageOf b) options = v
  /\ (exists stored',
        Store.localPrefs b' = Store.Holding stored'
        /\ Store.stored_fallbackEnabled stored' = None
        /\ Store.stored_providerFallbackEnabled stored' = Some v)
  /\ Store.providerFallbackEnabled (Store.getPreferences b') = v
  /\ fallbackEnabled (Store.storageOf b') options = v.
Proof.
  intros Hw Hitem Hnew Hold Hupd Hopt b'.
  assert (Hv : Store.providerFallbackEnabled (Store.getPreferences b) = v).
  { unfold Store.getPreferences, Store.readPrefs. rewrite Hw, Hitem. cbn.
    now rewrite Hnew, Hold. }
  assert (Hv' : Store.providerFallbackEnabled (Store.getPreferences b') = v).
  { unfold b', Store.savePreferences, Store.getPreferences. cbn [snd].
    rewrite readPrefs_savePrefs by exact Hw.
    unfold Store.spreadUpdates. cbn. now rewrite Hupd. }
  repeat split.
  - exact Hv.
  - unfold fallbackEnabled. now rewrite Hopt.
  - unfold b', Store.savePreferences, Store.savePrefs. rewrite Hw. cbn [snd].
    eexists. split; [reflexivity|]. split; [reflexivity|].
    cbn. rewrite Hupd. cbn. now rewrite <- Hv.
  - exact Hv'.
  - unfold fallbackEnabled. now rewrite Hopt.
Qed.

Lemma legacy_fallback_flag_witness :
  fallbackEnabled
    (Store.storageOf (snd (Store.savePreferences Desk.unsafe Desk.legacy)))
    Desk.bare
  = false.
Proof.
  exact (proj2 (proj2 (proj2 (proj2
           (@legacy_fallback_flag string string Desk.legacy Desk.legacyPrefs false
              Desk.unsafe Desk.bare eq_refl eq_refl eq_refl eq_refl eq_refl
              eq_refl))))).
Defined.

(** ** The GitHub connection *)

Lemma pickSecretStorage_window (GithubAccount : Type)
  (b : Store.Browser GithubAccount) :
  Store.pickSecretStorage b <> None -> Store.hasWindow b = true.
Proof.
  unfold Store.pickSecretStorage. now destruct (Store.hasWindow b).
Qed.

Lemma githubAccount_saved (GithubAccount : Type) (b : Store.Browser GithubAccount)
  (value : option GithubAccount) :
  Store.hasWindow b = true ->
  Store.githubAccount
    (Store.readPrefs (snd (Store.savePrefs (Store.githubAccountUpdate value) b)))
  = value.
Proof.
  intros Hw. now rewrite readPrefs_savePrefs.
Qed.

(** X21. With session storage at hand, after [saveGithubOAuth] with a token
    that is not empty [withGithubToken] hands out that token and the
    preferences carry the account; the view returned shows GitHub as
    connected to the account; the provider keys are as they were. *)
Theorem oauth_connection_is_kept (GithubAccount A : Type)
  (b : Store.Browser GithubAccount) (token : string) (acct : GithubAccount)
  (fn : string -> Completion A) :
  Store.pickSecretStorage b <> None ->
  token <> EmptyString ->
  let saved := Store.saveGithubOAuth token acct b in
  Store.withGithubToken (snd saved) fn = fn token
  /\ Store.githubAccount (Store.getPreferences (snd saved)) = Some acct
  /\ Store.github_configured (Store.github (fst saved)) = true
  /\ Store.account (Store.github (fst saved)) = Some acct
  /\ providerKeys (Store.readSecrets (snd saved)) = providerKeys (Store.readSecrets b).
Proof.
  intros Hs Ht saved.
  pose proof (pickSecretStorage_window b Hs) as Hw.
  assert (Hread : Store.readSecrets (snd saved)
                  = {| providerKeys := providerKeys (Store.readSecrets b);
                       githubToken := Some token |}).
  { unfold saved, Store.saveGithubOAuth. cbn [snd].
    rewrite readSecrets_savePrefs. now apply readSecrets_writeSecrets. }
  assert (Hacct : Store.githubAccount (Store.getPreferences (snd saved)) = Some acct).
  { unfold saved, Store.saveGithubOAuth, Store.getPreferences. cbn [snd].
    apply githubAccount_saved.
    now rewrite (proj1 (writeSecrets_keeps b _)). }
  change (fst saved) with (Store.buildCredentialsView (snd saved)).
  unfold Store.buildCredentialsView, Store.withGithubToken.
  cbn [Store.github Store.github_configured Store.account].
  rewrite Hread. cbn [githubToken providerKeys].
  repeat split; try exact Hacct; now destruct token.
Qed.

Lemma oauth_connection_is_kept_witness :
  Store.withGithubToken
    (snd (Store.saveGithubOAuth "gho_token" "octocat" Desk.fresh)) Returns
  = Returns "gho_token".
Proof.
  apply (@oauth_connection_is_kept string string Desk.fresh "gho_token" "octocat"
           Returns); discriminate.
Defined.

(** X22. In a window without session storage [saveGithubOAuth] keeps the
    account and not the token: the view returned names the account and shows
    GitHub as not connected, and [withGithubToken] rejects. *)
Theorem oauth_account_without_token (GithubAccount A : Type)
  (b : Store.Browser GithubAccount) (token : string) (acct : GithubAccount)
  (fn : string -> Completion A) :
  Store.hasWindow b = true ->
  Store.sessionStore b = None ->
  let saved := Store.saveGithubOAuth token acct b in
  Store.github (fst saved)
  = {| Store.github_configured := false;
       Store.github_masked := "Not connected";
       Store.account := Some acct |}
  /\ Store.withGithubToken (snd saved) fn
     = Throws (PlainError "GitHub OAuth token missing").
Proof.
  intros Hw Hnone saved.
  assert (Hs : Store.pickSecretStorage b = None).
  { unfold Store.pickSecretStorage. now rewrite Hw. }
  assert (Hread : Store.readSecrets (snd saved)
                  = {| providerKeys := Store.noKeys; githubToken := None |}).
  { unfold saved, Store.saveGithubOAuth. cbn [snd].
    rewrite readSecrets_savePrefs, (@writeSecrets_without_storage _ b _ Hs).
    now apply readSecrets_without_storage. }
  assert (Hacct : Store.githubAccount (Store.readPrefs (snd saved)) = Some acct).
  { unfold saved, Store.saveGithubOAuth. cbn [snd].
    rewrite (@writeSecrets_without_storage _ b _ Hs).
    now apply githubAccount_saved. }
  change (fst saved) with (Store.buildCredentialsView (snd saved)).
  unfold Store.buildCredentialsView, Store.withGithubToken.
  cbn [Store.github]. rewrite Hread, Hacct. now split.
Qed.

Lemma oauth_account_without_token_witness :
  Store.account
    (Store.github (fst (Store.saveGithubOAuth "gho_token" "octocat" Desk.noSession)))
  = Some "octocat".
Proof.
  rewrite (proj1 (@oauth_account_without_token string unit Desk.noSession
                    "gho_token" "octocat" (fun _ => Returns tt) eq_refl eq_refl)).
  reflexivity.
Defined.

(** X23. After [removeGithubToken], [withGithubToken] rejects, the
    preferences carry no account and the view returned shows GitHub as not
    connected; the provider keys are as they were. *)
Theorem removed_token_disconnects (GithubAccount A : Type)
  (b : Store.Browser GithubAccount) (fn : string -> Completion A) :
  let removed := Store.removeGithubToken b in
  Store.withGithubToken (snd removed) fn
  = Throws (PlainError "GitHub OAuth token missing")
  /\ Store.githubAccount (Store.getPreferences (snd removed)) = None
  /\ Store.github (fst removed)
     = {| Store.github_configured := false;
          Store.github_masked := "Not connected";
          Store.account := None |}
  /\ forall q,
       providerKeys (Store.readSecrets (snd removed)) q
       = providerKeys (Store.readSecrets b) q.
Proof.
  intros removed.
  assert (Hread : githubToken (Store.readSecrets (snd removed)) = None
                  /\ forall q,
                       providerKeys (Store.readSecrets (snd removed)) q
                       = providerKeys (Store.readSecrets b) q).
  { unfold removed, Store.removeGithubToken. cbn [snd].
    rewrite readSecrets_savePrefs.
    destruct (Store.pickSecretStorage b) eqn:Hs.
    - rewrite readSecrets_writeSecrets by congruence. now split.
    - rewrite (@writeSecrets_without_storage _ b _ Hs).
      now rewrite (readSecrets_without_storage b Hs). }
  destruct Hread as [Htoken Hkeys].
  assert (Hacct : Store.githubAccount (Store.readPrefs (snd removed)) = None).
  { unfold removed, Store.removeGithubToken. cbn [snd].
    set (b1 := Store.writeSecrets _ b).
    destruct (Store.hasWindow b1) eqn:Hw.
    - now apply githubAccount_saved.
    - unfold Store.savePrefs, Store.readPrefs. rewrite Hw. cbn [snd].
      now rewrite Hw. }
  change (fst removed) with (Store.buildCredentialsView (snd removed)).
  unfold Store.buildCredentialsView, Store.withGithubToken, Store.getPreferences.
  cbn [Store.github]. rewrite Htoken, Hacct. repeat split. exact Hkeys.
Qed.

(** X24. After [clearCredentials] the preferences read as the defaults, no
    provider key and no GitHub token is handed out, and the only provider
    that can still be configured is gemini, through the key of the
    environment. In a window one reload is asked for; without a window
    nothing is. *)
Theorem clearCredentials_resets (GithubAccount : Type)
  (b : Store.Browser GithubAccount) :
  let b' := Store.clearCredentials b in
  Store.getPreferences b' = Store.DEFAULT_PREFS GithubAccount
  /\ (forall q A (fn : string -> Completion A),
        withProviderApiKey (Store.storageOf b') q fn
        = Throws (PlainError (providerName q ++ " API Key missing")%string))
  /\ (forall A (fn : string -> Completion A),
        Store.withGithubToken b' fn
        = Throws (PlainError "GitHub OAuth token missing"))
  /\ getConfiguredProviders (Store.storageOf b')
     = (if truthy (Store.envGeminiKey b) then [gemini] else [])
  /\ Store.reloads b'
     = if Store.hasWindow b then S (Store.reloads b) else Store.reloads b.
Proof.
  intros b'.
  assert (Hread : Store.readSecrets b'
                  = {| providerKeys := Store.noKeys; githubToken := None |}).
  { unfold b', Store.clearCredentials, Store.readSecrets, Store.pickSecretStorage.
    destruct b as [[|] lp [item|] env d r]; reflexivity. }
  assert (Henv : Store.envGeminiKey b' = Store.envGeminiKey b).
  { unfold b', Store.clearCredentials. now destruct (Store.hasWindow b). }
  destruct (storageOf_reads b') as (Hrs & Hge & _).
  repeat split.
  - unfold b', Store.clearCredentials, Store.getPreferences, Store.readPrefs.
    destruct (Store.hasWindow b) eqn:Hw; cbn; now rewrite ?Hw.
  - intros q A fn. apply withProviderApiKey_missing. now rewrite Hrs, Hread.
  - intros A fn. unfold Store.withGithubToken. now rewrite Hread.
  - unfold getConfiguredProviders. rewrite Hrs, Hge, Henv, Hread.
    cbn. now destruct (truthy (Store.envGeminiKey b)).
  - unfold b', Store.clearCredentials. now destruct (Store.hasWindow b).
Qed.

(** ** The adapters *)

Lemma withStoredKey_missing {A} (storage : Storage) (p : AIProvider)
  (fn : string -> Calls A) :
  truthy (providerKeys (readSecrets storage) p) = false ->
  withStoredKey storage p fn
  = rejected (PlainError (providerName p ++ " API Key missing")%string).
Proof.
  intros H. unfold withStoredKey. now rewrite withProviderApiKey_missing.
Qed.

Lemma withStoredKey_stored {A} (storage : Storage) (p : AIProvider)
  (fn : string -> Calls A) :
  truthy (providerKeys (readSecrets storage) p) = true ->
  exists c rest,
    providerKeys (readSecrets storage) p = Some (String c rest)
    /\ withStoredKey storage p fn = fn (String c rest).
Proof.
  intros H. apply truthy_key in H. destruct H as (c & rest & H).
  exists c, rest. split; [exact H|].
  unfold withStoredKey, withProviderApiKey. now rewrite H.
Qed.

Lemma missing_key_is_auth (p : AIProvider) :
  classifyError p (PlainError (providerName p ++ " API Key missing")%string)
  = {| message := Some (providerName p ++ " API Key missing")%string;
       classification := Kind auth |}.
Proof.
  now destruct p.
Qed.

(** X25. The adapter of a provider that [getConfiguredProviders] does not
    list rejects at once with the message of a missing key: it calls neither
    the Gemini SDK nor a callback. The orchestrator classifies that rejection
    as [auth] and records the provider as [unconfigured]. *)
Theorem unconfigured_adapter_rejects
  (generateContent : string -> GenerateRequest -> Race (option string))
  (storage : Storage) (options : AdapterOptions) (p : AIProvider)
  (messages : list Message) :
  ~ In p (getConfiguredProviders storage) ->
  let missing := PlainError (providerName p ++ " API Key missing")%string in
  adapterComplete generateContent storage options p messages
  = ([], OperationSettles (Throws missing))
  /\ classification (classifyError p missing) = Kind auth
  /\ failureHealth (classifyError p missing) = unconfigured.
Proof.
  intros Hp missing.
  assert (Hkey : truthy (providerKeys (readSecrets storage) p) = false).
  { destruct (truthy (providerKeys (readSecrets storage) p)) eqn:E; [|reflexivity].
    exfalso. apply Hp. apply getConfiguredProviders_In. now left. }
  assert (Henv : p = gemini -> truthy (GEMINI_API_KEY storage) = false).
  { intros ->. destruct (truthy (GEMINI_API_KEY storage)) eqn:E; [|reflexivity].
    exfalso. apply Hp. apply getConfiguredProviders_In. now right. }
  unfold missing. rewrite missing_key_is_auth. repeat split.
  destruct p; cbn [adapterComplete].
  - unfold GeminiAdapter_complete.
    specialize (Henv eq_refl).
    destruct (GEMINI_API_KEY storage) as [[|c rest]|]; try discriminate;
      now apply withStoredKey_missing.
  - unfold OpenAIAdapter_complete. now apply withStoredKey_missing.
  - unfold AnthropicAdapter_complete. now apply withStoredKey_missing.
Qed.

Lemma unconfigured_adapter_rejects_witness :
  adapterComplete Desk.unreachable (Sample.keysFor [openai]) Desk.streaming
    anthropic Sample.hello
  = ([], OperationSettles (Throws (PlainError "anthropic API Key missing"))).
Proof.
  apply (@unconfigured_adapter_rejects Desk.unreachable (Sample.keysFor [openai])
           Desk.streaming anthropic Sample.hello).
  cbn. intros [H|H]; [discriminate|exact H].
Defined.

Lemma substring_length_le (n m : nat) (s : string) :
  String.length (substring n m s) <= m.
Proof.
  revert n m. induction s as [|c s IH]; intros n m.
  - destruct n, m; cbn; lia.
  - destruct n as [|n]; cbn.
    + destruct m as [|m]; cbn; [lia|]. specialize (IH 0 m). lia.
    + apply IH.
Qed.

Lemma orDefault_suffix (a b : string) :
  exists intro, orDefault a b = (intro ++ a)%string.
Proof.
  destruct a as [|c a].
  - exists b. now rewrite string_append_nil.
  - now exists EmptyString.
Qed.

Lemma callback_quiet {E} (cb : option (E -> Completion unit))
  (shown : E -> AdapterCall) (e : E) :
  quietCallback cb ->
  callback cb shown e
  = (match cb with Some _ => [shown e] | None => [] end,
     OperationSettles (Returns tt)).
Proof.
  destruct cb as [f|]; cbn; [|reflexivity]. now intros ->.
Qed.

Lemma configured_stored (storage : Storage) (p : AIProvider) :
  p <> gemini ->
  In p (getConfiguredProviders storage) ->
  truthy (providerKeys (readSecrets storage) p) = true.
Proof.
  intros Hp H. apply getConfiguredProviders_In in H.
  destruct H as [H|[H _]]; [exact H|contradiction].
Qed.

(** X26. The adapters of openai and anthropic, for a provider that is
    configured and with callbacks that return, always answer: the text is not
    empty and ends with the content of the latest message; the whole text is
    handed to [onToken] as one token, and [onToolInvocation] is called once,
    with an event that names the provider: a "code_search" with a query of
    one to forty characters for openai, a "reasoning_step" with the number of
    messages for anthropic. The Gemini SDK is not called. *)
Theorem mock_adapter_answers
  (generateContent : string -> GenerateRequest -> Race (option string))
  (storage : Storage) (options : AdapterOptions) (p : AIProvider)
  (messages : list Message) :
  p <> gemini ->
  In p (getConfiguredProviders storage) ->
  quietAdapterOptions options ->
  exists calls txt,
    adapterComplete generateContent storage options p messages
    = (calls, OperationSettles (Returns txt))
    /\ txt <> EmptyString
    /\ (exists intro, txt = (intro ++ latestContent messages)%string)
    /\ tokensOf calls = match onToken options with Some _ => [txt] | None => [] end
    /\ List.length (toolCalls calls)
       = match onToolInvocation options with Some _ => 1 | None => 0 end
    /\ Forall (toolEventFor p messages) (toolCalls calls)
    /\ sdkRequests calls = [].
Proof.
  intros Hp Hin [Htok Htool].
  pose proof (configured_stored storage Hp Hin) as Hkey.
  destruct p; [congruence| |]; cbn [adapterComplete].
  - unfold OpenAIAdapter_complete.
    match goal with
    | |- context [withStoredKey storage openai ?fn] =>
        destruct (withStoredKey_stored storage openai fn Hkey) as (c & rest & _ & ->)
    end.
    cbv zeta. rewrite !callback_quiet by assumption.
    eexists _, _. split; [reflexivity|]. split; [discriminate|]. split.
    { destruct (orDefault_suffix (latestContent messages)
                  "ForgePad is ready to build.") as [intro ->].
      exists ("OpenAI adapter response: " ++ intro)%string.
      now rewrite string_append_assoc. }
    assert (Hq : 1 <= String.length
                       (orDefault (substring 0 40 (latestContent messages))
                          "workspace status") <= 40).
    { pose proof (substring_length_le 0 40 (latestContent messages)).
      destruct (substring 0 40 (latestContent messages)); cbn in *; lia. }
    destruct (onToken options), (onToolInvocation options);
      cbn [fst snd app tokensOf toolCalls sdkRequests flat_map List.length];
      repeat split;
      try (constructor; [split; [reflexivity|split; [reflexivity|exact Hq]]
                        |constructor]);
      constructor.
  - unfold AnthropicAdapter_complete.
    match goal with
    | |- context [withStoredKey storage anthropic ?fn] =>
        destruct (withStoredKey_stored storage anthropic fn Hkey) as (c & rest & _ & ->)
    end.
    cbv zeta. rewrite !callback_quiet by assumption.
    eexists _, _. split; [reflexivity|]. split; [discriminate|]. split.
    { destruct (orDefault_suffix (latestContent messages)
                  "I can help with your code.") as [intro ->].
      exists ("Anthropic adapter response: " ++ intro)%string.
      now rewrite string_append_assoc. }
    destruct (onToken options), (onToolInvocation options);
      cbn [fst snd app tokensOf toolCalls sdkRequests flat_map List.length];
      repeat split; repeat constructor.
Qed.

Lemma mock_adapter_answers_witness :
  exists calls txt,
    adapterComplete Desk.unreachable (Sample.keysFor [openai]) Desk.streaming
      openai Sample.hello
    = (calls, OperationSettles (Returns txt))
    /\ txt <> EmptyString
    /\ (exists intro, txt = (intro ++ latestContent Sample.hello)%string)
    /\ tokensOf calls = [txt]
    /\ List.length (toolCalls calls) = 1
    /\ Forall (toolEventFor openai Sample.hello) (toolCalls calls)
    /\ sdkRequests calls = [].
Proof.
  apply (@mock_adapter_answers Desk.unreachable (Sample.keysFor [openai])
           Desk.streaming openai Sample.hello).
  - discriminate.
  - cbn. now left.
  - split; intros e; reflexivity.
Defined.

(** ** The tokens of the Gemini adapter *)

Lemma concat_cons (x : string) (l : list string) :
  String.concat "" (x :: l) = (x ++ String.concat "" l)%string.
Proof.
  destruct l; cbn; [now rewrite string_append_nil|reflexivity].
Qed.

Lemma concat_nonEmpty (l : list string) :
  String.concat "" (filter nonEmpty l) = String.concat "" l.
Proof.
  induction l as [|x l IH]; [reflexivity|].
  cbn [filter]. destruct x as [|c x].
  - cbn [nonEmpty]. now rewrite IH, concat_cons.
  - cbn [nonEmpty]. now rewrite !concat_cons, IH.
Qed.

Lemma concat_splitFrom (s : string) :
  forall inSpace current,
    String.concat "" (splitFrom inSpace current s) = (current ++ s)%string.
Proof.
  induction s as [|c s IH]; intros inSpace current.
  - cbn [splitFrom]. destruct inSpace; cbn; now rewrite ?string_append_nil.
  - cbn [splitFrom]. destruct (Bool.eqb (isSpace c) inSpace).
    + rewrite IH. now rewrite string_append_assoc.
    + now rewrite concat_cons, IH.
Qed.

Lemma allChars_append (P : ascii -> bool) (a b : string) :
  allChars P (a ++ b) = allChars P a && allChars P b.
Proof.
  induction a as [|c a IH]; [reflexivity|].
  cbn. rewrite IH. now rewrite andb_assoc.
Qed.

(** The pieces of [splitFrom] that are not empty are runs. *)
Lemma splitFrom_runs (s : string) :
  forall inSpace current,
    allChars (fun c => Bool.eqb (isSpace c) inSpace) current = true ->
    Forall isRun (filter nonEmpty (splitFrom inSpace current s)).
Proof.
  assert (Hrun : forall inSpace current,
             allChars (fun c => Bool.eqb (isSpace c) inSpace) current = true ->
             nonEmpty current = true -> isRun current).
  { intros inSpace current H Hn. split; [now destruct current|].
    destruct inSpace; [left|right]; rewrite <- H; clear;
      induction current as [|c t IH]; cbn; try reflexivity;
      rewrite IH; now destruct (isSpace c). }
  induction s as [|c s IH]; intros inSpace current Hc.
  - cbn [splitFrom].
    destruct inSpace; cbn [filter nonEmpty];
      destruct (nonEmpty current) eqn:E;
      try (constructor; [now apply (Hrun _ _ Hc)|]); constructor.
  - cbn [splitFrom]. destruct (Bool.eqb (isSpace c) inSpace) eqn:E.
    + apply IH. rewrite allChars_append, Hc. cbn. now rewrite E.
    + cbn [filter]. destruct (nonEmpty current) eqn:En.
      * constructor; [eauto|]. apply IH. cbn.
        now destruct (isSpace c).
      * apply IH. cbn. now destruct (isSpace c).
Qed.

Lemma forEachToken_quiet (options : AdapterOptions) (tokens : list string) :
  quietCallback (onToken options) ->
  forEachToken options tokens
  = (match onToken options with
     | Some _ => map OnToken (filter nonEmpty tokens)
     | None => []
     end,
     OperationSettles (Returns tt)).
Proof.
  intros Hq. induction tokens as [|t tokens IH]; cbn [forEachToken].
  - now destruct (onToken options).
  - rewrite IH. destruct t as [|c t].
    + cbn. reflexivity.
    + rewrite callback_quiet by exact Hq. cbn [filter nonEmpty].
      destruct (onToken options); reflexivity.
Qed.

Lemma tokensOf_map (tokens : list string) :
  tokensOf (map OnToken tokens) = tokens.
Proof.
  induction tokens as [|t tokens IH]; [reflexivity|]. cbn. now f_equal.
Qed.

(** What [invoke] of the Gemini adapter comes to when [onToken] returns. *)
Lemma geminiInvoke_quiet
  (generateContent : string -> GenerateRequest -> Race (option string))
  (options : AdapterOptions) (messages : list Message) (apiKey : string) :
  quietCallback (onToken options) ->
  geminiInvoke generateContent options messages apiKey
  = match generateContent apiKey (geminiRequest messages) with
    | OperationSettles (Returns response) =>
        let txt := match response with Some t => t | None => EmptyString end in
        (GenerateContent apiKey (geminiRequest messages)
         :: match onToken options with
            | Some _ => map OnToken (filter nonEmpty (splitWhitespace txt))
            | None => []
            end,
         OperationSettles (Returns txt))
    | OperationSettles (Throws e) =>
        ([GenerateContent apiKey (geminiRequest messages)],
         OperationSettles (Throws e))
    | DeadlineFires =>
        ([GenerateContent apiKey (geminiRequest messages)], DeadlineFires)
    end.
Proof.
  intros Hq. unfold geminiInvoke. cbv zeta.
  destruct (generateContent apiKey (geminiRequest messages)) as [[response|e]|];
    cbn [andThen]; try reflexivity.
  rewrite forEachToken_quiet by exact Hq. cbn [andThen resolved].
  now rewrite app_nil_r.
Qed.

(** The Gemini adapter either rejects for want of a key, or is [invoke] with
    the key of the environment, or with the stored one when the environment
    has none. *)
Lemma GeminiAdapter_complete_cases
  (generateContent : string -> GenerateRequest -> Race (option string))
  (storage : Storage) (options : AdapterOptions) (messages : list Message) :
  (~ In gemini (getConfiguredProviders storage)
   /\ GeminiAdapter_complete generateContent storage options messages
      = rejected (PlainError "gemini API Key missing"))
  \/ (exists apiKey,
        apiKey <> EmptyString
        /\ (if truthy (GEMINI_API_KEY storage)
            then GEMINI_API_KEY storage = Some apiKey
            else providerKeys (readSecrets storage) gemini = Some apiKey)
        /\ GeminiAdapter_complete generateContent storage options messages
           = geminiInvoke generateContent options messages apiKey).
Proof.
  unfold GeminiAdapter_complete.
  destruct (GEMINI_API_KEY storage) as [[|c rest]|] eqn:Henv;
    try (right; exists (String c rest); cbn; repeat split; congruence).
  all: destruct (truthy (providerKeys (readSecrets storage) gemini)) eqn:Hkey.
  all: try (destruct (withStoredKey_stored storage gemini
                        (geminiInvoke generateContent options messages) Hkey)
             as (c & rest & Hk & ->);
            right; exists (String c rest); cbn; repeat split; congruence).
  all: left; split; [|now apply withStoredKey_missing].
  all: intros H; apply getConfiguredProviders_In in H;
    rewrite Hkey, Henv in H; destruct H as [H|[_ H]]; discriminate.
Qed.

(** X27. When the Gemini adapter answers and [onToken] is given and returns,
    the tokens it has streamed, put together in order, are the text it
    returns; no token is empty, and each one is all whitespace or free of
    whitespace. *)
Theorem gemini_tokens_rebuild_text
  (generateContent : string -> GenerateRequest -> Race (option string))
  (storage : Storage) (options : AdapterOptions) (messages : list Message)
  (calls : list AdapterCall) (txt : string) :
  onToken options <> None ->
  quietCallback (onToken options) ->
  GeminiAdapter_complete generateContent storage options messages
  = (calls, OperationSettles (Returns txt)) ->
  String.concat "" (tokensOf calls) = txt
  /\ Forall isRun (tokensOf calls).
Proof.
  intros Hsome Hq Hrun.
  destruct (GeminiAdapter_complete_cases generateContent storage options messages)
    as [[_ H]|(apiKey & _ & _ & H)]; rewrite H in Hrun; [discriminate|].
  rewrite geminiInvoke_quiet in Hrun by exact Hq.
  destruct (generateContent apiKey (geminiRequest messages)) as [[response|e]|];
    try discriminate.
  cbv zeta in Hrun. injection Hrun as <- <-.
  destruct (onToken options) as [f|]; [|congruence].
  cbn [tokensOf flat_map app]. fold (tokensOf (map OnToken
    (filter nonEmpty (splitWhitespace match response with
                                       | Some t => t
                                       | None => EmptyString
                                       end)))).
  rewrite tokensOf_map. split.
  - rewrite concat_nonEmpty. unfold splitWhitespace. now rewrite concat_splitFrom.
  - now apply splitFrom_runs.
Qed.

Lemma gemini_tokens_rebuild_text_witness :
  String.concat ""
    (tokensOf
       (fst (GeminiAdapter_complete (Desk.sdk (Some " Hello,  world "))
               (Store.storageOf Desk.server) Desk.streaming Sample.hello)))
  = " Hello,  world ".
Proof.
  apply (@gemini_tokens_rebuild_text (Desk.sdk (Some " Hello,  world "))
           (Store.storageOf Desk.server) Desk.streaming Sample.hello
           (fst (GeminiAdapter_complete (Desk.sdk (Some " Hello,  world "))
                   (Store.storageOf Desk.server) Desk.streaming Sample.hello))
           " Hello,  world ").
  - discriminate.
  - intros e. reflexivity.
  - reflexivity.
Defined.

(** ** The request of the Gemini adapter *)

Lemma sdkRequests_app (a b : list AdapterCall) :
  sdkRequests (a ++ b) = sdkRequests a ++ sdkRequests b.
Proof.
  apply flat_map_app.
Qed.

Lemma forEachToken_no_request (options : AdapterOptions) (tokens : list string) :
  sdkRequests (fst (forEachToken options tokens)) = [].
Proof.
  induction tokens as [|t tokens IH]; [reflexivity|].
  cbn [forEachToken].
  destruct (forEachToken options tokens) as [more r] eqn:E. cbn [fst] in IH.
  destruct t as [|c t]; [cbn; exact IH|].
  unfold callback. destruct (onToken options) as [f|]; [|cbn; exact IH].
  cbn [andThen]. destruct (f (String c t)); cbn; [exact IH|reflexivity].
Qed.

Lemma geminiInvoke_requests
  (generateContent : string -> GenerateRequest -> Race (option string))
  (options : AdapterOptions) (messages : list Message) (apiKey : string) :
  sdkRequests (fst (geminiInvoke generateContent options messages apiKey))
  = [(apiKey, geminiRequest messages)].
Proof.
  unfold geminiInvoke. cbv zeta.
  destruct (generateContent apiKey (geminiRequest messages)) as [[response|e]|];
    cbn [andThen]; try reflexivity.
  pose proof (forEachToken_no_request options
                (splitWhitespace match response with
                                 | Some t => t
                                 | None => EmptyString
                                 end)) as H.
  destruct (forEachToken options _) as [more [[[]|e]|]]; cbn [fst] in H;
    cbn [andThen resolved fst]; rewrite ?sdkRequests_app, H; reflexivity.
Qed.

(** X28. When gemini is configured, its adapter sends the SDK exactly one
    request, whatever the callbacks do: with the key of the environment when
    there is one, with the stored key otherwise. The request carries one
    entry for each message of the conversation, in order, with the content of
    the message as its only part; the role is "model" for a message of the
    assistant and "user" for every other one, a system prompt included. *)
Theorem gemini_request_and_key
  (generateContent : string -> GenerateRequest -> Race (option string))
  (storage : Storage) (options : AdapterOptions) (messages : list Message) :
  In gemini (getConfiguredProviders storage) ->
  exists apiKey request,
    sdkRequests (fst (GeminiAdapter_complete generateContent storage options messages))
    = [(apiKey, request)]
    /\ apiKey <> EmptyString
    /\ (if truthy (GEMINI_API_KEY storage)
        then GEMINI_API_KEY storage = Some apiKey
        else providerKeys (readSecrets storage) gemini = Some apiKey)
    /\ Forall2
         (fun m entry =>
            parts entry = [content m]
            /\ content_role entry
               = match role m with
                 | assistant => "model"
                 | _ => "user"
                 end)
         messages (contents request).
Proof.
  intros Hin.
  destruct (GeminiAdapter_complete_cases generateContent storage options messages)
    as [[H _]|(apiKey & Hne & Hkey & ->)]; [contradiction|].
  exists apiKey, (geminiRequest messages).
  split; [apply geminiInvoke_requests|]. split; [exact Hne|]. split; [exact Hkey|].
  unfold geminiRequest. cbn [contents].
  induction messages as [|m messages IH]; constructor; auto.
Qed.

Lemma gemini_request_and_key_witness :
  exists apiKey request,
    sdkRequests
      (fst (GeminiAdapter_complete Desk.unreachable (Store.storageOf Desk.server)
              Desk.silent Sample.hello))
    = [(apiKey, request)]
    /\ apiKey <> EmptyString
    /\ Some "env-gemini-key" = Some apiKey
    /\ Forall2
         (fun m entry =>
            parts entry = [content m]
            /\ content_role entry
               = match role m with
                 | assistant => "model"
                 | _ => "user"
                 end)
         Sample.hello (contents request).
Proof.
  apply (@gemini_request_and_key Desk.unreachable (Store.storageOf Desk.server)
           Desk.silent Sample.hello).
  cbn. now left.
Defined.

(** ** The service with its own adapters *)

Lemma busSwitches_app (a b : list ProviderRuntimeEvent) :
  busSwitches (a ++ b) = busSwitches a ++ busSwitches b.
Proof.
  apply flat_map_app.
Qed.

Lemma busSwitches_length (evs : list ProviderRuntimeEvent) :
  List.length (busSwitches evs) = countSwitch evs.
Proof.
  unfold countSwitch.
  induction evs as [|[e|e] evs IH]; cbn; [reflexivity| |exact IH].
  now f_equal.
Qed.

(** The reasons of the switches of a trail of failures of one kind. *)
Lemma failTrail_reasons (err : AIProvider -> Thrown) (k : ErrorClass)
  (all rest : list AIProvider) :
  (forall p, classification (classifyError p (err p)) = Kind k) ->
  forall i lastError,
    match lastError with
    | Some e => classification e = Kind k
    | None => i = 0
    end ->
    Forall (fun e => reason e = className k)
      (busSwitches (failTrail err all i rest lastError)).
Proof.
  intros Hk. induction rest as [|p rest IH]; intros i lastError Hlast.
  - constructor.
  - cbn [failTrail]. rewrite busSwitches_app. apply Forall_app. split.
    + destruct (0 <? i)%nat eqn:Hi; [|constructor].
      constructor; [|constructor]. cbn. unfold switchReason.
      destruct lastError as [e|]; [now rewrite Hlast|].
      subst i. discriminate.
    + cbn [busSwitches flat_map failureEvent app]. apply IH. apply Hk.
Qed.

Lemma providersToTry_none_configured (selected : AIProvider) :
  providersToTry [] selected = candidates selected.
Proof.
  now destruct selected.
Qed.

Lemma providersToTry_selected_first (configured : list AIProvider)
  (selected : AIProvider) :
  In selected configured ->
  exists others, providersToTry configured selected = selected :: others.
Proof.
  intros Hin. unfold providersToTry. cbv zeta. rewrite candidates_shape.
  assert (H : arrayIncludes configured selected = true).
  { unfold arrayIncludes. apply existsb_exists. exists selected.
    split; [exact Hin|now destruct selected]. }
  cbn [filter]. rewrite H. cbn [List.length Nat.ltb Nat.leb]. eauto.
Qed.

(** X29. When no provider is configured and fallback is enabled, a call to the
    service with its own adapters, with callbacks and listeners that return,
    asks the selected provider and then the other two in their fixed order,
    announces every provider as [unconfigured] with the message of its
    missing key, gives [auth] as the reason of each of its two switches, and
    is rejected with the [auth] error of the provider asked last. *)
Theorem sendMessage_without_credentials (T : Type)
  (generateContent : string -> GenerateRequest -> Race (option string))
  (storage : Storage) (adapterOptions : AdapterOptions)
  (messages : list Message) (options : SendMessageOptions T) (s : State) :
  getConfiguredProviders storage = [] ->
  fallbackEnabled storage options = true ->
  quietOptions options ->
  quietListeners (runtimeListeners s) ->
  let all := candidates (selectedProvider storage options) in
  let missing := fun p => (providerName p ++ " API Key missing")%string in
  exists new,
    steps
      (sendMessage (serviceAdapters generateContent storage adapterOptions)
         storage messages options)
      s
      (Throws
         (Classified
            {| message := Some (missing (last all gemini));
               classification := Kind auth |}))
      new
    /\ attempted new = all
    /\ List.length all = 3
    /\ filter isHealth (busEvents new)
       = map
           (fun p =>
              provider_health
                {| hprovider := p; health := unconfigured;
                   detail := Some (missing p) |})
           all
    /\ List.length (busSwitches (busEvents new)) = 2
    /\ Forall (fun e => reason e = "auth") (busSwitches (busEvents new)).
Proof.
  intros Hnone Hfb Hopts Hls all missing.
  set (err := fun p => PlainError (missing p)).
  assert (Hall : toTry storage options = all).
  { unfold toTry. rewrite Hnone. apply providersToTry_none_configured. }
  assert (Hclass : forall p, classifyError p (err p)
                             = {| message := Some (missing p);
                                  classification := Kind auth |}).
  { intros p. apply missing_key_is_auth. }
  destruct (attemptFrom_all_rejected
              (fun ms => snd (GeminiAdapter_complete generateContent storage
                                adapterOptions ms))
              (fun ms => snd (OpenAIAdapter_complete storage adapterOptions ms))
              (fun ms => snd (AnthropicAdapter_complete storage adapterOptions ms))
              storage messages Hopts Hls err all Hfb (rest := all) 0 None)
    as (new & Hbus & Hatt & Hrun).
  - unfold all. apply candidates_nonempty.
  - reflexivity.
  - intros p _.
    assert (Hp : ~ In p (getConfiguredProviders storage)) by now rewrite Hnone.
    assert (Hkey : truthy (providerKeys (readSecrets storage) p) = false).
    { destruct (truthy (providerKeys (readSecrets storage) p)) eqn:E;
        [|reflexivity].
      exfalso. apply Hp. apply getConfiguredProviders_In. now left. }
    destruct p; cbn [completeOf].
    + unfold GeminiAdapter_complete.
      assert (Henv : truthy (GEMINI_API_KEY storage) = false).
      { destruct (truthy (GEMINI_API_KEY storage)) eqn:E; [|reflexivity].
        exfalso. apply Hp. apply getConfiguredProviders_In. now right. }
      destruct (GEMINI_API_KEY storage) as [[|c rest]|]; try discriminate;
        now rewrite withStoredKey_missing.
    + unfold OpenAIAdapter_complete. now rewrite withStoredKey_missing.
    + unfold AnthropicAdapter_complete. now rewrite withStoredKey_missing.
  - exists new.
    assert (Hlen : List.length all = 3).
    { unfold all. now destruct (selectedProvider storage options). }
    repeat split.
    + unfold sendMessage. rewrite Hall. rewrite <- Hclass.
      apply Hrun. reflexivity.
    + exact Hatt.
    + exact Hlen.
    + rewrite Hbus, failTrail_health. apply map_ext. intros p.
      unfold failureEvent. now rewrite Hclass.
    + rewrite busSwitches_length, Hbus, failTrail_switches.
      cbn [Nat.ltb Nat.leb]. now rewrite Hlen.
    + rewrite Hbus.
      apply (@failTrail_reasons err auth all all); [|reflexivity].
      intros p. now rewrite Hclass.
Qed.

Lemma sendMessage_without_credentials_witness :
  exists new,
    steps
      (sendMessage
         (serviceAdapters Desk.unreachable (Sample.keysFor []) Desk.streaming)
         (Sample.keysFor []) Sample.hello (Sample.select openai true))
      Sample.listening
      (Throws
         (Classified
            {| message := Some "anthropic API Key missing";
               classification := Kind auth |}))
      new
    /\ attempted new = [openai; gemini; anthropic].
Proof.
  destruct (@sendMessage_without_credentials string Desk.unreachable
              (Sample.keysFor []) Desk.streaming Sample.hello
              (Sample.select openai true) Sample.listening
              eq_refl eq_refl (quiet_select openai true) quiet_listening)
    as (new & Hrun & Hatt & _).
  exists new. split; [exact Hrun|exact Hatt].
Defined.

(** The adapters of openai and anthropic answer when the provider is
    configured and the callbacks return. *)
Lemma mock_adapter_reply
  (generateContent : string -> GenerateRequest -> Race (option string))
  (storage : Storage) (options : AdapterOptions) (p : AIProvider)
  (messages : list Message) :
  p <> gemini ->
  In p (getConfiguredProviders storage) ->
  quietAdapterOptions options ->
  exists calls txt,
    adapterComplete generateContent storage options p messages
    = (calls, OperationSettles (Returns txt)).
Proof.
  intros Hp Hin [Htok Htool].
  pose proof (configured_stored storage Hp Hin) as Hkey.
  destruct p; [congruence| |]; cbn [adapterComplete].
  - unfold OpenAIAdapter_complete.
    match goal with
    | |- context [withStoredKey storage openai ?fn] =>
        destruct (withStoredKey_stored storage openai fn Hkey) as (c & rest & _ & ->)
    end.
    cbv zeta. rewrite !callback_quiet by assumption. eexists _, _. reflexivity.
  - unfold AnthropicAdapter_complete.
    match goal with
    | |- context [withStoredKey storage anthropic ?fn] =>
        destruct (withStoredKey_stored storage anthropic fn Hkey)
          as (c & rest & _ & ->)
    end.
    cbv zeta. rewrite !callback_quiet by assumption. eexists _, _. reflexivity.
Qed.

(** X30. When the selected provider is openai or anthropic and is configured,
    a call to the service with its own adapters, with callbacks and listeners
    that return and without a structured parser, returns the answer of that
    provider's adapter: no other provider is asked, nothing is switched,
    [fallbackUsed] is false and the provider is announced and recorded as
    [healthy]. *)
Theorem configured_selection_answers (T : Type)
  (generateContent : string -> GenerateRequest -> Race (option string))
  (storage : Storage) (adapterOptions : AdapterOptions)
  (messages : list Message) (options : SendMessageOptions T) (s : State) :
  let p := selectedProvider storage options in
  p <> gemini ->
  In p (getConfiguredProviders storage) ->
  structured options = None ->
  quietAdapterOptions adapterOptions ->
  quietOptions options ->
  quietListeners (runtimeListeners s) ->
  exists new txt,
    steps
      (sendMessage (serviceAdapters generateContent storage adapterOptions)
         storage messages options)
      s
      (Returns
         {| text := txt; result_provider := p; result_structured := None;
            fallbackUsed := false |})
      new
    /\ snd (adapterComplete generateContent storage adapterOptions p
              (mergedMessages messages options))
       = OperationSettles (Returns txt)
    /\ attempted new = [p]
    /\ busEvents new = [healthyEvent p]
    /\ recordedHealth new p = Some healthy.
Proof.
  intros p Hp Hin Hstruct Haopts Hopts Hls.
  destruct (@mock_adapter_reply generateContent storage adapterOptions p
              (mergedMessages messages options) Hp Hin Haopts)
    as (calls & txt & Hcomplete).
  pose proof (@sendMessage_runs T
                (fun ms => snd (GeminiAdapter_complete generateContent storage
                                  adapterOptions ms))
                (fun ms => snd (OpenAIAdapter_complete storage adapterOptions ms))
                (fun ms => snd (AnthropicAdapter_complete storage adapterOptions ms))
                storage messages options s Hopts Hls) as Hrun.
  cbv zeta in Hrun.
  destruct (@providersToTry_selected_first (getConfiguredProviders storage) p Hin)
    as [others Hall].
  fold p in Hall. change (providersToTry _ p) with (toTry storage options) in Hall.
  rewrite Hall in Hrun. cbn [runFrom] in Hrun.
  assert (Hpromise :
            completeOf
              (fun ms => snd (GeminiAdapter_complete generateContent storage
                                adapterOptions ms))
              (fun ms => snd (OpenAIAdapter_complete storage adapterOptions ms))
              (fun ms => snd (AnthropicAdapter_complete storage adapterOptions ms))
              p (mergedMessages messages options)
            = OperationSettles (Returns txt)).
  { transitivity (snd (adapterComplete generateContent storage adapterOptions p
                         (mergedMessages messages options))).
    - now destruct p.
    - now rewrite Hcomplete. }
  rewrite Hpromise in Hrun.
  unfold tryOutcome, structuredOutcome in Hrun. rewrite Hstruct in Hrun.
  cbn [raceOutcome fst snd Nat.ltb Nat.leb] in Hrun.
  exists (openingEffects options (runtimeListeners s) (p :: others) 0 p None
            ++ triedEffects options (runtimeListeners s)
                 (mergedMessages messages options) p (Returns txt)), txt.
  destruct (triedEffects_read options (runtimeListeners s)
              (mergedMessages messages options) p (Returns txt))
    as (Hatt & _ & Hbus & Hrec).
  split; [exact Hrun|]. split; [now rewrite Hcomplete|].
  unfold openingEffects. cbn [Nat.ltb Nat.leb app].
  split; [exact Hatt|]. split; [exact Hbus|].
  rewrite Hrec. now destruct p.
Qed.

Lemma configured_selection_answers_witness :
  exists new txt,
    steps
      (sendMessage
         (serviceAdapters Desk.unreachable (Sample.keysFor [openai; anthropic])
            Desk.streaming)
         (Sample.keysFor [openai; anthropic]) Sample.hello
         (Sample.select anthropic true))
      Sample.listening
      (Returns
         {| text := txt; result_provider := anthropic; result_structured := None;
            fallbackUsed := false |})
      new
    /\ attempted new = [anthropic].
Proof.
  destruct (@configured_selection_answers string Desk.unreachable
              (Sample.keysFor [openai; anthropic]) Desk.streaming Sample.hello
              (Sample.select anthropic true) Sample.listening)
    as (new & txt & Hrun & _ & Hatt & _).
  - discriminate.
  - cbn. right. now left.
  - reflexivity.
  - split; intros e; reflexivity.
  - apply quiet_select.
  - exact quiet_listening.
  - exists new, txt. split; [exact Hrun|exact Hatt].
Defined.

(** ** Calls in which every attempt fails *)

Lemma filter_isHealth_switch (sw : list ProviderRuntimeEvent) (i : nat)
  (e : ProviderSwitchEvent) :
  sw = (if (0 <? i)%nat then [provider_switch e] else []) ->
  filter isHealth sw = [] /\ countSwitch sw = if (0 <? i)%nat then 1 else 0.
Proof.
  intros ->. now destruct (0 <? i)%nat.
Qed.

(** C2, as the claim has it, fails: a candidate whose text the structured
    validator refuses has failed, and it is announced [healthy] before it is
    announced [error]; three such candidates give six health events. *)
Lemma refused_candidates_double_health :
  let run :=
    sendMessage
      (newAIService (Sample.answers "no") (Sample.answers "no")
         (Sample.answers "no"))
      Sample.allKeys Sample.hello Sample.measured Sample.listening in
  fallbackEnabled Sample.allKeys Sample.measured = true
  /\ fst run
     = Throws
         (Classified
            {| message := Some "Structured output validation failed";
               classification := Kind unknown |})
  /\ attempted (trace (snd run)) = [gemini; openai; anthropic]
  /\ countHealth (busEvents (trace (snd run))) = 6
  /\ countSwitch (busEvents (trace (snd run))) = 2.
Proof.
  repeat split.
Qed.

(** C2, amended. Fallback is enabled, the callbacks of the options and the
    subscribed listeners return, and the attempt of every provider tried
    fails, the one of [p] with [err p]: its request is rejected or times out,
    or its text does not pass the structured step. Then [sendMessage] rejects
    with the classified error of the last provider tried, whatever the
    earlier ones failed with; all [n] providers are attempted, in order; the
    bus gets [n - 1] switch events; and for each provider, in order, it gets
    one health event of the failure, with health [unconfigured] for kind
    [auth] and [error] otherwise and with the message as detail, preceded by
    a [healthy] event of that provider when its request had returned a text.
    So the health events are [n] plus the number of texts refused, and
    exactly [n] when every request is rejected or times out. *)
Theorem sendMessage_all_failed (T : Type)
  (geminiComplete openaiComplete anthropicComplete : Complete)
  (storage : Storage) (messages : list Message) (options : SendMessageOptions T)
  (err : AIProvider -> Thrown) (s : State) :
  let all := toTry storage options in
  let n := List.length all in
  let final := last all gemini in
  let promise := fun p =>
    completeOf geminiComplete openaiComplete anthropicComplete p
      (mergedMessages messages options) in
  let request := fun p => raceOutcome (promise p) (effectiveTimeoutMs options) p in
  let returned := fun p =>
    match request p with
    | Returns _ => true
    | Throws _ => false
    end in
  quietOptions options ->
  quietListeners (runtimeListeners s) ->
  fallbackEnabled storage options = true ->
  (forall p, In p all ->
     tryOutcome options (promise p) (effectiveTimeoutMs options) p
     = Throws (err p)) ->
  exists new,
    steps
      (sendMessage (newAIService geminiComplete openaiComplete anthropicComplete)
         storage messages options)
      s (Throws (Classified (classifyError final (err final)))) new
    /\ attempted new = all
    /\ countSwitch (busEvents new) = n - 1
    /\ filter isHealth (busEvents new)
       = flat_map
           (fun p =>
              (if returned p
               then [provider_health
                       {| hprovider := p; health := healthy; detail := None |}]
               else [])
              ++ [provider_health
                    {| hprovider := p;
                       health :=
                         if isAuth (classification (classifyError p (err p)))
                         then unconfigured else error;
                       detail := message (classifyError p (err p)) |}])
           all
    /\ countHealth (busEvents new) = n + List.length (filter returned all)
    /\ ((forall p, In p all -> returned p = false) ->
        countHealth (busEvents new) = n).
Proof.
  intros all n final promise request returned Hopts Hls Hfb Hfail.
  set (ls := runtimeListeners s) in *.
  set (reported := fun p =>
         (if returned p then [healthyEvent p] else [])
         ++ [failureEvent p (classifyError p (err p))]).
  pose proof
    (@runFrom_cases T geminiComplete openaiComplete anthropicComplete
       storage messages options ls all
       (fun i rest lastError x =>
          (forall p, In p rest ->
             tryOutcome options (promise p) (effectiveTimeoutMs options) p
             = Throws (err p)) ->
          fst x
          = Throws
              (Classified (classifyError (last rest gemini) (err (last rest gemini))))
          /\ attempted (snd x) = rest
          /\ countSwitch (busEvents (snd x))
             = (if (0 <? i)%nat then List.length rest else List.length rest - 1)
          /\ filter isHealth (busEvents (snd x)) = flat_map reported rest))
    as Hcases.
  cbn [fst snd] in Hcases.
  unshelve epose proof (Hcases _ _ _) as Hrun; clear Hcases.
  - intros j p rest0 le txt v _ Hout Hall.
    specialize (Hall p (or_introl eq_refl)). unfold promise in Hall.
    rewrite Hout in Hall. discriminate.
  - intros j p rest0 le caught _ Hout [Hstop| ->] Hall; [congruence|].
    specialize (Hall p (or_introl eq_refl)). unfold promise in Hall.
    rewrite Hout in Hall. injection Hall as ->.
    destruct (openingEffects_read options ls all j p le) as (Hob & Hoa & _).
    destruct (failureEffects_read options ls p (classifyError p (err p)))
      as (Hfb' & Hfa & _).
    match goal with
    | |- context [triedEffects ?o ?l ?c ?q ?r] =>
        destruct (triedEffects_read o l c q r) as (Hta & _ & Htb & _)
    end.
    destruct (@filter_isHealth_switch _ _ _ Hob) as (Hoh & Hos).
    rewrite app_nil_r, !attempted_app, !busEvents_app, !countSwitch_app,
      !filter_app, Hoa, Hta, Hfa, Hoh, Hos, Hfb', Htb.
    cbn [last app flat_map List.length]. rewrite app_nil_r.
    unfold reported, returned, request, promise.
    repeat split.
    + destruct (raceOutcome _ _ p); destruct (0 <? j)%nat; reflexivity.
    + destruct (raceOutcome _ _ p); reflexivity.
  - intros j p q rest0 le caught out more _ Hout _ IH Hall.
    pose proof (Hall p (or_introl eq_refl)) as Hp. unfold promise in Hp.
    rewrite Hout in Hp. injection Hp as ->.
    destruct (IH (fun r Hr => Hall r (or_intror Hr))) as (Hres & Hatt & Hsw & Hhe).
    destruct (openingEffects_read options ls all j p le) as (Hob & Hoa & _).
    destruct (failureEffects_read options ls p (classifyError p (err p)))
      as (Hfb' & Hfa & _).
    match goal with
    | |- context [triedEffects ?o ?l ?c ?q0 ?r] =>
        destruct (triedEffects_read o l c q0 r) as (Hta & _ & Htb & _)
    end.
    destruct (@filter_isHealth_switch _ _ _ Hob) as (Hoh & Hos).
    rewrite !attempted_app, !busEvents_app, !countSwitch_app, !filter_app,
      Hoa, Hta, Hfa, Hoh, Hos, Hfb', Htb, Hatt, Hsw, Hhe.
    cbn [Nat.ltb Nat.leb].
    change (flat_map reported (p :: q :: rest0))
      with (reported p ++ flat_map reported (q :: rest0)).
    unfold reported at 1. unfold returned, request, promise.
    repeat split.
    + exact Hres.
    + destruct (raceOutcome _ _ p); destruct j; cbn; lia.
    + unfold reported, returned, request, promise.
      destruct (raceOutcome _ _ p); reflexivity.
  - specialize (Hrun all 0 None (toTry_nonempty storage options) eq_refl Hfail).
    destruct Hrun as (Hres & Hatt & Hsw & Hhe).
    pose proof (sendMessage_runs geminiComplete openaiComplete anthropicComplete
                  storage messages s Hopts Hls) as Hsteps.
    cbv zeta in Hsteps. fold all in Hsteps. fold ls in Hsteps.
    rewrite Hres in Hsteps.
    assert (Hcount : forall l,
               List.length (flat_map reported l)
               = List.length l + List.length (filter returned l)).
    { induction l as [|p l IH]; [reflexivity|].
      cbn [flat_map filter]. rewrite length_app, IH. unfold reported.
      destruct (returned p); cbn; lia. }
    eexists. split; [exact Hsteps|]. split; [exact Hatt|].
    split; [exact Hsw|]. split; [exact Hhe|].
    unfold countHealth. rewrite Hhe, Hcount. split; [reflexivity|].
    intros Hnone. fold n.
    replace (filter returned all) with (@nil AIProvider); [cbn; lia|].
    symmetry. clear - Hnone. induction all as [|p l IH]; [reflexivity|].
    cbn. rewrite (Hnone p (or_introl eq_refl)). apply IH.
    intros r Hr. apply Hnone. now right.
Qed.

Lemma sendMessage_all_failed_witness :
  exists new,
    steps
      (sendMessage
         (newAIService (Sample.rejects (Sample.networkDown gemini))
            (Sample.rejects (Sample.networkDown openai))
            (Sample.rejects (Sample.networkDown anthropic)))
         Sample.allKeys Sample.hello (Sample.select gemini true))
      Sample.listening
      (Throws
         (Classified
            {| message := Some "network error";
               classification := Kind network |}))
      new
    /\ filter isHealth (busEvents new)
       = [ provider_health
             {| hprovider := gemini; health := error;
                detail := Some "Network unreachable" |};
           provider_health
             {| hprovider := openai; health := error;
                detail := Some "Failed to fetch" |};
           provider_health
             {| hprovider := anthropic; health := error;
                detail := Some "network error" |} ]
    /\ countHealth (busEvents new) = 3
    /\ countSwitch (busEvents new) = 2.
Proof.
  destruct
    (@sendMessage_all_failed string
       (Sample.rejects (Sample.networkDown gemini))
       (Sample.rejects (Sample.networkDown openai))
       (Sample.rejects (Sample.networkDown anthropic))
       Sample.allKeys Sample.hello (Sample.select gemini true)
       (fun p => PlainError (Sample.networkDown p)) Sample.listening
       (quiet_select gemini true) quiet_listening eq_refl)
    as (new & Hrun & _ & Hswitch & Hhealth & _ & Hcount).
  - intros p _. destruct p; reflexivity.
  - exists new. split; [exact Hrun|]. split; [exact Hhealth|].
    split; [|exact Hswitch].
    apply Hcount. intros p _. destruct p; reflexivity.
Defined.

(** ** The health of a failed attempt *)









